(** * Pitivi undo/redo for the timeline: a shallow embedding of
      [pitivi/undo/timeline.py]

    The Python module observes a GES timeline (layers, clips, track
    elements, control sources) and turns every mutation into an undoable
    action pushed on an action log.  Python objects are modelled by their
    identity (a [positive]) plus tables indexed by identity; methods that
    mutate objects are functions in a state-and-exception monad. *)

From Stdlib Require Import ZArith String List Floats Uint63.
From Stdlib Require Import Ascii.
From stdpp Require Import base option list gmap strings.

Open Scope string_scope.
Open Scope Z_scope.
Open Scope list_scope.

(** ** Values and identities *)

Abbreviation layer_id := positive.
Abbreviation clip_id := positive.
Abbreviation elem_id := positive.
Abbreviation cs_id := positive.
Abbreviation observer_id := positive.

(** A GValue as it travels through [set_child_property], [set_property] and
    the control sources. *)
Inductive gvalue :=
| GInt (z : Z)
| GBool (b : bool)
| GString (s : string)
| GDouble (x : float).

(** The classes the module tests with [isinstance]. *)
Inductive clip_class := UriClip | TitleClip | TransitionClip.
Inductive element_class :=
  VideoSource | AudioSource | BaseEffect | VideoTransition | AudioTransition.

Definition is_TransitionClip (k : clip_class) : bool :=
  match k with TransitionClip => true | _ => false end.
Definition is_VideoTransition (k : element_class) : bool :=
  match k with VideoTransition => true | _ => false end.
Definition is_BaseEffect (k : element_class) : bool :=
  match k with BaseEffect => true | _ => false end.
Definition is_VideoSource (k : element_class) : bool :=
  match k with VideoSource => true | _ => false end.

(** A [GParamSpec] of a child property. *)
Record pspec := PSpec {
  owner_type_name : string;
  pspec_name : string;
  pspec_writable : bool }.

(** [child_property_name(pspec)]: ["%s::%s" % (pspec.owner_type.name, pspec.name)]. *)
Definition child_property_name (p : pspec) : string :=
  String.append (owner_type_name p) (String.append "::" (pspec_name p)).

(** A [GstController] control point: [keyframe.timestamp], [keyframe.value]. *)
Record keyframe := Keyframe { timestamp : Z; value : gvalue }.

(** A control binding: [binding.props.name], [binding.props.control_source]. *)
Record binding := Binding { binding_name : string; control_source : cs_id }.

(** [TRANSITION_PROPS] *)
Definition TRANSITION_PROPS : list string := ["border"; "invert"; "transition-type"].

(** [Gst.SECOND], in nanoseconds. *)
Definition Gst_SECOND : Z := 1000000000.

(** Python's [int / int] (true division) gives the binary64 float nearest to
    the exact quotient, ties to even, whatever the size of the operands; no
    operand is converted to a float first.  For [0 ≤ a] and [0 < b] the
    quotient is scaled by the power of two [2^k] that brings it into
    [2^52, 2^53) and rounded to the nearest integer [r]; the result is the
    float with mantissa [r] and exponent [-k], or with mantissa [2^52] and
    exponent [1 - k] when the rounding reached [2^53].  The quotient of a
    guint64 by [Gst.SECOND] is zero or a normal number; beyond the normal
    numbers Python rounds to a subnormal number or raises OverflowError,
    which is not modelled. *)
Definition round_half_even (n d : Z) : Z :=
  let q := n / d in
  let r := n mod d in
  if 2 * r <? d then q
  else if d <? 2 * r then q + 1
  else if Z.even q then q else q + 1.

Definition py_truediv (a b : Z) : float :=
  if a =? 0 then 0%float
  else
    let e := Z.log2 a - Z.log2 b in
    let k := if a * 2 ^ Z.log2 b <? b * 2 ^ Z.log2 a then 53 - e else 52 - e in
    let n := a * 2 ^ Z.max k 0 in
    let d := b * 2 ^ Z.max (- k) 0 in
    let r := round_half_even n d in
    if r =? 2 ^ 53 then SF2Prim (S754_finite false (Z.to_pos (2 ^ 52)) (1 - k))
    else SF2Prim (S754_finite false (Z.to_pos r) (- k)).

(** ** Exceptions and the state monad *)

Inductive exn := AttributeError | AssertionError | KeyError | TypeError.

Inductive result (A : Type) :=
| Ok (a : A)
| Raise (e : exn).
Arguments Ok {A} a.
Arguments Raise {A} e.

(** A computation over a state [S] that returns a value or raises. *)
Definition M (S A : Type) : Type := S → result (A * S).

Definition ret {S A} (a : A) : M S A := λ s, Ok (a, s).
Definition bind {S A B} (m : M S A) (k : A → M S B) : M S B :=
  λ s, match m s with
       | Ok (a, s') => k a s'
       | Raise e => Raise e
       end.
Definition raise {S A} (e : exn) : M S A := λ _, Raise e.
Definition get {S} : M S S := λ s, Ok (s, s).
Definition gets {S A} (f : S → A) : M S A := λ s, Ok (f s, s).
Definition modify {S} (f : S → S) : M S unit := λ s, Ok (tt, f s).

Declare Scope py_scope.
Delimit Scope py_scope with py.
Notation "x <- c ;; k" := (bind c (λ x, k))
  (at level 100, c at next level, right associativity) : py_scope.
Notation "c ;;; k" := (bind c (λ _, k))
  (at level 100, right associativity) : py_scope.
Open Scope py_scope.

(** [for x in l: body x] *)
Fixpoint for_each {S A} (l : list A) (body : A → M S unit) : M S unit :=
  match l with
  | [] => ret tt
  | x :: l' => body x ;;; for_each l' body
  end.

(** [assert b] *)
Definition py_assert {S} (b : bool) : M S unit :=
  if b then ret tt else raise AssertionError.

(** Run a computation against a part of the state. *)
Definition zoom {S T A} (proj : S → T) (inj : T → S → S) (m : M T A) : M S A :=
  λ s, match m (proj s) with
       | Ok (a, t) => Ok (a, inj t s)
       | Raise e => Raise e
       end.

(** ** The GES document

    [ges_info] holds what the undo module only reads; [doc] holds what its
    actions write, together with the number of [commit_timeline] calls the
    pipeline has received and the replacements registered with
    [UndoableAutomaticObjectAction.update_object]. *)

(** A Python attribute value, as far as [is True] and [is not None] can tell. *)
Inductive pyval := PyNone | PyBool (b : bool) | PyObject.

(** [timeline.ui], with its [editing_context] ([None] when no edit is going on). *)
Record timeline_ui := TimelineUi { editing_context : option positive }.

Record ges_info := GesInfo {
  clip_class_of : clip_id → clip_class;
  clip_start : clip_id → Z;
  clip_duration : clip_id → Z;
  clip_in_point : clip_id → Z;
  clip_asset_id : clip_id → string;
  clip_type_name : clip_id → string;
  clip_generated_name : clip_id → string;
  elem_class_of : elem_id → element_class;
  elem_name : elem_id → string;
  elem_parent : elem_id → clip_id;
  elem_pspecs : elem_id → list pspec;
  elem_bindings : elem_id → list (string * binding);
  (** [None]: the layer has no attribute [splitting_object]. *)
  layer_splitting_object : layer_id → option pyval;
  (** [None]: the timeline has no attribute [ui]; [Some None]: it is [None]. *)
  timeline_ui_attr : option (option timeline_ui) }.

Record doc := Doc {
  timeline_layers : list layer_id;
  layer_clips : gmap layer_id (list clip_id);
  clip_layer : gmap clip_id layer_id;
  clip_children : gmap clip_id (list elem_id);
  layer_priority : gmap layer_id Z;
  (** names given with [set_name]; a clip without an entry has the name GES
      generated for it *)
  clip_name : gmap clip_id string;
  child_props : gmap (elem_id * string) gvalue;
  gobject_props : gmap (elem_id * string) gvalue;
  elem_active : gmap elem_id bool;
  control_points : gmap cs_id (gmap Z gvalue);
  commits : nat;
  next_elem : elem_id;
  auto_updates : list (elem_id * elem_id);
  info : ges_info }.

Definition set_timeline_layers (x : list layer_id) (d : doc) : doc :=
  Doc x (layer_clips d) (clip_layer d) (clip_children d) (layer_priority d)
      (clip_name d) (child_props d) (gobject_props d) (elem_active d)
      (control_points d) (commits d) (next_elem d) (auto_updates d) (info d).
Definition set_layer_clips (x : gmap layer_id (list clip_id)) (d : doc) : doc :=
  Doc (timeline_layers d) x (clip_layer d) (clip_children d) (layer_priority d)
      (clip_name d) (child_props d) (gobject_props d) (elem_active d)
      (control_points d) (commits d) (next_elem d) (auto_updates d) (info d).
Definition set_clip_layer (x : gmap clip_id layer_id) (d : doc) : doc :=
  Doc (timeline_layers d) (layer_clips d) x (clip_children d) (layer_priority d)
      (clip_name d) (child_props d) (gobject_props d) (elem_active d)
      (control_points d) (commits d) (next_elem d) (auto_updates d) (info d).
Definition set_clip_children (x : gmap clip_id (list elem_id)) (d : doc) : doc :=
  Doc (timeline_layers d) (layer_clips d) (clip_layer d) x (layer_priority d)
      (clip_name d) (child_props d) (gobject_props d) (elem_active d)
      (control_points d) (commits d) (next_elem d) (auto_updates d) (info d).
Definition set_layer_priority (x : gmap layer_id Z) (d : doc) : doc :=
  Doc (timeline_layers d) (layer_clips d) (clip_layer d) (clip_children d) x
      (clip_name d) (child_props d) (gobject_props d) (elem_active d)
      (control_points d) (commits d) (next_elem d) (auto_updates d) (info d).
Definition set_clip_name (x : gmap clip_id string) (d : doc) : doc :=
  Doc (timeline_layers d) (layer_clips d) (clip_layer d) (clip_children d)
      (layer_priority d) x (child_props d) (gobject_props d) (elem_active d)
      (control_points d) (commits d) (next_elem d) (auto_updates d) (info d).
Definition set_child_props (x : gmap (elem_id * string) gvalue) (d : doc) : doc :=
  Doc (timeline_layers d) (layer_clips d) (clip_layer d) (clip_children d)
      (layer_priority d) (clip_name d) x (gobject_props d) (elem_active d)
      (control_points d) (commits d) (next_elem d) (auto_updates d) (info d).
Definition set_gobject_props (x : gmap (elem_id * string) gvalue) (d : doc) : doc :=
  Doc (timeline_layers d) (layer_clips d) (clip_layer d) (clip_children d)
      (layer_priority d) (clip_name d) (child_props d) x (elem_active d)
      (control_points d) (commits d) (next_elem d) (auto_updates d) (info d).
Definition set_elem_active (x : gmap elem_id bool) (d : doc) : doc :=
  Doc (timeline_layers d) (layer_clips d) (clip_layer d) (clip_children d)
      (layer_priority d) (clip_name d) (child_props d) (gobject_props d) x
      (control_points d) (commits d) (next_elem d) (auto_updates d) (info d).
Definition set_control_points (x : gmap cs_id (gmap Z gvalue)) (d : doc) : doc :=
  Doc (timeline_layers d) (layer_clips d) (clip_layer d) (clip_children d)
      (layer_priority d) (clip_name d) (child_props d) (gobject_props d)
      (elem_active d) x (commits d) (next_elem d) (auto_updates d) (info d).
Definition set_commits (x : nat) (d : doc) : doc :=
  Doc (timeline_layers d) (layer_clips d) (clip_layer d) (clip_children d)
      (layer_priority d) (clip_name d) (child_props d) (gobject_props d)
      (elem_active d) (control_points d) x (next_elem d) (auto_updates d) (info d).
Definition set_next_elem (x : elem_id) (d : doc) : doc :=
  Doc (timeline_layers d) (layer_clips d) (clip_layer d) (clip_children d)
      (layer_priority d) (clip_name d) (child_props d) (gobject_props d)
      (elem_active d) (control_points d) (commits d) x (auto_updates d) (info d).
Definition set_auto_updates (x : list (elem_id * elem_id)) (d : doc) : doc :=
  Doc (timeline_layers d) (layer_clips d) (clip_layer d) (clip_children d)
      (layer_priority d) (clip_name d) (child_props d) (gobject_props d)
      (elem_active d) (control_points d) (commits d) (next_elem d) x (info d).

(** *** The GES and GStreamer operations the module calls

    These belong to the libraries, not to Pitivi; they are modelled after
    their documented behaviour, which reports a failed operation with a
    [False] return value the callers here ignore. *)

(** [layer.get_clips()], [clip.get_children(True)] *)
Definition get_clips (l : layer_id) (d : doc) : list clip_id :=
  default [] (layer_clips d !! l).
Definition get_children (c : clip_id) (d : doc) : list elem_id :=
  default [] (clip_children d !! c).

(** [pipeline.commit_timeline()] *)
Definition commit_timeline : M doc unit :=
  modify (λ d, set_commits (S (commits d)) d).

(** [timeline.add_layer(layer)], [timeline.remove_layer(layer)] *)
Definition add_layer (l : layer_id) : M doc unit :=
  modify (λ d, if decide (l ∈ timeline_layers d) then d
               else set_timeline_layers (timeline_layers d ++ [l]) d).
Definition remove_layer (l : layer_id) : M doc unit :=
  modify (λ d, set_timeline_layers (filter (λ x, x ≠ l) (timeline_layers d)) d).

(** [layer.get_timeline()]: [None] when the layer is in no timeline. *)
Definition get_timeline (l : layer_id) (d : doc) : option unit :=
  if decide (l ∈ timeline_layers d) then Some tt else None.

(** [layer.get_timeline().get_asset().pipeline.commit_timeline()]: reaching
    through a [None] timeline raises. *)
Definition commit_timeline_of_layer (l : layer_id) : M doc unit :=
  tl <- gets (get_timeline l);;
  match tl with
  | Some _ => commit_timeline
  | None => raise AttributeError
  end.

(** [layer.add_clip(clip)]: refused for a clip that already has a layer. *)
Definition add_clip (l : layer_id) (c : clip_id) : M doc unit :=
  modify (λ d, match clip_layer d !! c with
               | Some _ => d
               | None => set_clip_layer (<[c := l]> (clip_layer d))
                           (set_layer_clips (<[l := get_clips l d ++ [c]]> (layer_clips d)) d)
               end).
(** [layer.remove_clip(clip)]: refused for a clip of another layer. *)
Definition remove_clip (l : layer_id) (c : clip_id) : M doc unit :=
  modify (λ d, if decide (clip_layer d !! c = Some l)
               then set_clip_layer (delete c (clip_layer d))
                      (set_layer_clips
                         (<[l := filter (λ x, x ≠ c) (get_clips l d)]> (layer_clips d)) d)
               else d).

(** [clip.set_name(None)]: GES generates a name again. *)
Definition set_name_None (c : clip_id) : M doc unit :=
  modify (λ d, set_clip_name (delete c (clip_name d)) d).

(** [clip.add_asset(asset)]: a new track element becomes a child of the clip. *)
Definition add_asset (c : clip_id) : M doc elem_id :=
  λ d, let e := next_elem d in
       Ok (e, set_next_elem (Pos.succ e)
                (set_clip_children (<[c := get_children c d ++ [e]]> (clip_children d)) d)).
(** [clip.remove(track_element)] *)
Definition clip_remove (c : clip_id) (e : elem_id) : M doc unit :=
  modify (λ d, set_clip_children
                 (<[c := filter (λ x, x ≠ e) (get_children c d)]> (clip_children d)) d).

(** [element.set_child_property(name, value)]: only an existing child
    property is written. *)
Definition set_child_property (e : elem_id) (name : string) (v : gvalue) : M doc unit :=
  modify (λ d, match child_props d !! (e, name) with
               | Some _ => set_child_props (<[(e, name) := v]> (child_props d)) d
               | None => d
               end).
(** [element.get_child_property(name)]: the pair [(res, value)]. *)
Definition get_child_property (e : elem_id) (name : string) (d : doc) : option gvalue :=
  child_props d !! (e, name).

(** [element.set_property(name, value)], [element.get_property(name)] *)
Definition set_property (e : elem_id) (name : string) (v : gvalue) : M doc unit :=
  modify (λ d, set_gobject_props (<[(e, name) := v]> (gobject_props d)) d).

(** [layer.props.priority = p] *)
Definition set_priority (l : layer_id) (p : Z) : M doc unit :=
  modify (λ d, set_layer_priority (<[l := p]> (layer_priority d)) d).
Definition get_priority (l : layer_id) (d : doc) : Z :=
  default 0 (layer_priority d !! l).

(** [track_element.active = b] *)
Definition set_active (e : elem_id) (b : bool) : M doc unit :=
  modify (λ d, set_elem_active (<[e := b]> (elem_active d)) d).

(** [control_source.set(timestamp, value)], [control_source.unset(timestamp)],
    [control_source.get_all()] *)
Definition get_all (cs : cs_id) (d : doc) : gmap Z gvalue :=
  default ∅ (control_points d !! cs).
Definition cs_set (cs : cs_id) (t : Z) (v : gvalue) : M doc unit :=
  modify (λ d, set_control_points (<[cs := <[t := v]> (get_all cs d)]> (control_points d)) d).
Definition cs_unset (cs : cs_id) (t : Z) : M doc unit :=
  modify (λ d, set_control_points (<[cs := delete t (get_all cs d)]> (control_points d)) d).

(** [element.get_control_binding(name)] *)
Definition get_control_binding (e : elem_id) (name : string) (d : doc) : option binding :=
  snd <$> find (λ kb, bool_decide (fst kb = name)) (elem_bindings (info d) e).

(** Modelled from the spec: [UndoableAutomaticObjectAction.update_object] of
    [pitivi/undo/undo.py], which is not among the sources.  The action that
    referred to an automatically created object is told which live object now
    stands for it; the replacement is recorded and the document is not
    touched. *)
Definition update_object (old new : elem_id) : M doc unit :=
  modify (λ d, set_auto_updates (auto_updates d ++ [(old, new)]) d).

(** [clip.get_name()] *)
Definition get_name (c : clip_id) (d : doc) : string :=
  default (clip_generated_name (info d) c) (clip_name d !! c).

(** ** The undoable actions *)

(** [TrackElementAction]: the state shared by [EffectAddedAction] and
    [EffectRemovedAction]; [tea_track_element] is [None] after [remove]. *)
Record TrackElementAction := {
  tea_clip : clip_id;
  tea_track_element : option elem_id;
  tea_asset : positive;
  tea_track_element_props : list (string * gvalue) }.

(** [TransitionClipAction]: [start] and [duration] are captured from the
    transition clip when the action is built. *)
Record TransitionClipAction := {
  (** [None] when the action was built from a clip whose [props.layer] was [None] *)
  tca_ges_layer : option layer_id;
  tca_start : Z;
  tca_duration : Z;
  tca_track_element : elem_id }.

Record TransitionClipRemoved := {
  tcr_base : TransitionClipAction;
  tcr_properties : list (string * gvalue) }.

Record ClipRemovedAction := {
  cr_layer : layer_id;
  cr_clip : clip_id;
  cr_transition_removed_actions : list TransitionClipRemoved }.

(** The timeline of [LayerAdded] and [LayerRemoved] is the one timeline of
    the document and is not carried. *)
Inductive action :=
| TrackElementPropertyChanged
    (track_element : elem_id) (property_name : string) (old_value new_value : gvalue)
| EffectAddedAction (a : TrackElementAction)
| EffectRemovedAction (a : TrackElementAction)
| ClipAdded (layer : layer_id) (clip : clip_id)
| ClipRemoved (a : ClipRemovedAction)
| TransitionClipAddedAction (a : TransitionClipAction)
| TransitionClipRemovedAction (a : TransitionClipRemoved)
| LayerAdded (ges_layer : layer_id)
| LayerRemoved (ges_layer : layer_id)
| LayerMoved (ges_layer : layer_id) (old_priority priority : Z)
| KeyframeAddedAction (cs : cs_id) (kf : keyframe) (action_info : list (string * string))
| KeyframeRemovedAction (cs : cs_id) (kf : keyframe) (action_info : list (string * string))
| KeyframeChangedAction (cs : cs_id) (old_snapshot new_snapshot : Z * gvalue)
| ActivePropertyChanged (effect_action : TrackElementAction) (active : bool)
| ControlSourceSetAction (action_info : list (string * string)).

(** [TrackElementAction.add] *)
Definition TrackElementAction_add (self : TrackElementAction) : M doc TrackElementAction :=
  e <- add_asset (tea_clip self);;
  for_each (tea_track_element_props self)
           (λ pv, set_child_property e (fst pv) (snd pv));;;
  ret {| tea_clip := tea_clip self; tea_track_element := Some e;
         tea_asset := tea_asset self;
         tea_track_element_props := tea_track_element_props self |}.

(** [TrackElementAction.remove]; [clip.remove(None)] is a [TypeError]. *)
Definition TrackElementAction_remove (self : TrackElementAction) : M doc TrackElementAction :=
  match tea_track_element self with
  | None => raise TypeError
  | Some e =>
      clip_remove (tea_clip self) e;;;
      ret {| tea_clip := tea_clip self; tea_track_element := None;
             tea_asset := tea_asset self;
             tea_track_element_props := tea_track_element_props self |}
  end.

(** [TransitionClipAction.get_video_element] *)
Definition get_video_element (c : clip_id) (d : doc) : option elem_id :=
  List.find (λ e, is_VideoTransition (elem_class_of (info d) e)) (get_children c d).

(** The loop of [TransitionClipAction.find_video_transition] over
    [ges_layer.get_clips()]; falling off the end returns [None]. *)
Fixpoint scan_video_transition (d : doc) (start duration : Z) (clips : list clip_id)
  : option elem_id :=
  match clips with
  | [] => None
  | ges_clip :: rest =>
      if is_TransitionClip (clip_class_of (info d) ges_clip)
         && (clip_start (info d) ges_clip =? start)
         && (clip_duration (info d) ges_clip =? duration)
      then match get_video_element ges_clip d with
           | None => scan_video_transition d start duration rest
           | Some track_element => Some track_element
           end
      else scan_video_transition d start duration rest
  end.

Definition find_video_transition (self : TransitionClipAction) : M doc (option elem_id) :=
  match tca_ges_layer self with
  | None => raise AttributeError
  | Some ges_layer =>
      gets (λ d, scan_video_transition d (tca_start self) (tca_duration self)
                                       (get_clips ges_layer d))
  end.

(** [TransitionClipAddedAction.do] *)
Definition TransitionClipAddedAction_do (self : TransitionClipAction) : M doc unit :=
  track_element <- find_video_transition self;;
  match track_element with
  | None => raise AssertionError
  | Some track_element => update_object (tca_track_element self) track_element
  end.

(** [TransitionClipRemovedAction.undo]: the same scan, written out in the
    source, which stops at the first video transition found. *)
Definition TransitionClipRemovedAction_undo (self : TransitionClipRemoved) : M doc unit :=
  found <- find_video_transition (tcr_base self);;
  match found with
  | None => ret tt
  | Some track_element =>
      update_object (tca_track_element (tcr_base self)) track_element;;;
      for_each (tcr_properties self)
               (λ pv, set_property track_element (fst pv) (snd pv))
  end.

(** [ActivePropertyChanged.do] and [.undo] have the same body. *)
Definition ActivePropertyChanged_flip (effect_action : TrackElementAction) (active : bool)
  : M doc action :=
  match tea_track_element effect_action with
  | None => raise AttributeError
  | Some e =>
      set_active e active;;;
      ret (ActivePropertyChanged effect_action (negb active))
  end.

(** [action.do()]; the result is the action object after the call. *)
Definition do (a : action) : M doc action :=
  match a with
  | TrackElementPropertyChanged e name _ new_value =>
      set_child_property e name new_value;;; ret a
  | EffectAddedAction t =>
      t' <- TrackElementAction_add t;; ret (EffectAddedAction t')
  | EffectRemovedAction t =>
      t' <- TrackElementAction_remove t;; ret (EffectRemovedAction t')
  | ClipAdded layer clip =>
      set_name_None clip;;;
      add_clip layer clip;;;
      commit_timeline_of_layer layer;;;
      ret a
  | ClipRemoved r =>
      remove_clip (cr_layer r) (cr_clip r);;;
      commit_timeline_of_layer (cr_layer r);;;
      ret a
  | TransitionClipAddedAction t =>
      TransitionClipAddedAction_do t;;; ret a
  | TransitionClipRemovedAction _ => ret a
  | LayerAdded l => add_layer l;;; ret a
  | LayerRemoved l => remove_layer l;;; commit_timeline;;; ret a
  | LayerMoved l _ priority => set_priority l priority;;; ret a
  | KeyframeAddedAction cs kf _ => cs_set cs (timestamp kf) (value kf);;; ret a
  | KeyframeRemovedAction cs kf _ => cs_unset cs (timestamp kf);;; ret a
  | KeyframeChangedAction cs _ new_snapshot =>
      cs_set cs (fst new_snapshot) (snd new_snapshot);;; ret a
  | ActivePropertyChanged t active => ActivePropertyChanged_flip t active
  | ControlSourceSetAction _ => ret a
  end.

(** [action.undo()] *)
Definition undo (a : action) : M doc action :=
  match a with
  | TrackElementPropertyChanged e name old_value _ =>
      set_child_property e name old_value;;; ret a
  | EffectAddedAction t =>
      t' <- TrackElementAction_remove t;; ret (EffectAddedAction t')
  | EffectRemovedAction t =>
      t' <- TrackElementAction_add t;; ret (EffectRemovedAction t')
  | ClipAdded layer clip =>
      remove_clip layer clip;;;
      commit_timeline_of_layer layer;;;
      ret a
  | ClipRemoved r =>
      set_name_None (cr_clip r);;;
      add_clip (cr_layer r) (cr_clip r);;;
      commit_timeline_of_layer (cr_layer r);;;
      for_each (cr_transition_removed_actions r) TransitionClipRemovedAction_undo;;;
      ret a
  | TransitionClipAddedAction _ => ret a
  | TransitionClipRemovedAction t => TransitionClipRemovedAction_undo t;;; ret a
  | LayerAdded l => remove_layer l;;; commit_timeline;;; ret a
  | LayerRemoved l => add_layer l;;; ret a
  | LayerMoved l old_priority _ => set_priority l old_priority;;; ret a
  | KeyframeAddedAction cs kf _ => cs_unset cs (timestamp kf);;; ret a
  | KeyframeRemovedAction cs kf _ => cs_set cs (timestamp kf) (value kf);;; ret a
  | KeyframeChangedAction cs old_snapshot _ =>
      cs_set cs (fst old_snapshot) (snd old_snapshot);;; ret a
  | ActivePropertyChanged t active => ActivePropertyChanged_flip t active
  | ControlSourceSetAction _ => ret a
  end.

(** [ActivePropertyChanged.__init__(effect_action, active)] *)
Definition ActivePropertyChanged_init (effect_action : TrackElementAction) (active : bool)
  : action :=
  ActivePropertyChanged effect_action (negb active).

(** [ClipRemoved.expand(action)]: the answer and the action afterwards. *)
Definition expand (self : ClipRemovedAction) (candidate : action)
  : bool * ClipRemovedAction :=
  match candidate with
  | TransitionClipRemovedAction t =>
      (true, {| cr_layer := cr_layer self; cr_clip := cr_clip self;
                cr_transition_removed_actions :=
                  cr_transition_removed_actions self ++ [t] |})
  | _ => (false, self)
  end.

(** *** Scripted-edit records *)

(** A [Gst.Structure]: its name and its fields in insertion order. *)
Record gst_structure := GstStructure {
  structure_name : string;
  structure_fields : list (string * gvalue) }.

Definition new_empty (name : string) : gst_structure := GstStructure name [].

Fixpoint assoc_set (k : string) (v : gvalue) (l : list (string * gvalue))
  : list (string * gvalue) :=
  match l with
  | [] => [(k, v)]
  | (k', v') :: r => if String.eqb k' k then (k, v) :: r else (k', v') :: assoc_set k v r
  end.

(** [st.set_value(k, v)] *)
Definition set_value (k : string) (v : gvalue) (st : gst_structure) : gst_structure :=
  GstStructure (structure_name st) (assoc_set k v (structure_fields st)).

Definition get_value (k : string) (st : gst_structure) : option gvalue :=
  snd <$> List.find (λ kv, String.eqb (fst kv) k) (structure_fields st).

(** [hasattr(layer, "splitting_object") and layer.splitting_object is True] *)
Definition is_splitting (layer : layer_id) (d : doc) : bool :=
  match layer_splitting_object (info d) layer with
  | Some (PyBool true) => true
  | _ => false
  end.

(** [hasattr(timeline, "ui") and timeline.ui and
    timeline.ui.editing_context is not None], for [timeline =
    layer.get_timeline()], which may be [None]. *)
Definition is_editing (layer : layer_id) (d : doc) : bool :=
  match get_timeline layer d with
  | None => false
  | Some _ =>
      match timeline_ui_attr (info d) with
      | Some (Some ui) =>
          match editing_context ui with Some _ => true | None => false end
      | _ => false
      end
  end.

(** [float(t / Gst.SECOND)] *)
Definition seconds (t : Z) : float := py_truediv t Gst_SECOND.

(** [ClipAdded.asScenarioAction] *)
Definition ClipAdded_asScenarioAction (layer : layer_id) (clip : clip_id) (d : doc)
  : option gst_structure :=
  if is_splitting layer d then None
  else if is_editing layer d then None
  else
    let st := new_empty "add-clip" in
    let st := set_value "name" (GString (get_name clip d)) st in
    let st := set_value "layer-priority" (GInt (get_priority layer d)) st in
    let st := set_value "asset-id" (GString (clip_asset_id (info d) clip)) st in
    let st := set_value "type" (GString (clip_type_name (info d) clip)) st in
    let st := set_value "start" (GDouble (seconds (clip_start (info d) clip))) st in
    let st := set_value "inpoint" (GDouble (seconds (clip_in_point (info d) clip))) st in
    let st := set_value "duration" (GDouble (seconds (clip_duration (info d) clip))) st in
    Some st.

(** ** The observers

    The world the observers live in: the document, the actions pushed on the
    action log so far, and the signal handlers connected to the GObjects.  A
    handler is a bound method, that is an observer instance and the name of
    one of its callbacks. *)

Inductive gobject :=
| OTimeline
| OLayer (l : layer_id)
| OClip (c : clip_id)
| OElem (e : elem_id)
| OControlSource (cs : cs_id).

#[global] Instance gobject_eq_dec : EqDecision gobject.
Proof. solve_decision. Defined.

Record handler := Handler {
  h_object : gobject;
  h_signal : string;
  h_observer : observer_id;
  h_callback : string }.

Record world := World {
  w_doc : doc;
  w_log : list action;
  w_handlers : list handler;
  w_next_observer : observer_id }.

(** Modelled from the spec: [UndoableActionLog.push] of
    [pitivi/undo/undo.py], which is not among the sources.  The log is the
    ordered, append-only list of the actions pushed to it. *)
Definition push (a : action) : M world unit :=
  modify (λ w, World (w_doc w) (w_log w ++ [a]) (w_handlers w) (w_next_observer w)).

(** Creating a Python object gives it a new identity. *)
Definition new_observer : M world observer_id :=
  λ w, Ok (w_next_observer w,
           World (w_doc w) (w_log w) (w_handlers w) (Pos.succ (w_next_observer w))).

(** [obj.connect(signal, self.callback)] *)
Definition connect (o : gobject) (signal : string) (self : observer_id) (callback : string)
  : M world unit :=
  modify (λ w, World (w_doc w) (w_log w)
                     (w_handlers w ++ [Handler o signal self callback])
                     (w_next_observer w)).

Definition bound_to (o : gobject) (self : observer_id) (callback : string) (h : handler)
  : bool :=
  bool_decide (h_object h = o) && Pos.eqb (h_observer h) self
  && String.eqb (h_callback h) callback.

(** [obj.disconnect_by_func(self.callback)]: PyGObject raises [TypeError]
    when nothing is connected to the bound method. *)
Definition disconnect_by_func (o : gobject) (self : observer_id) (callback : string)
  : M world unit :=
  λ w, if existsb (bound_to o self callback) (w_handlers w)
       then Ok (tt, World (w_doc w) (w_log w)
                          (List.filter (λ h, negb (bound_to o self callback h)) (w_handlers w))
                          (w_next_observer w))
       else Raise TypeError.

(** [for x in l: self = body(self, x)] *)
Fixpoint fold_each {S A B} (l : list A) (body : B → A → M S B) (b : B) : M S B :=
  match l with
  | [] => ret b
  | x :: l' => b' <- body b x;; fold_each l' body b'
  end.

(** *** GObjectObserver *)

Record GObjectObserver := {
  goo_id : observer_id;
  goo_gobject : option gobject;
  goo_property_names : list string;
  goo_properties : list (string * option gvalue) }.

(** [gobject.get_property(name)] for the properties the observers ask for. *)
Definition get_property (o : gobject) (name : string) (d : doc) : option gvalue :=
  match o with
  | OElem e => gobject_props d !! (e, name)
  | OClip c =>
      if String.eqb name "start" then Some (GInt (clip_start (info d) c))
      else if String.eqb name "duration" then Some (GInt (clip_duration (info d) c))
      else if String.eqb name "in-point" then Some (GInt (clip_in_point (info d) c))
      else None
  | OLayer l => if String.eqb name "priority" then GInt <$> layer_priority d !! l else None
  | _ => None
  end.

(** Modelled from the spec: [GObjectObserver] of [pitivi/undo/undo.py], which
    is not among the sources: a property observer scoped to a fixed list of
    properties.  On construction it snapshots them and subscribes to their
    change notifications; it pushes nothing.  Releasing it unsubscribes. *)
Definition GObjectObserver_init (o : gobject) (property_names : list string)
  : M world GObjectObserver :=
  self <- new_observer;;
  d <- gets w_doc;;
  for_each property_names
    (λ name, connect o (String.append "notify::" name) self "_property_changed_cb");;;
  ret {| goo_id := self; goo_gobject := Some o; goo_property_names := property_names;
         goo_properties := map (λ name, (name, get_property o name d)) property_names |}.

Definition GObjectObserver_release (self : GObjectObserver) : M world GObjectObserver :=
  match goo_gobject self with
  | None => raise AttributeError
  | Some o =>
      disconnect_by_func o (goo_id self) "_property_changed_cb";;;
      ret {| goo_id := goo_id self; goo_gobject := None;
             goo_property_names := goo_property_names self;
             goo_properties := goo_properties self |}
  end.

(** *** ControlSourceObserver *)

Record ControlSourceObserver := {
  cso_id : observer_id;
  cso_action_info : list (string * string);
  cso_control_source : option cs_id;
  (** [self.keyframes]: timestamp to [(timestamp, value)] *)
  cso_keyframes : gmap Z (Z * gvalue) }.

Definition cso_set_keyframes (k : gmap Z (Z * gvalue)) (self : ControlSourceObserver)
  : ControlSourceObserver :=
  {| cso_id := cso_id self; cso_action_info := cso_action_info self;
     cso_control_source := cso_control_source self; cso_keyframes := k |}.

(** [ControlSourceObserver.__init__] *)
Definition ControlSourceObserver_init (control_source : cs_id)
    (action_info : list (string * string)) : M world ControlSourceObserver :=
  self <- new_observer;;
  d <- gets w_doc;;
  connect (OControlSource control_source) "value-added" self "_keyframe_added_cb";;;
  connect (OControlSource control_source) "value-changed" self "_keyframe_moved_cb";;;
  connect (OControlSource control_source) "value-removed" self "_keyframe_removed_cb";;;
  ret {| cso_id := self; cso_action_info := action_info;
         cso_control_source := Some control_source;
         cso_keyframes := map_imap (λ t v, Some (t, v)) (get_all control_source d) |}.

(** [ControlSourceObserver.release] *)
Definition ControlSourceObserver_release (self : ControlSourceObserver)
  : M world ControlSourceObserver :=
  match cso_control_source self with
  | None => raise AttributeError
  | Some control_source =>
      disconnect_by_func (OControlSource control_source) (cso_id self) "_keyframe_added_cb";;;
      disconnect_by_func (OControlSource control_source) (cso_id self) "_keyframe_moved_cb";;;
      disconnect_by_func (OControlSource control_source) (cso_id self) "_keyframe_removed_cb";;;
      ret {| cso_id := cso_id self; cso_action_info := cso_action_info self;
             cso_control_source := None; cso_keyframes := cso_keyframes self |}
  end.

(** [ControlSourceObserver._keyframe_added_cb] *)
Definition keyframe_added_cb (self : ControlSourceObserver) (control_source : cs_id)
    (kf : keyframe) : M world ControlSourceObserver :=
  let self := cso_set_keyframes
                (<[timestamp kf := (timestamp kf, value kf)]> (cso_keyframes self)) self in
  push (KeyframeAddedAction control_source kf (cso_action_info self));;;
  ret self.

(** [ControlSourceObserver._keyframe_moved_cb]; [self.keyframes[t]] raises
    [KeyError] for an unknown timestamp. *)
Definition keyframe_moved_cb (self : ControlSourceObserver) (control_source : cs_id)
    (kf : keyframe) : M world ControlSourceObserver :=
  match cso_keyframes self !! timestamp kf with
  | None => raise KeyError
  | Some old_snapshot =>
      let new_snapshot := (timestamp kf, value kf) in
      let self := cso_set_keyframes
                    (<[timestamp kf := new_snapshot]> (cso_keyframes self)) self in
      push (KeyframeChangedAction control_source old_snapshot new_snapshot);;;
      ret self
  end.

(** [ControlSourceObserver._keyframe_removed_cb]; [del self.keyframes[t]]
    raises [KeyError] for an unknown timestamp. *)
Definition keyframe_removed_cb (self : ControlSourceObserver) (control_source : cs_id)
    (kf : keyframe) : M world ControlSourceObserver :=
  match cso_keyframes self !! timestamp kf with
  | None => raise KeyError
  | Some _ =>
      let self := cso_set_keyframes (delete (timestamp kf) (cso_keyframes self)) self in
      push (KeyframeRemovedAction control_source kf (cso_action_info self));;;
      ret self
  end.

Section Observers.

(** [PROPS_TO_IGNORE] is imported from [pitivi.effects], which is not among
    the sources; the observers are defined for any such list. *)
Variable PROPS_TO_IGNORE : list string.

Definition ignored (name : string) : bool :=
  existsb (String.eqb name) PROPS_TO_IGNORE.

(** *** TimelineElementObserver *)

Record TimelineElementObserver := {
  teo_id : observer_id;
  teo_ges_timeline_element : option elem_id;
  (** [self._properties] *)
  teo_properties : gmap string gvalue }.

(** [TimelineElementObserver.__init__] *)
Definition TimelineElementObserver_init (ges_timeline_element : elem_id)
  : M world TimelineElementObserver :=
  self <- new_observer;;
  d <- gets w_doc;;
  properties <-
    fold_each (elem_pspecs (info d) ges_timeline_element)
      (λ properties prop,
         if ignored (pspec_name prop) then ret properties
         else
           let prop_name := child_property_name prop in
           match get_child_property ges_timeline_element prop_name d with
           | None => raise AssertionError
           | Some v => ret (<[prop_name := v]> properties)
           end)
      ∅;;
  connect (OElem ges_timeline_element) "deep-notify" self "_property_changed_cb";;;
  ret {| teo_id := self; teo_ges_timeline_element := Some ges_timeline_element;
         teo_properties := properties |}.

(** [TimelineElementObserver.release] *)
Definition TimelineElementObserver_release (self : TimelineElementObserver)
  : M world TimelineElementObserver :=
  match teo_ges_timeline_element self with
  | None => raise AttributeError
  | Some e =>
      disconnect_by_func (OElem e) (teo_id self) "_property_changed_cb";;;
      ret {| teo_id := teo_id self; teo_ges_timeline_element := None;
             teo_properties := teo_properties self |}
  end.

(** [TimelineElementObserver._property_changed_cb] *)
Definition property_changed_cb (self : TimelineElementObserver)
    (ges_timeline_element : elem_id) (prop : pspec) : M world TimelineElementObserver :=
  let prop_name := child_property_name prop in
  if ignored (pspec_name prop) then ret self
  else
    d <- gets w_doc;;
    match get_control_binding ges_timeline_element prop_name d with
    | Some _ => ret self
    | None =>
        match teo_properties self !! prop_name with
        | None => raise KeyError
        | Some old_value =>
            match get_child_property ges_timeline_element prop_name d with
            | None => raise AssertionError
            | Some new_value =>
                let action := TrackElementPropertyChanged
                                ges_timeline_element prop_name old_value new_value in
                let self := {| teo_id := teo_id self;
                               teo_ges_timeline_element := teo_ges_timeline_element self;
                               teo_properties := <[prop_name := new_value]>
                                                   (teo_properties self) |} in
                push action;;;
                ret self
            end
        end
    end.

(** *** LayerObserver *)

(** What [self.track_element_observers] holds. *)
Inductive track_element_observer :=
| TEO (o : TimelineElementObserver)
| GOO (o : GObjectObserver).

Record LayerObserver := {
  lo_id : observer_id;
  lo_priority : Z;
  lo_keyframe_observers : gmap cs_id ControlSourceObserver;
  lo_track_element_observers : gmap elem_id track_element_observer;
  lo_clip_observers : gmap clip_id GObjectObserver }.

Definition lo_set_keyframe_observers (x : gmap cs_id ControlSourceObserver)
    (self : LayerObserver) : LayerObserver :=
  {| lo_id := lo_id self; lo_priority := lo_priority self;
     lo_keyframe_observers := x;
     lo_track_element_observers := lo_track_element_observers self;
     lo_clip_observers := lo_clip_observers self |}.
Definition lo_set_track_element_observers (x : gmap elem_id track_element_observer)
    (self : LayerObserver) : LayerObserver :=
  {| lo_id := lo_id self; lo_priority := lo_priority self;
     lo_keyframe_observers := lo_keyframe_observers self;
     lo_track_element_observers := x;
     lo_clip_observers := lo_clip_observers self |}.
Definition lo_set_clip_observers (x : gmap clip_id GObjectObserver)
    (self : LayerObserver) : LayerObserver :=
  {| lo_id := lo_id self; lo_priority := lo_priority self;
     lo_keyframe_observers := lo_keyframe_observers self;
     lo_track_element_observers := lo_track_element_observers self;
     lo_clip_observers := x |}.
Definition lo_set_priority (x : Z) (self : LayerObserver) : LayerObserver :=
  {| lo_id := lo_id self; lo_priority := x;
     lo_keyframe_observers := lo_keyframe_observers self;
     lo_track_element_observers := lo_track_element_observers self;
     lo_clip_observers := lo_clip_observers self |}.

(** The [action_info] dictionary built for a control binding. *)
Definition make_action_info (track_element : elem_id) (b : binding) (d : doc)
  : list (string * string) :=
  [("element-name", elem_name (info d) track_element);
   ("property-name", binding_name b)].

(** [LayerObserver._connectToControlSource] *)
Definition connectToControlSource (self : LayerObserver) (track_element : elem_id)
    (b : binding) : M world LayerObserver :=
  d <- gets w_doc;;
  observer <- ControlSourceObserver_init (control_source b)
                                         (make_action_info track_element b d);;
  ret (lo_set_keyframe_observers
         (<[control_source b := observer]> (lo_keyframe_observers self)) self).

(** [LayerObserver._disconnectFromControlSource]: [dict.pop(key)] without a
    default raises [KeyError] for a key that is not there. *)
Definition disconnectFromControlSource (self : LayerObserver) (b : binding)
  : M world LayerObserver :=
  match lo_keyframe_observers self !! control_source b with
  | None => raise KeyError
  | Some observer =>
      ControlSourceObserver_release observer;;;
      ret (lo_set_keyframe_observers
             (delete (control_source b) (lo_keyframe_observers self)) self)
  end.

(** [LayerObserver._connectToTrackElement] *)
Definition connectToTrackElement (self : LayerObserver) (track_element : elem_id)
  : M world LayerObserver :=
  d <- gets w_doc;;
  let class := elem_class_of (info d) track_element in
  if is_VideoTransition class then
    let ges_clip := elem_parent (info d) track_element in
    let ges_layer := clip_layer d !! ges_clip in
    push (TransitionClipAddedAction
            {| tca_ges_layer := ges_layer;
               tca_start := clip_start (info d) ges_clip;
               tca_duration := clip_duration (info d) ges_clip;
               tca_track_element := track_element |});;;
    observer <- GObjectObserver_init (OElem track_element) TRANSITION_PROPS;;
    ret (lo_set_track_element_observers
           (<[track_element := GOO observer]> (lo_track_element_observers self)) self)
  else
    self <- fold_each (elem_bindings (info d) track_element)
              (λ self pb, connectToControlSource self track_element (snd pb)) self;;
    connect (OElem track_element) "control-binding-added" (lo_id self)
            "_controlBindingAddedCb";;;
    if is_BaseEffect class || is_VideoSource class then
      observer <- TimelineElementObserver_init track_element;;
      ret (lo_set_track_element_observers
             (<[track_element := TEO observer]> (lo_track_element_observers self)) self)
    else ret self.

(** [observer.release()] for either kind of track element observer. *)
Definition track_element_observer_release (o : track_element_observer) : M world unit :=
  match o with
  | TEO o => TimelineElementObserver_release o;;; ret tt
  | GOO o => GObjectObserver_release o;;; ret tt
  end.

(** [LayerObserver._disconnectFromTrackElement]: here [pop] has the default
    [None]. *)
Definition disconnectFromTrackElement (self : LayerObserver) (track_element : elem_id)
  : M world LayerObserver :=
  d <- gets w_doc;;
  self <- fold_each (elem_bindings (info d) track_element)
            (λ self pb, disconnectFromControlSource self (snd pb)) self;;
  match lo_track_element_observers self !! track_element with
  | None => ret self
  | Some observer =>
      let self := lo_set_track_element_observers
                    (delete track_element (lo_track_element_observers self)) self in
      track_element_observer_release observer;;;
      ret self
  end.

(** [LayerObserver._connectToClip] *)
Definition connectToClip (self : LayerObserver) (ges_clip : clip_id)
  : M world LayerObserver :=
  connect (OClip ges_clip) "child-added" (lo_id self) "_clipTrackElementAddedCb";;;
  connect (OClip ges_clip) "child-removed" (lo_id self) "_clipTrackElementRemovedCb";;;
  d <- gets w_doc;;
  self <- fold_each (get_children ges_clip d) connectToTrackElement self;;
  if is_TransitionClip (clip_class_of (info d) ges_clip) then ret self
  else
    clip_observer <- GObjectObserver_init (OClip ges_clip)
                       ["start"; "duration"; "in-point"; "priority"];;
    ret (lo_set_clip_observers (<[ges_clip := clip_observer]> (lo_clip_observers self)) self).

(** [LayerObserver._disconnectFromClip] *)
Definition disconnectFromClip (self : LayerObserver) (ges_clip : clip_id)
  : M world LayerObserver :=
  disconnect_by_func (OClip ges_clip) (lo_id self) "_clipTrackElementAddedCb";;;
  disconnect_by_func (OClip ges_clip) (lo_id self) "_clipTrackElementRemovedCb";;;
  d <- gets w_doc;;
  self <- fold_each (get_children ges_clip d) disconnectFromTrackElement self;;
  if is_TransitionClip (clip_class_of (info d) ges_clip) then ret self
  else
    match lo_clip_observers self !! ges_clip with
    | None => raise KeyError
    | Some clip_observer =>
        let self := lo_set_clip_observers (delete ges_clip (lo_clip_observers self)) self in
        GObjectObserver_release clip_observer;;;
        ret self
    end.

(** Modelled from the spec: [MetaContainerObserver.__init__] of
    [pitivi/undo/undo.py], which is not among the sources.  The spec gives a
    layer observer no shadow state besides its priority and no action of its
    own at construction, so the base constructor pushes nothing. *)
Definition MetaContainerObserver_init (ges_layer : layer_id) : M world unit := ret tt.

(** [LayerObserver.__init__] *)
Definition LayerObserver_init (ges_layer : layer_id) : M world LayerObserver :=
  self <- new_observer;;
  MetaContainerObserver_init ges_layer;;;
  d <- gets w_doc;;
  connect (OLayer ges_layer) "clip-added" self "_clipAddedCb";;;
  connect (OLayer ges_layer) "clip-removed" self "_clipRemovedCb";;;
  connect (OLayer ges_layer) "notify::priority" self "__layer_moved_cb";;;
  fold_each (get_clips ges_layer d) connectToClip
    {| lo_id := self; lo_priority := get_priority ges_layer d;
       lo_keyframe_observers := ∅; lo_track_element_observers := ∅;
       lo_clip_observers := ∅ |}.

(** [LayerObserver._clipAddedCb] *)
Definition clipAddedCb (self : LayerObserver) (layer : layer_id) (clip : clip_id)
  : M world LayerObserver :=
  self <- connectToClip self clip;;
  d <- gets w_doc;;
  if is_TransitionClip (clip_class_of (info d) clip) then ret self
  else push (ClipAdded layer clip);;; ret self.

(** [TransitionClipRemovedAction.new], with the property capture of
    [__init__]: one [(name, value)] pair per name of [TRANSITION_PROPS], read
    from the video transition (which has all three). *)
Definition TransitionClipRemovedAction_new (ges_layer : layer_id) (ges_clip : clip_id)
    (d : doc) : option TransitionClipRemoved :=
  match get_video_element ges_clip d with
  | None => None
  | Some track_element =>
      Some {| tcr_base := {| tca_ges_layer := Some ges_layer;
                             tca_start := clip_start (info d) ges_clip;
                             tca_duration := clip_duration (info d) ges_clip;
                             tca_track_element := track_element |};
              tcr_properties :=
                omap (λ name, pair name <$> gobject_props d !! (track_element, name))
                     TRANSITION_PROPS |}
  end.

(** [LayerObserver._clipRemovedCb] *)
Definition clipRemovedCb (self : LayerObserver) (layer : layer_id) (clip : clip_id)
  : M world LayerObserver :=
  self <- disconnectFromClip self clip;;
  d <- gets w_doc;;
  if is_TransitionClip (clip_class_of (info d) clip) then
    match TransitionClipRemovedAction_new layer clip d with
    | Some action => push (TransitionClipRemovedAction action);;; ret self
    | None => ret self
    end
  else
    push (ClipRemoved {| cr_layer := layer; cr_clip := clip;
                         cr_transition_removed_actions := [] |});;;
    ret self.

(** [LayerObserver.__layer_moved_cb] *)
Definition layer_moved_cb (self : LayerObserver) (ges_layer : layer_id)
  : M world LayerObserver :=
  d <- gets w_doc;;
  let current := get_priority ges_layer d in
  push (LayerMoved ges_layer (lo_priority self) current);;;
  ret (lo_set_priority current self).

(** [LayerObserver._trackElementActiveChangedCb] *)
Definition trackElementActiveChangedCb (self : LayerObserver) (active : bool)
    (add_effect_action : TrackElementAction) : M world LayerObserver :=
  push (ActivePropertyChanged_init add_effect_action active);;;
  ret self.

(** *** TimelineObserver *)

Record TimelineObserver := {
  to_id : observer_id;
  to_layer_observers : gmap layer_id LayerObserver }.

(** [TimelineObserver._connect_to_layer] *)
Definition connect_to_layer (self : TimelineObserver) (ges_layer : layer_id)
  : M world TimelineObserver :=
  push (LayerAdded ges_layer);;;
  layer_observer <- LayerObserver_init ges_layer;;
  ret {| to_id := to_id self;
         to_layer_observers := <[ges_layer := layer_observer]> (to_layer_observers self) |}.

(** [TimelineObserver.__init__] *)
Definition TimelineObserver_init : M world TimelineObserver :=
  self <- new_observer;;
  d <- gets w_doc;;
  self <- fold_each (timeline_layers d) connect_to_layer
            {| to_id := self; to_layer_observers := ∅ |};;
  connect OTimeline "layer-added" (to_id self) "__layer_added_cb";;;
  connect OTimeline "layer-removed" (to_id self) "__layer_removed_cb";;;
  ret self.

(** [TimelineObserver.__layer_added_cb] *)
Definition layer_added_cb (self : TimelineObserver) (ges_layer : layer_id)
  : M world TimelineObserver :=
  connect_to_layer self ges_layer.

(** [TimelineObserver.__layer_removed_cb] *)
Definition layer_removed_cb (self : TimelineObserver) (ges_layer : layer_id)
  : M world TimelineObserver :=
  push (LayerRemoved ges_layer);;;
  ret self.

End Observers.

(** * Specification-level definitions *)

(** ** Observable state

    What can be read back from a document: the layers of the timeline, the
    clips of a layer, the children of a clip, child property values,
    keyframes, layer priorities and the [active] flags. *)

Definition get_active (e : elem_id) (d : doc) : bool :=
  default true (elem_active d !! e).

Record obs_eq (d d' : doc) : Prop := {
  obs_layers : timeline_layers d = timeline_layers d';
  obs_clips : ∀ l, get_clips l d = get_clips l d';
  obs_children : ∀ c, get_children c d = get_children c d';
  obs_child_props : ∀ e name, get_child_property e name d = get_child_property e name d';
  obs_keyframes : ∀ cs, get_all cs d = get_all cs d';
  obs_priority : ∀ l, get_priority l d = get_priority l d';
  obs_active : ∀ e, get_active e d = get_active e d' }.




(** A small document to run the code on: one layer with two clips, a
    transition clip with its video and audio elements, an effect with one
    child property and a control source with one keyframe. *)
Definition sample_info : ges_info := {|
  clip_class_of c := match c with 3%positive | 4%positive => TransitionClip | _ => UriClip end;
  clip_start c := match c with 3%positive | 4%positive => 5 | 2%positive => 5 | _ => 0 end;
  clip_duration c := match c with 3%positive | 4%positive => 5 | _ => 10 end;
  clip_in_point _ := 0;
  clip_asset_id _ := "file:///clip.ogv";
  clip_type_name _ := "GESUriClip";
  clip_generated_name _ := "uriclip0";
  elem_class_of e :=
    match e with
    | 1%positive => VideoSource
    | 2%positive => BaseEffect
    | 3%positive => AudioTransition
    | 4%positive => VideoTransition
    | _ => AudioSource
    end;
  elem_name _ := "element0";
  elem_parent e := match e with 3%positive => 3%positive | 4%positive => 4%positive
                           | _ => 1%positive end;
  elem_pspecs e := match e with
                   | 2%positive => [PSpec "GstAgingTv" "scratch-lines" true;
                                    PSpec "GstAgingTv" "name" true]
                   | _ => []
                   end;
  elem_bindings e := match e with
                     | 5%positive => [("volume", Binding "volume" 1%positive)]
                     | _ => []
                     end;
  layer_splitting_object _ := None;
  timeline_ui_attr := Some (Some (TimelineUi None)) |}.

Definition sample_doc : doc := {|
  timeline_layers := [1%positive];
  layer_clips := {[ 1%positive := [1; 2; 3; 4]%positive ]};
  clip_layer := list_to_map [(1, 1); (2, 1); (3, 1); (4, 1)]%positive;
  clip_children := list_to_map [(1, [1; 2; 5]); (3, [3]); (4, [4])]%positive;
  layer_priority := {[ 1%positive := 0 ]};
  clip_name := ∅;
  child_props := list_to_map [((2%positive, "GstAgingTv::scratch-lines"), GInt 7);
                              ((2%positive, "GstAgingTv::name"), GString "agingtv0")];
  gobject_props := list_to_map [((4%positive, "border"), GInt 0);
                                ((4%positive, "invert"), GBool false);
                                ((4%positive, "transition-type"), GInt 1)];
  elem_active := {[ 2%positive := true ]};
  control_points := {[ 1%positive := {[ 5 := GDouble 1%float ]} ]};
  commits := 0;
  next_elem := 6%positive;
  auto_updates := [];
  info := sample_info |}.


(** The clip-removal action with one more absorbed transition removal. *)
Definition absorb (self : ClipRemovedAction) (t : TransitionClipRemoved)
  : ClipRemovedAction :=
  {| cr_layer := cr_layer self; cr_clip := cr_clip self;
     cr_transition_removed_actions := cr_transition_removed_actions self ++ [t] |}.

Definition is_transition_removed (a : action) : bool :=
  match a with TransitionClipRemovedAction _ => true | _ => false end.

(** The number of [commit_timeline] calls [do] and [undo] make, as the code
    has it: removing a layer commits, adding one does not. *)
Definition do_commits (a : action) : nat :=
  match a with
  | ClipAdded _ _ | ClipRemoved _ | LayerRemoved _ => 1
  | _ => 0
  end.
Definition undo_commits (a : action) : nat :=
  match a with
  | ClipAdded _ _ | ClipRemoved _ | LayerAdded _ => 1
  | _ => 0
  end.

(** The actions on the layer and clip structure of the timeline. *)
Definition structural (a : action) : bool :=
  match a with
  | ClipAdded _ _ | ClipRemoved _ | LayerAdded _ | LayerRemoved _ => true
  | _ => false
  end.

(** The layer a clip action reaches the pipeline through is in the timeline,
    and the absorbed transition removals know their layer. *)
Definition attached (a : action) (s : doc) : Prop :=
  match a with
  | ClipAdded layer _ => layer ∈ timeline_layers s
  | ClipRemoved r =>
      cr_layer r ∈ timeline_layers s ∧
      Forall (λ t, is_Some (tca_ges_layer (tcr_base t))) (cr_transition_removed_actions r)
  | _ => True
  end.

(** A computation that, when it returns, has called [commit_timeline] [n]
    times. *)
Definition adds_commits {A} (n : nat) (m : M doc A) : Prop :=
  ∀ s a s', m s = Ok (a, s') → commits s' = (commits s + n)%nat.

(** A computation that always returns and leaves the layers of the timeline
    alone. *)
Definition returns_keeping_layers {A} (m : M doc A) : Prop :=
  ∀ s, ∃ a s', m s = Ok (a, s') ∧ timeline_layers s' = timeline_layers s.

(** A clip of the transition kind with the captured start and duration. *)
Definition matching_transition_clip (d : doc) (start duration : Z) (c : clip_id) : Prop :=
  clip_class_of (info d) c = TransitionClip ∧
  clip_start (info d) c = start ∧
  clip_duration (info d) c = duration.

(** [e] is the video element of the first such clip that has one; the
    matching clips before it have none (audio transitions). *)
Definition first_video_transition (d : doc) (start duration : Z)
    (clips : list clip_id) (e : elem_id) : Prop :=
  ∃ before c after,
    clips = before ++ c :: after ∧
    matching_transition_clip d start duration c ∧
    get_video_element c d = Some e ∧
    ∀ c', c' ∈ before → matching_transition_clip d start duration c' →
          get_video_element c' d = None.

(** No clip of the list is a matching transition clip with a video element. *)
Definition no_video_transition (d : doc) (start duration : Z) (clips : list clip_id)
  : Prop :=
  ∀ c, c ∈ clips → matching_transition_clip d start duration c →
       get_video_element c d = None.

(** An interactive edit is in progress: the layer is being split, or the
    timeline the layer belongs to has a UI with an editing context. *)
Definition in_progress_edit (layer : layer_id) (d : doc) : Prop :=
  layer_splitting_object (info d) layer = Some (PyBool true) ∨
  (layer ∈ timeline_layers d ∧
   ∃ ui ctx, timeline_ui_attr (info d) = Some (Some ui) ∧ editing_context ui = Some ctx).

(** The same sample during a drag: the UI has an editing context. *)
Definition dragging_doc : doc :=
  Doc (timeline_layers sample_doc) (layer_clips sample_doc) (clip_layer sample_doc)
      (clip_children sample_doc) (layer_priority sample_doc) (clip_name sample_doc)
      (child_props sample_doc) (gobject_props sample_doc) (elem_active sample_doc)
      (control_points sample_doc) (commits sample_doc) (next_elem sample_doc)
      (auto_updates sample_doc)
      {| clip_class_of := clip_class_of sample_info;
         clip_start := clip_start sample_info;
         clip_duration := clip_duration sample_info;
         clip_in_point := clip_in_point sample_info;
         clip_asset_id := clip_asset_id sample_info;
         clip_type_name := clip_type_name sample_info;
         clip_generated_name := clip_generated_name sample_info;
         elem_class_of := elem_class_of sample_info;
         elem_name := elem_name sample_info;
         elem_parent := elem_parent sample_info;
         elem_pspecs := elem_pspecs sample_info;
         elem_bindings := elem_bindings sample_info;
         layer_splitting_object := layer_splitting_object sample_info;
         timeline_ui_attr := Some (Some (TimelineUi (Some 1%positive))) |}.

(** The action is a keyframe removal that carries the pair the observer's
    snapshot holds for the timestamp of the notification. *)
Definition carries_snapshot_pair (self : ControlSourceObserver) (kf : keyframe)
    (a : action) : Prop :=
  ∃ cs kf' action_info,
    a = KeyframeRemovedAction cs kf' action_info ∧
    cso_keyframes self !! timestamp kf = Some (timestamp kf', value kf').

(** [w] with one more action on the log. *)
Definition pushed (a : action) (w : world) : world :=
  World (w_doc w) (w_log w ++ [a]) (w_handlers w) (w_next_observer w).

(** A denylist of the kind [pitivi.effects] defines. *)
Definition sample_PROPS_TO_IGNORE : list string :=
  ["name"; "qos"; "silent"; "message"; "parent"].

(** The sample document before anything observes it. *)
Definition sample_world : world := World sample_doc [] [] 1%positive.

(** A layer observer that observes nothing yet. *)
Definition bare_layer_observer : LayerObserver :=
  {| lo_id := 1%positive; lo_priority := 0; lo_keyframe_observers := ∅;
     lo_track_element_observers := ∅; lo_clip_observers := ∅ |}.

(** An observer of control source 1 whose snapshot has one keyframe. *)
Definition sample_cs_observer : ControlSourceObserver :=
  {| cso_id := 1%positive; cso_action_info := [];
     cso_control_source := Some 1%positive;
     cso_keyframes := {[ 5 := (5, GDouble 1%float) ]} |}.

(** An observer of the effect of the sample. *)
Definition sample_effect_observer : TimelineElementObserver :=
  {| teo_id := 1%positive; teo_ges_timeline_element := Some 2%positive;
     teo_properties := {[ "GstAgingTv::scratch-lines" := GInt 3 ]} |}.

(** The handlers a given observer has on a given object. *)
Definition handlers_of (o : gobject) (self : observer_id) (w : world) : list handler :=
  List.filter (λ h, bool_decide (h_object h = o) && Pos.eqb (h_observer h) self)
              (w_handlers w).

(** The document of a world changed by GES. *)
Definition with_doc (f : doc → doc) (w : world) : world :=
  World (f (w_doc w)) (w_log w) (w_handlers w) (w_next_observer w).

(** The layers the LayerAdded actions of a log name, and the clips its
    ClipAdded actions name, in log order. *)
Definition layers_added (log : list action) : list layer_id :=
  omap (λ a, match a with LayerAdded l => Some l | _ => None end) log.
Definition clips_added (log : list action) : list (layer_id * clip_id) :=
  omap (λ a, match a with ClipAdded l c => Some (l, c) | _ => None end) log.

(** Every child property the observers snapshot can be read: the contract
    [assert res] stands for. *)
Definition readable (PROPS_TO_IGNORE : list string) (d : doc) : Prop :=
  ∀ e prop, prop ∈ elem_pspecs (info d) e →
            ignored PROPS_TO_IGNORE (pspec_name prop) = false →
            is_Some (get_child_property e (child_property_name prop) d).

(** From [w] to [w']: the document is the same, no LayerAdded and no
    ClipAdded was pushed, and no handler was disconnected. *)
Definition step (w w' : world) : Prop :=
  w_doc w' = w_doc w ∧
  layers_added (w_log w') = layers_added (w_log w) ∧
  clips_added (w_log w') = clips_added (w_log w) ∧
  (∀ h, h ∈ w_handlers w → h ∈ w_handlers w').

(** On the document [d] the computation returns a result that satisfies [Q]
    after a [step]. *)
Definition steady {A} (d : doc) (m : M world A) (Q : A → Prop) : Prop :=
  ∀ w, w_doc w = d → ∃ a w', m w = Ok (a, w') ∧ step w w' ∧ Q a.

(** The handler that subscribes a layer observer to the children of a clip. *)
Definition clip_subscription (self : observer_id) (c : clip_id) : handler :=
  Handler (OClip c) "child-added" self "_clipTrackElementAddedCb".

(** ** Seconds as floats *)

(** The values of a guint64, the type of the [start], [in-point] and
    [duration] properties of a clip. *)
Definition guint64 (t : Z) : Prop := 0 ≤ t < 2 ^ 64.

(** [f] is the binary64 number nearest to the quotient [a / b] of a
    nonnegative [a] by a positive [b], ties to even.  It is zero for a zero
    quotient.  Otherwise [2^k] scales the quotient into [2^52, 2^53), [r] is
    the integer nearest to the scaled quotient, the even one of two nearest,
    and [f] is the positive number with mantissa [m] and exponent [e], of
    value [m * 2^e = r * 2^(-k)]. *)
Definition nearest_binary64 (a b : Z) (f : float) : Prop :=
  (a = 0 ∧ f = 0%float) ∨
  ∃ (k r : Z) (m : positive) (e : Z),
    let n := a * 2 ^ Z.max k 0 in
    let d := b * 2 ^ Z.max (- k) 0 in
    2 ^ 52 * d ≤ n < 2 ^ 53 * d ∧
    2 * Z.abs (n - r * d) ≤ d ∧
    (2 * Z.abs (n - r * d) = d → Z.even r = true) ∧
    ((r < 2 ^ 53 ∧ Z.pos m = r ∧ e = - k) ∨ (r = 2 ^ 53 ∧ Z.pos m = 2 ^ 52 ∧ e = 1 - k)) ∧
    Prim2SF f = S754_finite false m e.

(** ** Further specification-level definitions *)

(** The snapshot a ControlSourceObserver holds for a control source with the
    keyframes [m]: every timestamp mapped to its [(timestamp, value)] pair. *)
Definition snapshot_of (m : gmap Z gvalue) : gmap Z (Z * gvalue) :=
  map_imap (λ t v, Some (t, v)) m.

(** The observer's snapshot is the one of the control source in [d]. *)
Definition in_sync (self : ControlSourceObserver) (cs : cs_id) (d : doc) : Prop :=
  cso_keyframes self = snapshot_of (get_all cs d).

(** No connected handler belongs to the observer that is created next. *)
Definition fresh_observer (w : world) : Prop :=
  ∀ h, h ∈ w_handlers w → h_observer h ≠ w_next_observer w.

(** The handler [_connectToTrackElement] connects for new control bindings. *)
Definition control_binding_subscription (self : observer_id) (e : elem_id) : handler :=
  Handler (OElem e) "control-binding-added" self "_controlBindingAddedCb".

(** From [w] to [w']: nothing was pushed, the document is the same, and the
    handlers for new control bindings are all still connected. *)
Definition release_step (w w' : world) : Prop :=
  w_log w' = w_log w ∧ w_doc w' = w_doc w ∧
  ∀ h, h ∈ w_handlers w → h_callback h = "_controlBindingAddedCb" → h ∈ w_handlers w'.

(** A computation that makes a [release_step] whenever it returns. *)
Definition releasing {A} (m : M world A) : Prop :=
  ∀ w a w', m w = Ok (a, w') → release_step w w'.

(** [ClipRemoved.asScenarioAction] *)
Definition ClipRemoved_asScenarioAction (self : ClipRemovedAction) (d : doc)
  : option gst_structure :=
  if is_editing (cr_layer self) d then None
  else
    let st := new_empty "remove-clip" in
    let st := set_value "name" (GString (get_name (cr_clip self) d)) st in
    Some st.

(** ** [pitivi/utils/system.py]: power inhibition and file names *)

(** [key in list_] *)
Definition py_in (key : string) (list_ : list string) : bool :=
  existsb (String.eqb key) list_.

(** [list_.remove(key)]: the first occurrence goes. *)
Fixpoint list_remove (key : string) (list_ : list string) : list string :=
  match list_ with
  | [] => []
  | k :: rest => if String.eqb k key then rest else k :: list_remove key rest
  end.

(** [System._isInhibited(list_, key)] *)
Definition isInhibited (list_ : list string) (key : option string) : bool :=
  match key with
  | None => match list_ with [] => false | _ => true end
  | Some key => py_in key list_
  end.

(** [System._inhibit(list_, key)]: the list afterwards and whether
    'update-power-inhibition' was emitted; [assert key is not None]. *)
Definition inhibit (list_ : list string) (key : option string)
  : result (list string * bool) :=
  match key with
  | None => Raise AssertionError
  | Some key =>
      if negb (py_in key list_) then Ok (list_ ++ [key], true) else Ok (list_, false)
  end.

(** [System._uninhibit(list_, key)].  With [key is None] the statement
    [list_ = []] rebinds the local name: the list of the caller, which is
    what the result stands for, is not changed. *)
Definition uninhibit (list_ : list string) (key : option string) : list string * bool :=
  match key with
  | None => if isInhibited list_ None then (list_, true) else (list_, false)
  | Some key =>
      if py_in key list_ then (list_remove key list_, true) else (list_, false)
  end.

(** The state of a [System]: the two key lists. *)
Record System := {
  screensaver_keys : list string;
  sleep_keys : list string }.

(** [System._reset], which [uninhibitAll] calls before it emits. *)
Definition System_reset : System := {| screensaver_keys := []; sleep_keys := [] |}.

(** [getScreensaverInhibitors], [getSleepInhibitors]: [", ".join(keys)] *)
Definition join_keys (keys : list string) : string := String.concat ", " keys.

(** [s.replace(old, new)] for a pattern [old] of one character. *)
Fixpoint replace_char (old : ascii) (new : string) (s : string) : string :=
  match s with
  | EmptyString => EmptyString
  | String a rest =>
      if Ascii.eqb a old then String.append new (replace_char old new rest)
      else String a (replace_char old new rest)
  end.

(** [System.getUniqueFilename] *)
Definition getUniqueFilename (s : string) : string :=
  replace_char "/" "%47" (replace_char "%" "%37" s).

(** Reading a file name back: ["%37"] is a percent sign, ["%47"] a slash. *)
Fixpoint filename_source (s : string) : string :=
  match s with
  | EmptyString => EmptyString
  | String a rest =>
      if Ascii.eqb a "%" then
        match rest with
        | String b (String c rest') =>
            if Ascii.eqb b "3" && Ascii.eqb c "7" then String "%" (filename_source rest')
            else if Ascii.eqb b "4" && Ascii.eqb c "7" then String "/" (filename_source rest')
            else String a (filename_source rest)
        | _ => String a (filename_source rest)
        end
      else String a (filename_source rest)
  end.

(** The flags of org.gnome.SessionManager and the cookie types. *)
Definition INHIBIT_LOGOUT : Z := 1.
Definition INHIBIT_USER_SWITCHING : Z := 2.
Definition INHIBIT_SUSPEND : Z := 4.
Definition INHIBIT_SESSION_IDLE : Z := 8.
Definition COOKIE_NONE : Z := 0.
Definition COOKIE_SCREENSAVER : Z := 1.
Definition COOKIE_SLEEP : Z := 2.

(** The calls made on the session manager interface, without the
    application name and the toplevel id, which are constants. *)
Inductive session_call :=
| SessionInhibit (reason : string) (flags : Z)
| SessionUninhibit (cookie : option Z).

(** A [GnomeSystem]: the key lists, [self.cookie] ([None] or the number the
    session manager returned) and [self.cookie_type]. *)
Record GnomeSystem := {
  gs_system : System;
  gs_cookie : option Z;
  gs_cookie_type : Z }.

(** [self.cookie != COOKIE_NONE]: [None] is not equal to [0]. *)
Definition cookie_differs_from_COOKIE_NONE (cookie : option Z) : bool :=
  match cookie with
  | None => true
  | Some c => negb (c =? COOKIE_NONE)
  end.

(** [if self.cookie is not None: self.session_iface.Uninhibit(self.cookie)] *)
Definition uninhibit_held (cookie : option Z) : list session_call :=
  match cookie with
  | None => []
  | Some c => [SessionUninhibit (Some c)]
  end.

(** [GnomeSystem._updatePowerInhibitionCb]; [new_cookie] is what the session
    manager returns if [Inhibit] is called.  The result is the system
    afterwards and the session calls made, in order. *)
Definition updatePowerInhibitionCb (self : GnomeSystem) (new_cookie : Z)
  : GnomeSystem * list session_call :=
  if isInhibited (sleep_keys (gs_system self)) None then
    if negb (gs_cookie_type self =? COOKIE_SLEEP) then
      ({| gs_system := gs_system self; gs_cookie := Some new_cookie;
          gs_cookie_type := COOKIE_SLEEP |},
       SessionInhibit (join_keys (sleep_keys (gs_system self)))
                      (Z.lor INHIBIT_SUSPEND INHIBIT_LOGOUT)
       :: uninhibit_held (gs_cookie self))
    else (self, [])
  else if isInhibited (screensaver_keys (gs_system self)) None then
    if negb (gs_cookie_type self =? COOKIE_SCREENSAVER) then
      ({| gs_system := gs_system self; gs_cookie := Some new_cookie;
          gs_cookie_type := COOKIE_SCREENSAVER |},
       SessionInhibit (join_keys (screensaver_keys (gs_system self))) INHIBIT_SESSION_IDLE
       :: uninhibit_held (gs_cookie self))
    else (self, [])
  else
    if cookie_differs_from_COOKIE_NONE (gs_cookie self) then
      ({| gs_system := gs_system self; gs_cookie := None;
          gs_cookie_type := COOKIE_NONE |},
       [SessionUninhibit (gs_cookie self)])
    else (self, []).

(** 'update-power-inhibition' reaches the callback [GnomeSystem.__init__]
    connected. *)
Definition emit_update (emitted : bool) (self : GnomeSystem) (new_cookie : Z)
  : GnomeSystem * list session_call :=
  if emitted then updatePowerInhibitionCb self new_cookie else (self, []).

Definition with_sleep_keys (keys : list string) (self : GnomeSystem) : GnomeSystem :=
  {| gs_system := {| screensaver_keys := screensaver_keys (gs_system self);
                     sleep_keys := keys |};
     gs_cookie := gs_cookie self; gs_cookie_type := gs_cookie_type self |}.

(** [inhibitSleep(key)] and [uninhibitSleep(key)] on a GnomeSystem. *)
Definition Gnome_inhibitSleep (self : GnomeSystem) (key : option string) (new_cookie : Z)
  : result (GnomeSystem * list session_call) :=
  match inhibit (sleep_keys (gs_system self)) key with
  | Raise e => Raise e
  | Ok (keys, emitted) => Ok (emit_update emitted (with_sleep_keys keys self) new_cookie)
  end.

Definition Gnome_uninhibitSleep (self : GnomeSystem) (key : option string) (new_cookie : Z)
  : GnomeSystem * list session_call :=
  let '(keys, emitted) := uninhibit (sleep_keys (gs_system self)) key in
  emit_update emitted (with_sleep_keys keys self) new_cookie.

(** A GnomeSystem as [__init__] leaves it. *)
Definition new_GnomeSystem : GnomeSystem :=
  {| gs_system := System_reset; gs_cookie := None; gs_cookie_type := COOKIE_NONE |}.

(** The bookkeeping of a GnomeSystem is consistent: no cookie is held exactly
    when the cookie type is [COOKIE_NONE]. *)
Definition cookie_consistent (self : GnomeSystem) : Prop :=
  gs_cookie self = None ↔ gs_cookie_type self = COOKIE_NONE.

(** * Properties *)

Lemma obs_eq_refl d : obs_eq d d.
Proof. by split. Qed.


(** ** Running computations *)

Lemma bind_Ok {S A B} (m : M S A) (k : A → M S B) s a s' :
  m s = Ok (a, s') → bind m k s = k a s'.
Proof. unfold bind. intros ->. reflexivity. Qed.

Lemma bind_Raise {S A B} (m : M S A) (k : A → M S B) s e :
  m s = Raise e → bind m k s = Raise e.
Proof. unfold bind. intros ->. reflexivity. Qed.

Lemma bind_inv {S A B} (m : M S A) (k : A → M S B) s b s'' :
  bind m k s = Ok (b, s'') → ∃ a s', m s = Ok (a, s') ∧ k a s' = Ok (b, s'').
Proof.
  unfold bind. destruct (m s) as [[a s']|e]; [|discriminate].
  intros H. exists a, s'. split; [reflexivity|exact H].
Qed.


Lemma bind_assoc {S A B C} (m : M S A) (k : A → M S B) (k' : B → M S C) s :
  bind (bind m k) k' s = bind m (λ a, bind (k a) k') s.
Proof. unfold bind. by destruct (m s) as [[a s']|e]. Qed.

Lemma bind_ext {S A B} (m : M S A) (k k' : A → M S B) s :
  (∀ a s', k a s' = k' a s') → bind m k s = bind m k' s.
Proof. intros H. unfold bind. destruct (m s) as [[a s']|e]; [apply H|done]. Qed.

(** ** Writing values back *)

Lemma set_child_property_some e name v old d :
  child_props d !! (e, name) = Some old →
  set_child_property e name v d
  = Ok (tt, set_child_props (<[(e, name) := v]> (child_props d)) d).
Proof. intros H. unfold set_child_property, modify. by rewrite H. Qed.

Lemma get_all_cs_set cs t v d :
  get_all cs (set_control_points (<[cs := <[t := v]> (get_all cs d)]> (control_points d)) d)
  = <[t := v]> (get_all cs d).
Proof. unfold get_all at 1. simpl. by rewrite lookup_insert_eq. Qed.

Lemma get_all_cs_unset cs t d :
  get_all cs (set_control_points (<[cs := delete t (get_all cs d)]> (control_points d)) d)
  = delete t (get_all cs d).
Proof. unfold get_all at 1. simpl. by rewrite lookup_insert_eq. Qed.

(** Writing a control source back to the keyframes it has is not observable. *)
Lemma obs_eq_restore_keyframes cs m d d' :
  get_all cs d = m →
  d' = set_control_points (<[cs := m]> (control_points d)) d →
  obs_eq d' d.
Proof.
  intros Hm ->. split; try done.
  intros cs'. unfold get_all in *. simpl.
  destruct (decide (cs = cs')) as [<-|Hne].
  - by rewrite lookup_insert_eq.
  - by rewrite lookup_insert_ne.
Qed.

Lemma set_control_points_twice x y d :
  set_control_points x (set_control_points y d) = set_control_points x d.
Proof. reflexivity. Qed.

(** ** ClipRemoved.expand *)

Lemma for_each_snoc {S A} (l : list A) (x : A) (body : A → M S unit) s :
  for_each (l ++ [x]) body s = bind (for_each l body) (λ _, body x) s.
Proof.
  revert s. induction l as [|y l IH]; intros s; simpl.
  - unfold bind, ret. by destruct (body x s) as [[[] ?]|].
  - unfold bind in *. destruct (body y s) as [[[] s']|e]; [|done]. apply IH.
Qed.

(** C2, as the code has it: [expand] absorbs the candidate exactly when it is
    a TransitionClipRemovedAction, whatever its layer, start and duration;
    any other action is rejected and the ClipRemoved is left as it was; and
    [undo] of the expanded action is [undo] of the action before, followed by
    the absorbed action's [undo]. *)
Theorem C2_expand_absorbs_every_transition_removal
    (self : ClipRemovedAction) (candidate : action) :
  (fst (expand self candidate) = true ↔ is_transition_removed candidate = true) ∧
  (∀ t, candidate = TransitionClipRemovedAction t →
        expand self candidate = (true, absorb self t) ∧
        ∀ s, undo (ClipRemoved (absorb self t)) s
             = bind (undo (ClipRemoved self))
                    (λ _, bind (TransitionClipRemovedAction_undo t)
                               (λ _, ret (ClipRemoved (absorb self t)))) s) ∧
  (is_transition_removed candidate = false → expand self candidate = (false, self)).
Proof.
  split; [|split].
  - by destruct candidate.
  - intros t ->. split; [reflexivity|]. intros s. simpl.
    do 3 (rewrite bind_assoc; apply bind_ext; intros [] ?).
    rewrite bind_assoc. unfold bind at 1. rewrite for_each_snoc.
    unfold bind, ret. by destruct (for_each _ _ _) as [[[] ?]|].
  - by destruct candidate.
Qed.

(** C2, as the specification states it, fails: a transition removal recorded
    on another layer, for a time window apart from the removed clip's, is
    absorbed all the same. *)
Lemma C2_expand_counterexample :
  let self := {| cr_layer := 1%positive; cr_clip := 1%positive;
                 cr_transition_removed_actions := [] |} in
  let t := {| tcr_base := {| tca_ges_layer := Some 2%positive; tca_start := 100;
                             tca_duration := 7; tca_track_element := 9%positive |};
              tcr_properties := [] |} in
  tca_ges_layer (tcr_base t) ≠ Some (cr_layer self) ∧
  clip_start sample_info (cr_clip self) + clip_duration sample_info (cr_clip self)
    < tca_start (tcr_base t) ∧
  expand self (TransitionClipRemovedAction t) = (true, absorb self t).
Proof. split; [discriminate|]. split; reflexivity. Qed.

Lemma C2_expand_witness :
  let self := {| cr_layer := 1%positive; cr_clip := 1%positive;
                 cr_transition_removed_actions := [] |} in
  expand self (LayerAdded 3%positive) = (false, self).
Proof.
  intros self.
  apply (C2_expand_absorbs_every_transition_removal self (LayerAdded 3%positive)).
  reflexivity.
Defined.

(** ** Commits to the pipeline *)

Lemma adds_ret {A} (a : A) : adds_commits 0 (ret a).
Proof. intros s a' s' [= <- <-]. lia. Qed.

Lemma adds_raise {A} e : adds_commits (A := A) 0 (raise e).
Proof. intros s a s' [=]. Qed.

Lemma adds_gets {A} (f : doc → A) : adds_commits 0 (gets f).
Proof. intros s a s' [= <- <-]. lia. Qed.

Lemma adds_modify (f : doc → doc) n :
  (∀ s, commits (f s) = (commits s + n)%nat) → adds_commits n (modify f).
Proof. intros H s a s' [= <- <-]. apply H. Qed.

Lemma adds_bind {A B} n k (m : M doc A) (f : A → M doc B) :
  adds_commits n m → (∀ a, adds_commits k (f a)) → adds_commits (n + k) (bind m f).
Proof.
  intros Hm Hf s b s'' H. apply bind_inv in H as (a & s' & H1 & H2).
  apply Hm in H1. apply Hf in H2. lia.
Qed.

Lemma adds_for_each {A} (l : list A) (body : A → M doc unit) :
  (∀ x, adds_commits 0 (body x)) → adds_commits 0 (for_each l body).
Proof.
  intros H. induction l as [|x l IH]; simpl.
  - apply adds_ret.
  - apply (adds_bind 0 0); [apply H|intros _; apply IH].
Qed.

Create HintDb commits.

Lemma adds_set_child_property e name v : adds_commits 0 (set_child_property e name v).
Proof. apply adds_modify. intros s. destruct (child_props s !! (e, name)); simpl; lia. Qed.
Lemma adds_set_property e name v : adds_commits 0 (set_property e name v).
Proof. apply adds_modify. intros s. simpl. lia. Qed.
Lemma adds_set_priority l p : adds_commits 0 (set_priority l p).
Proof. apply adds_modify. intros s. simpl. lia. Qed.
Lemma adds_set_active e b : adds_commits 0 (set_active e b).
Proof. apply adds_modify. intros s. simpl. lia. Qed.
Lemma adds_cs_set cs t v : adds_commits 0 (cs_set cs t v).
Proof. apply adds_modify. intros s. simpl. lia. Qed.
Lemma adds_cs_unset cs t : adds_commits 0 (cs_unset cs t).
Proof. apply adds_modify. intros s. simpl. lia. Qed.
Lemma adds_update_object old new : adds_commits 0 (update_object old new).
Proof. apply adds_modify. intros s. simpl. lia. Qed.
Lemma adds_clip_remove c e : adds_commits 0 (clip_remove c e).
Proof. apply adds_modify. intros s. simpl. lia. Qed.
Lemma adds_add_asset c : adds_commits 0 (add_asset c).
Proof. intros s a s' [= <- <-]. simpl. lia. Qed.
Lemma adds_set_name_None c : adds_commits 0 (set_name_None c).
Proof. apply adds_modify. intros s. simpl. lia. Qed.
Lemma adds_add_clip l c : adds_commits 0 (add_clip l c).
Proof. apply adds_modify. intros s. destruct (clip_layer s !! c); simpl; lia. Qed.
Lemma adds_remove_clip l c : adds_commits 0 (remove_clip l c).
Proof. apply adds_modify. intros s. case_decide; simpl; lia. Qed.
Lemma adds_add_layer l : adds_commits 0 (add_layer l).
Proof. apply adds_modify. intros s. case_decide; simpl; lia. Qed.
Lemma adds_remove_layer l : adds_commits 0 (remove_layer l).
Proof. apply adds_modify. intros s. simpl. lia. Qed.
Lemma adds_commit_timeline : adds_commits 1 commit_timeline.
Proof. apply adds_modify. intros s. simpl. lia. Qed.
Lemma adds_commit_timeline_of_layer l : adds_commits 1 (commit_timeline_of_layer l).
Proof.
  apply (adds_bind 0 1); [apply adds_gets|].
  intros [[]|]; [apply adds_commit_timeline|]. intros s a s' [=].
Qed.

#[local] Hint Resolve adds_ret adds_raise adds_gets adds_for_each
  adds_set_child_property adds_set_property adds_set_priority adds_set_active
  adds_cs_set adds_cs_unset adds_update_object adds_clip_remove adds_add_asset
  adds_set_name_None adds_add_clip adds_remove_clip adds_add_layer
  adds_remove_layer adds_commit_timeline adds_commit_timeline_of_layer : commits.

Ltac commits_step :=
  match goal with
  | |- adds_commits 0 (bind _ _) => apply (adds_bind 0 0); [|intros ?]
  | |- adds_commits 1 (bind (commit_timeline_of_layer _) _) =>
      apply (adds_bind 1 0); [|intros ?]
  | |- adds_commits 1 (bind commit_timeline _) => apply (adds_bind 1 0); [|intros ?]
  | |- adds_commits 1 (bind _ _) => apply (adds_bind 0 1); [|intros ?]
  | |- adds_commits _ (match ?x with _ => _ end) => destruct x
  | |- _ => solve [eauto with commits]
  end.

Lemma adds_find_video_transition t : adds_commits 0 (find_video_transition t).
Proof. unfold find_video_transition. repeat commits_step. Qed.

Lemma adds_TransitionClipAddedAction_do t : adds_commits 0 (TransitionClipAddedAction_do t).
Proof.
  unfold TransitionClipAddedAction_do.
  apply (adds_bind 0 0); [apply adds_find_video_transition|].
  intros [e|]; eauto with commits.
Qed.

Lemma adds_TransitionClipRemovedAction_undo t :
  adds_commits 0 (TransitionClipRemovedAction_undo t).
Proof.
  unfold TransitionClipRemovedAction_undo.
  apply (adds_bind 0 0); [apply adds_find_video_transition|].
  intros [e|]; [|eauto with commits].
  apply (adds_bind 0 0); [eauto with commits|]. intros _.
  apply adds_for_each. intros x. eauto with commits.
Qed.

Lemma adds_TrackElementAction_add t : adds_commits 0 (TrackElementAction_add t).
Proof.
  unfold TrackElementAction_add. repeat commits_step.
Qed.

Lemma adds_TrackElementAction_remove t : adds_commits 0 (TrackElementAction_remove t).
Proof. unfold TrackElementAction_remove. repeat commits_step. Qed.

Lemma adds_ActivePropertyChanged_flip t b : adds_commits 0 (ActivePropertyChanged_flip t b).
Proof. unfold ActivePropertyChanged_flip. repeat commits_step. Qed.

#[local] Hint Resolve adds_find_video_transition adds_TransitionClipAddedAction_do
  adds_TransitionClipRemovedAction_undo adds_TrackElementAction_add
  adds_TrackElementAction_remove adds_ActivePropertyChanged_flip : commits.

Lemma do_adds_commits a : adds_commits (do_commits a) (do a).
Proof. destruct a; simpl; repeat commits_step. Qed.

Lemma undo_adds_commits a : adds_commits (undo_commits a) (undo a).
Proof.
  destruct a; simpl; repeat commits_step.
Qed.

Lemma commit_timeline_of_layer_ok l s :
  l ∈ timeline_layers s →
  commit_timeline_of_layer l s = Ok (tt, set_commits (S (commits s)) s).
Proof.
  intros H. unfold commit_timeline_of_layer, bind, gets, get_timeline.
  by rewrite decide_True.
Qed.

Lemma returns_modify (f : doc → doc) :
  (∀ s, timeline_layers (f s) = timeline_layers s) → returns_keeping_layers (modify f).
Proof. intros H s. exists tt, (f s). split; [reflexivity|apply H]. Qed.

Lemma returns_bind {A B} (m : M doc A) (f : A → M doc B) :
  returns_keeping_layers m → (∀ a, returns_keeping_layers (f a)) →
  returns_keeping_layers (bind m f).
Proof.
  intros Hm Hf s. destruct (Hm s) as (a & s' & H1 & L1).
  destruct (Hf a s') as (b & s'' & H2 & L2).
  exists b, s''. split; [by rewrite (bind_Ok _ _ _ _ _ H1)|congruence].
Qed.

Lemma returns_for_each {A} (l : list A) (body : A → M doc unit) :
  Forall (λ x, returns_keeping_layers (body x)) l →
  returns_keeping_layers (for_each l body).
Proof.
  induction 1 as [|x l Hx _ IH]; simpl.
  - intros s. by exists tt, s.
  - apply returns_bind; [exact Hx|intros _; exact IH].
Qed.

Lemma returns_set_name_None c : returns_keeping_layers (set_name_None c).
Proof. by apply returns_modify. Qed.
Lemma returns_add_clip l c : returns_keeping_layers (add_clip l c).
Proof. apply returns_modify. intros s. by destruct (clip_layer s !! c). Qed.
Lemma returns_remove_clip l c : returns_keeping_layers (remove_clip l c).
Proof. apply returns_modify. intros s. by case_decide. Qed.
Lemma returns_update_object old new : returns_keeping_layers (update_object old new).
Proof. by apply returns_modify. Qed.
Lemma returns_set_property e name v : returns_keeping_layers (set_property e name v).
Proof. by apply returns_modify. Qed.

Lemma returns_TransitionClipRemovedAction_undo t :
  is_Some (tca_ges_layer (tcr_base t)) →
  returns_keeping_layers (TransitionClipRemovedAction_undo t).
Proof.
  intros [l Hl]. unfold TransitionClipRemovedAction_undo, find_video_transition.
  rewrite Hl. apply returns_bind.
  - intros s. by eexists _, s.
  - intros [e|].
    + apply returns_bind; [apply returns_update_object|]. intros _.
      apply returns_for_each, Forall_forall. intros x _. apply returns_set_property.
    + intros s. by exists tt, s.
Qed.

(** The clip actions return when their layer is in the timeline; the layer
    actions always return. *)
Lemma structural_returns a s :
  structural a = true → attached a s →
  (∃ a' s', do a s = Ok (a', s')) ∧ (∃ a' s', undo a s = Ok (a', s')).
Proof.
  destruct a as [| | |layer clip|r| | |l|l| | | | | |]; try discriminate; intros _ Hatt; simpl in *.
  - split.
    + destruct (returns_bind _ _ (returns_set_name_None clip)
                  (λ _, returns_add_clip layer clip) s) as (u & s1 & H1 & L1).
      rewrite <- bind_assoc. rewrite (bind_Ok _ _ _ _ _ H1).
      rewrite (bind_Ok _ _ _ _ _ (commit_timeline_of_layer_ok layer s1 ltac:(by rewrite L1))).
      by eexists _, _.
    + destruct (returns_remove_clip layer clip s) as (u & s1 & H1 & L1).
      rewrite (bind_Ok _ _ _ _ _ H1).
      rewrite (bind_Ok _ _ _ _ _ (commit_timeline_of_layer_ok layer s1 ltac:(by rewrite L1))).
      by eexists _, _.
  - destruct Hatt as [Hl Ht]. split.
    + destruct (returns_remove_clip (cr_layer r) (cr_clip r) s) as (u & s1 & H1 & L1).
      rewrite (bind_Ok _ _ _ _ _ H1).
      rewrite (bind_Ok _ _ _ _ _
                 (commit_timeline_of_layer_ok (cr_layer r) s1 ltac:(by rewrite L1))).
      by eexists _, _.
    + destruct (returns_bind _ _ (returns_set_name_None (cr_clip r))
                  (λ _, returns_add_clip (cr_layer r) (cr_clip r)) s) as (u & s1 & H1 & L1).
      rewrite <- bind_assoc. rewrite (bind_Ok _ _ _ _ _ H1).
      rewrite (bind_Ok _ _ _ _ _
                 (commit_timeline_of_layer_ok (cr_layer r) s1 ltac:(by rewrite L1))).
      destruct (returns_for_each (cr_transition_removed_actions r)
                  TransitionClipRemovedAction_undo
                  (Forall_impl _ _ _ Ht returns_TransitionClipRemovedAction_undo)
                  (set_commits (S (commits s1)) s1)) as (u' & s2 & H2 & _).
      rewrite (bind_Ok _ _ _ _ _ H2). by eexists _, _.
  - split; by eexists _, _.
  - split; by eexists _, _.
Qed.

(** C4, as the code has it: [do] and [undo] of ClipAdded and of ClipRemoved,
    [undo] of LayerAdded and [do] of LayerRemoved call [commit_timeline]
    exactly once; [do] of LayerAdded and [undo] of LayerRemoved, which add
    the layer, do not call it; no other action calls it.  The clip actions
    return when their layer is in the timeline, the layer actions always. *)
Theorem C4_commit_calls (a : action) (s : doc) :
  attached a s →
  (∀ a' s', do a s = Ok (a', s') → commits s' = (commits s + do_commits a)%nat) ∧
  (∀ a' s', undo a s = Ok (a', s') → commits s' = (commits s + undo_commits a)%nat) ∧
  (structural a = true →
   (∃ a' s', do a s = Ok (a', s')) ∧ (∃ a' s', undo a s = Ok (a', s'))) ∧
  (structural a = false → do_commits a = 0%nat ∧ undo_commits a = 0%nat).
Proof.
  intros Hatt. repeat split.
  - intros a' s'. apply do_adds_commits.
  - intros a' s'. apply undo_adds_commits.
  - by apply structural_returns.
  - by apply structural_returns.
  - by destruct a.
  - by destruct a.
Qed.

(** C4, as the specification states it, fails: [do] of LayerAdded adds the
    layer and returns without a commit. *)
Lemma C4_commit_counterexample :
  ∃ a' s', do (LayerAdded 2%positive) sample_doc = Ok (a', s') ∧
           timeline_layers s' = [1; 2]%positive ∧
           commits s' = commits sample_doc.
Proof. eexists _, _. split; [reflexivity|]. split; reflexivity. Qed.

Lemma C4_commit_witness :
  ∃ a' s', do (ClipRemoved {| cr_layer := 1%positive; cr_clip := 2%positive;
                              cr_transition_removed_actions := [] |}) sample_doc
           = Ok (a', s') ∧ commits s' = 1%nat.
Proof.
  pose proof (C4_commit_calls
                (ClipRemoved {| cr_layer := 1%positive; cr_clip := 2%positive;
                                cr_transition_removed_actions := [] |})
                sample_doc) as H.
  destruct H as (Hdo & _ & Hret & _).
  { split; [vm_compute; left|constructor]. }
  destruct (Hret eq_refl) as [(a' & s' & E) _].
  exists a', s'. split; [exact E|]. apply (Hdo _ _ E).
Defined.

(** ** Round trip of every action *)

Lemma set_child_props_same d : set_child_props (child_props d) d = d.
Proof. by destruct d. Qed.

Lemma filter_ne_fresh (x : positive) (l : list positive) :
  x ∉ l → filter (λ y, y ≠ x) (l ++ [x]) = l.
Proof.
  induction l as [|y l IH]; intros Hx; simpl.
  - rewrite filter_cons_False by (intros H; by apply H). done.
  - apply not_elem_of_cons in Hx as [Hne Hx].
    rewrite filter_cons_True by done. by rewrite IH.
Qed.

(** Writing a list of child properties with [set_child_property], which
    writes only the properties the element has. *)
Lemma for_each_set_child_property e props s :
  ∃ s', for_each props (λ pv, set_child_property e (fst pv) (snd pv)) s = Ok (tt, s') ∧
        s' = set_child_props (child_props s') s ∧
        (∀ k, is_Some (child_props s' !! k) ↔ is_Some (child_props s !! k)) ∧
        (∀ k, (∀ name, k = (e, name) → name ∉ map fst props) →
              child_props s' !! k = child_props s !! k) ∧
        (NoDup (map fst props) →
         ∀ name v, (name, v) ∈ props → is_Some (child_props s !! (e, name)) →
                   child_props s' !! (e, name) = Some v).
Proof.
  revert s. induction props as [|[n0 v0] props IH]; intros s.
  - exists s. split; [done|]. split; [by rewrite set_child_props_same|].
    split; [done|]. split; [done|]. intros _ name v Hin. by apply elem_of_nil in Hin.
  - destruct (set_child_property e n0 v0 s) as [[[] s1]|] eqn:E1; [|done].
    assert (s1 = set_child_props (child_props s1) s ∧
            (∀ k, is_Some (child_props s1 !! k) ↔ is_Some (child_props s !! k)) ∧
            (∀ k, k ≠ (e, n0) → child_props s1 !! k = child_props s !! k) ∧
            (is_Some (child_props s !! (e, n0)) → child_props s1 !! (e, n0) = Some v0))
      as (Hrest1 & Hdom1 & Hother1 & Hset1).
    { unfold set_child_property, modify in E1. injection E1 as <-.
      destruct (child_props s !! (e, n0)) as [old|] eqn:Hold.
      - simpl. split; [done|]. split; [|split].
        + intros k. destruct (decide (k = (e, n0))) as [->|Hne].
          * rewrite lookup_insert_eq, Hold. split; by eexists.
          * by rewrite lookup_insert_ne.
        + intros k Hne. by apply lookup_insert_ne.
        + intros _. apply lookup_insert_eq.
      - split; [by rewrite set_child_props_same|]. split; [done|]. split; [done|].
        rewrite Hold. by intros [? ?]. }
    destruct (IH s1) as (s' & E & Hrest & Hdom & Hother & Hset).
    exists s'. split; [|split; [|split; [|split]]].
    + simpl. rewrite (bind_Ok _ _ _ _ _ E1). exact E.
    + rewrite Hrest at 1. rewrite Hrest1. reflexivity.
    + intros k. by rewrite Hdom, Hdom1.
    + intros k Hk. rewrite Hother.
      * apply Hother1. intros ->. apply (Hk n0 eq_refl). simpl. left.
      * intros name -> Hin. apply (Hk name eq_refl). simpl. by right.
    + intros Hnd name v Hin Hex. simpl in Hnd. apply NoDup_cons in Hnd as [Hn0 Hnd].
      apply elem_of_cons in Hin as [[= -> ->]|Hin].
      * rewrite Hother; [by apply Hset1|]. intros name [= <-]. exact Hn0.
      * apply Hset; [done..|]. by apply Hdom1.
Qed.

Lemma set_gobject_props_same d : set_gobject_props (gobject_props d) d = d.
Proof. by destruct d. Qed.

























(** ** Resolving the transition of a TransitionClipAddedAction *)

Lemma matching_transition_clip_test d start duration c :
  is_TransitionClip (clip_class_of (info d) c)
  && (clip_start (info d) c =? start) && (clip_duration (info d) c =? duration) = true
  ↔ matching_transition_clip d start duration c.
Proof.
  unfold matching_transition_clip.
  rewrite !andb_true_iff, !Z.eqb_eq.
  destruct (clip_class_of (info d) c); simpl; intuition congruence.
Qed.

Lemma get_video_element_Some c d e :
  get_video_element c d = Some e →
  e ∈ get_children c d ∧ elem_class_of (info d) e = VideoTransition.
Proof.
  unfold get_video_element. intros H. apply find_some in H as [Hin Hk].
  split; [by apply list_elem_of_In|].
  by destruct (elem_class_of (info d) e).
Qed.

Lemma get_video_element_None c d e :
  get_video_element c d = None → e ∈ get_children c d →
  elem_class_of (info d) e ≠ VideoTransition.
Proof.
  unfold get_video_element. intros H Hin Hk.
  apply list_elem_of_In in Hin.
  pose proof (find_none _ _ H e Hin) as Hf. simpl in Hf. by rewrite Hk in Hf.
Qed.

Lemma scan_video_transition_Some d start duration clips e :
  scan_video_transition d start duration clips = Some e
  ↔ first_video_transition d start duration clips e.
Proof.
  split.
  - induction clips as [|c rest IH]; simpl; [discriminate|].
    destruct (_ && _ && _) eqn:Hb.
    + apply matching_transition_clip_test in Hb.
      destruct (get_video_element c d) as [e'|] eqn:Hv.
      * intros [= ->]. exists [], c, rest. repeat split; try done; try apply Hb.
        intros c' Hin. by apply elem_of_nil in Hin.
      * intros H. destruct (IH H) as (before & c0 & after & -> & Hm & Hv0 & Hbefore).
        exists (c :: before), c0, after. repeat split; try done; try apply Hm.
        intros c' Hin Hm'. apply elem_of_cons in Hin as [->|Hin]; [done|by apply Hbefore].
    + intros H. destruct (IH H) as (before & c0 & after & -> & Hm & Hv0 & Hbefore).
      exists (c :: before), c0, after. repeat split; try done; try apply Hm.
      intros c' Hin Hm'. apply elem_of_cons in Hin as [->|Hin]; [|by apply Hbefore].
      apply matching_transition_clip_test in Hm'. congruence.
  - intros (before & c0 & after & -> & Hm & Hv0 & Hbefore).
    induction before as [|c before IH]; simpl.
    + apply matching_transition_clip_test in Hm. by rewrite Hm, Hv0.
    + destruct (_ && _ && _) eqn:Hb.
      * apply matching_transition_clip_test in Hb.
        rewrite (Hbefore c (list_elem_of_here _ _) Hb).
        apply IH. intros c' Hin. apply Hbefore. by apply list_elem_of_further.
      * apply IH. intros c' Hin. apply Hbefore. by apply list_elem_of_further.
Qed.

Lemma scan_video_transition_None d start duration clips :
  scan_video_transition d start duration clips = None
  ↔ no_video_transition d start duration clips.
Proof.
  unfold no_video_transition. induction clips as [|c rest IH]; simpl.
  - split; [|done]. intros _ c Hin. by apply elem_of_nil in Hin.
  - destruct (_ && _ && _) eqn:Hb.
    + apply matching_transition_clip_test in Hb.
      destruct (get_video_element c d) as [e'|] eqn:Hv.
      * split; [discriminate|]. intros H.
        specialize (H c (list_elem_of_here _ _) Hb). congruence.
      * rewrite IH. split.
        -- intros H c' Hin Hm. apply elem_of_cons in Hin as [->|Hin]; [done|by apply H].
        -- intros H c' Hin. apply H. by apply list_elem_of_further.
    + rewrite IH. split.
      * intros H c' Hin Hm. apply elem_of_cons in Hin as [->|Hin]; [|by apply H].
        apply matching_transition_clip_test in Hm. congruence.
      * intros H c' Hin. apply H. by apply list_elem_of_further.
Qed.

(** C7: when the action knows its layer, [TransitionClipAddedAction.do]
    scans the clips of the layer for a transition clip with the captured
    start and duration and takes the video element of the first one that has
    one, skipping those that have none; it registers that element as the
    replacement of the recorded one.  When the layer has no such video
    element the call raises AssertionError.  One of the two always holds. *)
Theorem C7_do_resolves_or_asserts (self : TransitionClipAction) (l : layer_id) (s : doc) :
  tca_ges_layer self = Some l →
  (∀ e, first_video_transition s (tca_start self) (tca_duration self) (get_clips l s) e →
        TransitionClipAddedAction_do self s
        = Ok (tt, set_auto_updates (auto_updates s ++ [(tca_track_element self, e)]) s) ∧
        elem_class_of (info s) e = VideoTransition ∧
        ∃ c, c ∈ get_clips l s ∧ e ∈ get_children c s) ∧
  (no_video_transition s (tca_start self) (tca_duration self) (get_clips l s) →
   TransitionClipAddedAction_do self s = Raise AssertionError) ∧
  ((∃ e, first_video_transition s (tca_start self) (tca_duration self) (get_clips l s) e) ∨
   no_video_transition s (tca_start self) (tca_duration self) (get_clips l s)).
Proof.
  intros Hl. split; [|split].
  - intros e He. split; [|split].
    + apply scan_video_transition_Some in He.
      unfold TransitionClipAddedAction_do, find_video_transition, bind, gets.
      by rewrite Hl, He.
    + destruct He as (before & c & after & _ & _ & Hv & _).
      by apply get_video_element_Some in Hv as [_ ?].
    + destruct He as (before & c & after & Hclips & _ & Hv & _).
      exists c. split.
      * rewrite Hclips. apply elem_of_app. right. apply list_elem_of_here.
      * by apply get_video_element_Some in Hv as [? _].
  - intros Hnone. apply scan_video_transition_None in Hnone.
    unfold TransitionClipAddedAction_do, find_video_transition, bind, gets.
    by rewrite Hl, Hnone.
  - destruct (scan_video_transition s (tca_start self) (tca_duration self) (get_clips l s))
      as [e|] eqn:E.
    + left. exists e. by apply scan_video_transition_Some.
    + right. by apply scan_video_transition_None.
Qed.

Lemma C7_do_witness :
  let self := {| tca_ges_layer := Some 1%positive; tca_start := 5; tca_duration := 5;
                 tca_track_element := 9%positive |} in
  TransitionClipAddedAction_do self sample_doc
  = Ok (tt, set_auto_updates [(9%positive, 4%positive)] sample_doc) ∧
  TransitionClipAddedAction_do self (set_layer_clips ∅ sample_doc) = Raise AssertionError.
Proof.
  intros self. split.
  - apply (C7_do_resolves_or_asserts self 1%positive sample_doc eq_refl).
    apply scan_video_transition_Some. reflexivity.
  - apply (C7_do_resolves_or_asserts self 1%positive (set_layer_clips ∅ sample_doc) eq_refl).
    intros c Hin. vm_compute in Hin. by apply elem_of_nil in Hin.
Defined.

(** ** The scripted record of ClipAdded *)

Lemma is_splitting_true layer d :
  is_splitting layer d = true ↔ layer_splitting_object (info d) layer = Some (PyBool true).
Proof.
  unfold is_splitting.
  destruct (layer_splitting_object (info d) layer) as [[|[]|]|]; split; congruence.
Qed.

Lemma is_editing_true layer d :
  is_editing layer d = true ↔
  layer ∈ timeline_layers d ∧
  ∃ ui ctx, timeline_ui_attr (info d) = Some (Some ui) ∧ editing_context ui = Some ctx.
Proof.
  unfold is_editing, get_timeline. case_decide as Hin.
  - destruct (timeline_ui_attr (info d)) as [[ui|]|] eqn:Hui.
    + destruct (editing_context ui) as [ctx|] eqn:Hctx.
      * split; [|done]. intros _. split; [done|]. by exists ui, ctx.
      * split; [done|]. intros (_ & ui' & ctx & [= <-] & ?). congruence.
    + split; [done|]. by intros (_ & ui' & ctx & [=] & _).
    + split; [done|]. by intros (_ & ui' & ctx & [=] & _).
  - split; [done|]. by intros [? _].
Qed.

(** The integer [round_half_even] gives is a nearest one, and the even one
    of two nearest. *)
Lemma round_half_even_nearest n d :
  0 < d →
  2 * Z.abs (n - round_half_even n d * d) ≤ d ∧
  (2 * Z.abs (n - round_half_even n d * d) = d → Z.even (round_half_even n d) = true).
Proof.
  intros Hd. unfold round_half_even.
  pose proof (Z.div_mod n d ltac:(lia)) as Hdm.
  pose proof (Z.mod_pos_bound n d Hd) as Hr.
  set (q := n / d) in *. set (r := n mod d) in *.
  destruct (Z.ltb_spec (2 * r) d) as [H1|H1].
  - split; [lia|]. intros H. lia.
  - destruct (Z.ltb_spec d (2 * r)) as [H2|H2].
    + split; [lia|]. intros H. lia.
    + destruct (Z.even q) eqn:Hq.
      * split; [lia|done].
      * split; [lia|]. intros _. rewrite Z.even_add, Hq. reflexivity.
Qed.

(** The scaling [py_truediv] chooses brings the quotient into [2^52, 2^53). *)
Lemma scaled_quotient_range a b :
  0 < a → 0 < b →
  let e := Z.log2 a - Z.log2 b in
  let k := if a * 2 ^ Z.log2 b <? b * 2 ^ Z.log2 a then 53 - e else 52 - e in
  let n := a * 2 ^ Z.max k 0 in
  let d := b * 2 ^ Z.max (- k) 0 in
  0 < d ∧ 2 ^ 52 * d ≤ n < 2 ^ 53 * d.
Proof.
  intros Ha Hb e k n d.
  destruct (Z.log2_spec a Ha) as [Ha1 Ha2].
  destruct (Z.log2_spec b Hb) as [Hb1 Hb2].
  pose proof (Z.log2_nonneg a) as Hla. pose proof (Z.log2_nonneg b) as Hlb.
  rewrite Z.pow_succ_r in Ha2, Hb2 by done.
  assert (0 < 2 ^ Z.max k 0) as HK by (apply Z.pow_pos_nonneg; lia).
  assert (0 < 2 ^ Z.max (- k) 0) as HK' by (apply Z.pow_pos_nonneg; lia).
  assert (2 ^ Z.max k 0 * 2 ^ Z.log2 a
          = 2 ^ (k + Z.log2 a - Z.log2 b) * 2 ^ Z.log2 b * 2 ^ Z.max (- k) 0) as Hscale.
  { subst k e. destruct (_ <? _).
    - rewrite <- !Z.pow_add_r by lia. f_equal. lia.
    - rewrite <- !Z.pow_add_r by lia. f_equal. lia. }
  subst n d. set (K := 2 ^ Z.max k 0) in *. set (K' := 2 ^ Z.max (- k) 0) in *.
  set (P := 2 ^ Z.log2 a) in *. set (Q := 2 ^ Z.log2 b) in *.
  assert (0 < P) by lia. assert (0 < Q) by lia.
  split; [nia|].
  assert (0 < 2 ^ 52 * K') as HT by lia.
  subst k e. destruct (Z.ltb_spec (a * Q) (b * P)) as [Hlt|Hge].
  - replace (53 - (Z.log2 a - Z.log2 b) + Z.log2 a - Z.log2 b) with 53 in Hscale by lia.
    assert (b * P ≤ 2 * (a * Q)) as Hlow by nia.
    split.
    + apply (Z.mul_le_mono_pos_r _ _ P); [done|].
      replace (a * K * P) with (a * (K * P)) by ring. rewrite Hscale.
      replace (2 ^ 52 * (b * K') * P) with (2 ^ 52 * K' * (b * P)) by ring.
      replace (a * (2 ^ 53 * Q * K')) with (2 ^ 52 * K' * (2 * (a * Q))) by ring.
      apply Z.mul_le_mono_nonneg_l; lia.
    + apply (Z.mul_lt_mono_pos_r P); [done|].
      replace (a * K * P) with (a * (K * P)) by ring. rewrite Hscale.
      replace (a * (2 ^ 53 * Q * K')) with (2 ^ 53 * K' * (a * Q)) by ring.
      replace (2 ^ 53 * (b * K') * P) with (2 ^ 53 * K' * (b * P)) by ring.
      apply Z.mul_lt_mono_pos_l; lia.
  - replace (52 - (Z.log2 a - Z.log2 b) + Z.log2 a - Z.log2 b) with 52 in Hscale by lia.
    assert (a * Q < 2 * (b * P)) as Hup by nia.
    split.
    + apply (Z.mul_le_mono_pos_r _ _ P); [done|].
      replace (a * K * P) with (a * (K * P)) by ring. rewrite Hscale.
      replace (2 ^ 52 * (b * K') * P) with (2 ^ 52 * K' * (b * P)) by ring.
      replace (a * (2 ^ 52 * Q * K')) with (2 ^ 52 * K' * (a * Q)) by ring.
      apply Z.mul_le_mono_nonneg_l; lia.
    + apply (Z.mul_lt_mono_pos_r P); [done|].
      replace (a * K * P) with (a * (K * P)) by ring. rewrite Hscale.
      replace (a * (2 ^ 52 * Q * K')) with (2 ^ 52 * K' * (a * Q)) by ring.
      replace (2 ^ 53 * (b * K') * P) with (2 ^ 52 * K' * (2 * (b * P))) by ring.
      apply Z.mul_lt_mono_pos_l; lia.
Qed.

(** A mantissa of 53 binary digits with an exponent of the normal numbers is
    a binary64 number. *)
Lemma digits2_pos_size m : digits2_pos m = Pos.size m.
Proof. induction m as [m IH|m IH|]; simpl; rewrite ?IH; reflexivity. Qed.

Lemma digits2_pos_53 m : 2 ^ 52 ≤ Z.pos m < 2 ^ 53 → digits2_pos m = 53%positive.
Proof.
  intros [Hlo Hhi]. rewrite digits2_pos_size.
  pose proof (Pos.size_gt m) as Hgt. pose proof (Pos.size_le m) as Hle.
  apply Pos2Z.inj.
  assert (Z.pos m < 2 ^ Z.pos (Pos.size m)) as Hgt' by (rewrite <- Pos2Z.inj_pow; lia).
  assert (2 ^ Z.pos (Pos.size m) ≤ 2 * Z.pos m) as Hle' by (rewrite <- Pos2Z.inj_pow; lia).
  destruct (Z.lt_trichotomy (Z.pos (Pos.size m)) 53) as [H|[H|H]]; [|done|].
  - exfalso. assert (2 ^ Z.pos (Pos.size m) ≤ 2 ^ 52) by (apply Z.pow_le_mono_r; lia). lia.
  - exfalso. assert (2 ^ 54 ≤ 2 ^ Z.pos (Pos.size m)) by (apply Z.pow_le_mono_r; lia). lia.
Qed.

Lemma Prim2SF_normal m e :
  2 ^ 52 ≤ Z.pos m < 2 ^ 53 → -1074 ≤ e ≤ 971 →
  Prim2SF (SF2Prim (S754_finite false m e)) = S754_finite false m e.
Proof.
  intros Hm He. apply Prim2SF_SF2Prim.
  unfold SpecFloat.valid_binary, bounded, canonical_mantissa, fexp.
  rewrite (digits2_pos_53 m Hm).
  apply andb_true_intro. split.
  - apply Z.eqb_eq. change (SpecFloat.emin prec emax) with (-1074).
    change prec with 53. lia.
  - apply Z.leb_le. change (emax - prec) with 971. lia.
Qed.

(** The integer nearest to a quotient in [2^52, 2^53) is in [2^52, 2^53]. *)
Lemma nearest_integer_range n d r :
  0 < d → 2 ^ 52 * d ≤ n < 2 ^ 53 * d → 2 * Z.abs (n - r * d) ≤ d →
  2 ^ 52 ≤ r ≤ 2 ^ 53.
Proof. intros Hd Hn Hr. split; nia. Qed.

(** [py_truediv] gives the nearest binary64 number. *)
Lemma py_truediv_nearest a b :
  0 ≤ a → 0 < b → -1021 ≤ Z.log2 a - Z.log2 b ≤ 1022 →
  nearest_binary64 a b (py_truediv a b).
Proof.
  intros Ha Hb Hnormal. unfold py_truediv.
  destruct (Z.eqb_spec a 0) as [->|Hne]; [by left|].
  right. cbv zeta.
  destruct (scaled_quotient_range a b ltac:(lia) Hb) as [Hd Hrange].
  cbv zeta in Hd, Hrange.
  set (k := if a * 2 ^ Z.log2 b <? b * 2 ^ Z.log2 a
            then 53 - (Z.log2 a - Z.log2 b) else 52 - (Z.log2 a - Z.log2 b)) in *.
  assert (-970 ≤ k ≤ 1074) as Hk by (subst k; destruct (_ <? _); lia).
  destruct (round_half_even_nearest (a * 2 ^ Z.max k 0) _ Hd) as [H1 H2].
  pose proof (nearest_integer_range _ _ _ Hd Hrange H1) as Hr.
  set (r := round_half_even (a * 2 ^ Z.max k 0) (b * 2 ^ Z.max (- k) 0)) in *.
  destruct (Z.eqb_spec r (2 ^ 53)) as [Hmax|Hless].
  - exists k, r, (Z.to_pos (2 ^ 52)), (1 - k).
    split; [exact Hrange|]. split; [exact H1|]. split; [exact H2|].
    split; [right; by rewrite Z2Pos.id|].
    apply Prim2SF_normal; [rewrite Z2Pos.id|]; lia.
  - exists k, r, (Z.to_pos r), (- k).
    split; [exact Hrange|]. split; [exact H1|]. split; [exact H2|].
    split; [left; rewrite Z2Pos.id; lia|].
    apply Prim2SF_normal; [rewrite Z2Pos.id|]; lia.
Qed.

Lemma seconds_nearest t :
  guint64 t → nearest_binary64 t Gst_SECOND (seconds t).
Proof.
  intros [H0 H64]. apply py_truediv_nearest; [done|done|].
  change (Z.log2 Gst_SECOND) with 29.
  pose proof (Z.log2_nonneg t).
  destruct (Z.eq_dec t 0) as [->|Hne]; [simpl; lia|].
  assert (Z.log2 t < 64) by (apply Z.log2_lt_pow2; lia). lia.
Qed.

(** Scaling by one more binary digit at least doubles the scaled quotient. *)
Lemma scaling_monotone a b k k' :
  0 < a → 0 < b → k < k' →
  2 * ((a * 2 ^ Z.max k 0) * (b * 2 ^ Z.max (- k') 0))
  ≤ (a * 2 ^ Z.max k' 0) * (b * 2 ^ Z.max (- k) 0).
Proof.
  intros Ha Hb Hk.
  assert (2 * (2 ^ Z.max k 0 * 2 ^ Z.max (- k') 0) ≤ 2 ^ Z.max k' 0 * 2 ^ Z.max (- k) 0) as H.
  { rewrite <- !Z.pow_add_r by lia.
    replace (2 * 2 ^ (Z.max k 0 + Z.max (- k') 0))
      with (2 ^ (1 + (Z.max k 0 + Z.max (- k') 0)))
      by (rewrite Z.pow_add_r by lia; reflexivity).
    apply Z.pow_le_mono_r; lia. }
  replace (2 * (a * 2 ^ Z.max k 0 * (b * 2 ^ Z.max (- k') 0)))
    with (a * b * (2 * (2 ^ Z.max k 0 * 2 ^ Z.max (- k') 0))) by ring.
  replace (a * 2 ^ Z.max k' 0 * (b * 2 ^ Z.max (- k) 0))
    with (a * b * (2 ^ Z.max k' 0 * 2 ^ Z.max (- k) 0)) by ring.
  apply Z.mul_le_mono_nonneg_l; [nia|exact H].
Qed.

Lemma scaling_unique a b k k' :
  0 < a → 0 < b →
  2 ^ 52 * (b * 2 ^ Z.max (- k) 0) ≤ a * 2 ^ Z.max k 0 < 2 ^ 53 * (b * 2 ^ Z.max (- k) 0) →
  2 ^ 52 * (b * 2 ^ Z.max (- k') 0) ≤ a * 2 ^ Z.max k' 0 < 2 ^ 53 * (b * 2 ^ Z.max (- k') 0) →
  ¬ k < k'.
Proof.
  intros Ha Hb [Hlo _] [_ Hhi'] Hk.
  pose proof (scaling_monotone a b k k' Ha Hb Hk) as Hm.
  assert (0 < b * 2 ^ Z.max (- k) 0) as Hd.
  { apply Z.mul_pos_pos; [done|]. apply Z.pow_pos_nonneg; lia. }
  assert (0 < b * 2 ^ Z.max (- k') 0) as Hd'.
  { apply Z.mul_pos_pos; [done|]. apply Z.pow_pos_nonneg; lia. }
  set (n := a * 2 ^ Z.max k 0) in *. set (d := b * 2 ^ Z.max (- k) 0) in *.
  set (n' := a * 2 ^ Z.max k' 0) in *. set (d' := b * 2 ^ Z.max (- k') 0) in *.
  assert (2 ^ 53 * (d * d') ≤ 2 * (n * d')) as H1.
  { replace (2 ^ 53 * (d * d')) with (2 * (2 ^ 52 * d * d')) by ring.
    apply Z.mul_le_mono_nonneg_l; [lia|]. apply Z.mul_le_mono_nonneg_r; lia. }
  assert (n' * d < 2 ^ 53 * (d * d')) as H2.
  { replace (2 ^ 53 * (d * d')) with (2 ^ 53 * d' * d) by ring.
    apply Z.mul_lt_mono_pos_r; lia. }
  lia.
Qed.

Lemma nearest_integer_unique n d m m' :
  0 < d →
  2 * Z.abs (n - m * d) ≤ d → (2 * Z.abs (n - m * d) = d → Z.even m = true) →
  2 * Z.abs (n - m' * d) ≤ d → (2 * Z.abs (n - m' * d) = d → Z.even m' = true) →
  m = m'.
Proof.
  intros Hd H1 E1 H2 E2.
  assert (m = m' ∨ (m' = m + 1 ∧ 2 * Z.abs (n - m * d) = d ∧ 2 * Z.abs (n - m' * d) = d)
          ∨ (m = m' + 1 ∧ 2 * Z.abs (n - m * d) = d ∧ 2 * Z.abs (n - m' * d) = d))
    as [?|[(-> & T1 & T2)|(-> & T1 & T2)]] by nia; [done|..].
  - specialize (E1 T1). specialize (E2 T2). rewrite Z.even_add, E1 in E2. discriminate.
  - specialize (E1 T1). specialize (E2 T2). rewrite Z.even_add, E2 in E1. discriminate.
Qed.

(** The nearest binary64 number is one number: the relation determines the
    float. *)
Lemma nearest_binary64_unique a b f f' :
  0 ≤ a → 0 < b → nearest_binary64 a b f → nearest_binary64 a b f' → f = f'.
Proof.
  intros Ha Hb [[-> ->]|(k & r & m & e & Hr & Hn & He & Hme & Hf)]
               [[Ha0 ->]|(k' & r' & m' & e' & Hr' & Hn' & He' & Hme' & Hf')].
  - reflexivity.
  - exfalso. cbv zeta in Hr'. assert (0 < b * 2 ^ Z.max (- k') 0); [|lia].
    apply Z.mul_pos_pos; [done|]. apply Z.pow_pos_nonneg; lia.
  - exfalso. subst a. cbv zeta in Hr. assert (0 < b * 2 ^ Z.max (- k) 0); [|lia].
    apply Z.mul_pos_pos; [done|]. apply Z.pow_pos_nonneg; lia.
  - cbv zeta in *.
    assert (0 < a) as Ha'.
    { destruct (Z.eq_dec a 0) as [->|]; [|lia]. exfalso.
      assert (0 < b * 2 ^ Z.max (- k) 0); [|lia].
      apply Z.mul_pos_pos; [done|]. apply Z.pow_pos_nonneg; lia. }
    assert (k = k') as <-.
    { pose proof (scaling_unique a b k k' Ha' Hb Hr Hr').
      pose proof (scaling_unique a b k' k Ha' Hb Hr' Hr). lia. }
    assert (r = r') as <-.
    { eapply nearest_integer_unique; [|exact Hn|exact He|exact Hn'|exact He'].
      apply Z.mul_pos_pos; [done|]. apply Z.pow_pos_nonneg; lia. }
    assert (m = m' ∧ e = e') as [<- <-].
    { destruct Hme as [(? & ? & ?)|(? & ? & ?)], Hme' as [(? & ? & ?)|(? & ? & ?)];
        split; lia. }
    rewrite <- (SF2Prim_Prim2SF f), <- (SF2Prim_Prim2SF f'). by rewrite Hf, Hf'.
Qed.

(** The seconds of the specification's scenario, a clip of ten seconds that
    starts at zero, and of times up to the largest guint64: the floats are
    the ones Python prints for [t / Gst.SECOND]. *)
Example seconds_of_scenario :
  seconds 0 = 0%float ∧ seconds (10 * Gst_SECOND) = 10%float ∧
  seconds 1500000000 = 1.5%float ∧
  seconds 1 = 0x1.12e0be826d695p-30%float ∧
  seconds 999999999 = 0x1.fffffff768fa1p-1%float ∧
  seconds (2 ^ 53 + 1) = 0x1.12e0be826d695p+23%float ∧
  seconds (2 ^ 53 + 3) = 0x1.12e0be826d696p+23%float ∧
  seconds (2 ^ 63) = 0x1.12e0be826d695p+33%float ∧
  seconds (2 ^ 64 - 1) = 0x1.12e0be826d695p+34%float.
Proof. repeat split; vm_compute; reflexivity. Qed.

(** C9: [ClipAdded.asScenarioAction] returns no record while an interactive
    edit is in progress (the layer is being split, or the timeline's UI has
    an editing context); otherwise it returns an add-clip record with the
    clip name, the layer priority, the asset id, the type, and start, inpoint
    and duration as floats of seconds: for times that are guint64 values,
    each is the binary64 number nearest to the nanoseconds divided by
    [Gst.SECOND]. *)
Theorem C9_asScenarioAction (layer : layer_id) (clip : clip_id) (d : doc) :
  (in_progress_edit layer d → ClipAdded_asScenarioAction layer clip d = None) ∧
  (¬ in_progress_edit layer d →
   guint64 (clip_start (info d) clip) →
   guint64 (clip_in_point (info d) clip) →
   guint64 (clip_duration (info d) clip) →
   ∃ start inpoint duration : float,
     ClipAdded_asScenarioAction layer clip d
     = Some (GstStructure "add-clip"
         [("name", GString (get_name clip d));
          ("layer-priority", GInt (get_priority layer d));
          ("asset-id", GString (clip_asset_id (info d) clip));
          ("type", GString (clip_type_name (info d) clip));
          ("start", GDouble start);
          ("inpoint", GDouble inpoint);
          ("duration", GDouble duration)]) ∧
     nearest_binary64 (clip_start (info d) clip) Gst_SECOND start ∧
     nearest_binary64 (clip_in_point (info d) clip) Gst_SECOND inpoint ∧
     nearest_binary64 (clip_duration (info d) clip) Gst_SECOND duration).
Proof.
  split.
  - unfold in_progress_edit, ClipAdded_asScenarioAction.
    rewrite <- is_splitting_true, <- is_editing_true.
    destruct (is_splitting layer d), (is_editing layer d); try done;
      intros H; destruct H; discriminate.
  - intros Hidle Hstart Hinpoint Hduration.
    exists (seconds (clip_start (info d) clip)), (seconds (clip_in_point (info d) clip)),
           (seconds (clip_duration (info d) clip)).
    split; [|by auto using seconds_nearest].
    revert Hidle. unfold in_progress_edit, ClipAdded_asScenarioAction.
    rewrite <- is_splitting_true, <- is_editing_true.
    destruct (is_splitting layer d), (is_editing layer d); try done;
      intros H; exfalso; apply H; auto.
Qed.

Lemma C9_asScenarioAction_witness :
  ClipAdded_asScenarioAction 1%positive 2%positive dragging_doc = None ∧
  (∃ start inpoint duration : float,
     ClipAdded_asScenarioAction 1%positive 2%positive sample_doc
     = Some (GstStructure "add-clip"
         [("name", GString "uriclip0"); ("layer-priority", GInt 0);
          ("asset-id", GString "file:///clip.ogv"); ("type", GString "GESUriClip");
          ("start", GDouble start); ("inpoint", GDouble inpoint);
          ("duration", GDouble duration)]) ∧
     nearest_binary64 5 Gst_SECOND start ∧
     nearest_binary64 0 Gst_SECOND inpoint ∧
     nearest_binary64 10 Gst_SECOND duration) ∧
  ClipAdded_asScenarioAction 1%positive 2%positive sample_doc
  = Some (GstStructure "add-clip"
      [("name", GString "uriclip0"); ("layer-priority", GInt 0);
       ("asset-id", GString "file:///clip.ogv"); ("type", GString "GESUriClip");
       ("start", GDouble 0x1.5798ee2308c3ap-28%float);
       ("inpoint", GDouble 0%float);
       ("duration", GDouble 0x1.5798ee2308c3ap-27%float)]).
Proof.
  split; [|split].
  - apply (C9_asScenarioAction 1%positive 2%positive dragging_doc).
    right. split; [vm_compute; left|]. by exists (TimelineUi (Some 1%positive)), 1%positive.
  - apply (C9_asScenarioAction 1%positive 2%positive sample_doc).
    + intros [H|(_ & ui & ctx & H1 & H2)]; [discriminate H|].
      injection H1 as <-. discriminate H2.
    + by vm_compute.
    + by vm_compute.
    + by vm_compute.
  - vm_compute. reflexivity.
Defined.

(** ** The keyframe-removed notification *)

Lemma snapshot_of_insert t v m :
  snapshot_of (<[t := v]> m) = <[t := (t, v)]> (snapshot_of m).
Proof. unfold snapshot_of. by apply map_imap_insert_Some. Qed.

Lemma snapshot_of_delete t m :
  snapshot_of (delete t m) = delete t (snapshot_of m).
Proof. unfold snapshot_of. apply map_imap_delete. Qed.

Lemma snapshot_of_lookup t m :
  snapshot_of m !! t = pair t <$> m !! t.
Proof. unfold snapshot_of. rewrite map_lookup_imap. by destruct (m !! t). Qed.

Lemma keyframe_removed_cb_known self cs kf w snapshot :
  cso_keyframes self !! timestamp kf = Some snapshot →
  keyframe_removed_cb self cs kf w
  = Ok (cso_set_keyframes (delete (timestamp kf) (cso_keyframes self)) self,
        pushed (KeyframeRemovedAction cs kf (cso_action_info self)) w).
Proof. intros Hs. unfold keyframe_removed_cb. by rewrite Hs. Qed.

(** A notification for a timestamp the snapshot does not have raises. *)
Lemma keyframe_removed_cb_unknown self cs kf w :
  cso_keyframes self !! timestamp kf = None →
  keyframe_removed_cb self cs kf w = Raise KeyError.
Proof. intros Hs. unfold keyframe_removed_cb. by rewrite Hs. Qed.

(** C5: on a keyframe-removed notification the ControlSourceObserver pushes
    one KeyframeRemovedAction that carries the (timestamp, value) pair its
    snapshot holds for the removed keyframe, and the timestamp is then gone
    from the snapshot.  The snapshot is the one of the control source before
    the removal and the notification delivers the removed keyframe.  The
    world the callback runs in is arbitrary: its control source may already
    be without the keyframe, the callback does not read it. *)
Theorem C5_keyframe_removed_carries_snapshot_pair
    (self : ControlSourceObserver) (cs : cs_id) (d : doc) (kf : keyframe) (w : world) :
  in_sync self cs d →
  get_all cs d !! timestamp kf = Some (value kf) →
  ∃ self' a,
    keyframe_removed_cb self cs kf w = Ok (self', pushed a w) ∧
    a = KeyframeRemovedAction cs kf (cso_action_info self) ∧
    carries_snapshot_pair self kf a ∧
    cso_keyframes self' = delete (timestamp kf) (cso_keyframes self) ∧
    cso_keyframes self' !! timestamp kf = None.
Proof.
  unfold in_sync. intros Hs Hkf.
  assert (cso_keyframes self !! timestamp kf = Some (timestamp kf, value kf)) as Hsnap.
  { by rewrite Hs, snapshot_of_lookup, Hkf. }
  eexists _, _. split; [by eapply keyframe_removed_cb_known|].
  split; [reflexivity|]. split; [|split].
  - by exists cs, kf, (cso_action_info self).
  - reflexivity.
  - simpl. apply lookup_delete_eq.
Qed.

Lemma C5_keyframe_removed_witness :
  let after_removal :=
    World (set_control_points {[ 1%positive := ∅ ]} sample_doc) [] [] 1%positive in
  ∃ self' w',
    keyframe_removed_cb sample_cs_observer 1%positive (Keyframe 5 (GDouble 1%float))
                        after_removal = Ok (self', w') ∧
    cso_keyframes self' !! 5 = None ∧
    w_log w' = [KeyframeRemovedAction 1%positive (Keyframe 5 (GDouble 1%float)) []].
Proof.
  intros after_removal.
  destruct (C5_keyframe_removed_carries_snapshot_pair
              sample_cs_observer 1%positive sample_doc (Keyframe 5 (GDouble 1%float))
              after_removal)
    as (self' & a & E & -> & _ & _ & Hgone).
  { vm_compute. reflexivity. }
  { reflexivity. }
  eexists _, _. split; [exact E|]. split; [exact Hgone|reflexivity].
Defined.

(** ** The property-changed notification *)

(** C6: a notification for a property that is on the denylist, or that a
    control binding drives, pushes nothing and leaves the snapshot as it is;
    for any other property, with a snapshotted value and a current value,
    exactly one TrackElementPropertyChanged with the two is pushed and the
    snapshot takes the current value. *)
Theorem C6_property_changed (PROPS_TO_IGNORE : list string)
    (self : TimelineElementObserver) (e : elem_id) (prop : pspec) (w : world) :
  (ignored PROPS_TO_IGNORE (pspec_name prop) = true ∨
   is_Some (get_control_binding e (child_property_name prop) (w_doc w)) →
   property_changed_cb PROPS_TO_IGNORE self e prop w = Ok (self, w)) ∧
  (ignored PROPS_TO_IGNORE (pspec_name prop) = false →
   get_control_binding e (child_property_name prop) (w_doc w) = None →
   ∀ old_value new_value,
     teo_properties self !! child_property_name prop = Some old_value →
     get_child_property e (child_property_name prop) (w_doc w) = Some new_value →
     property_changed_cb PROPS_TO_IGNORE self e prop w
     = Ok ({| teo_id := teo_id self;
              teo_ges_timeline_element := teo_ges_timeline_element self;
              teo_properties := <[child_property_name prop := new_value]>
                                  (teo_properties self) |},
           pushed (TrackElementPropertyChanged e (child_property_name prop)
                                               old_value new_value) w)).
Proof.
  split.
  - intros [Hi|[b Hb]]; unfold property_changed_cb.
    + by rewrite Hi.
    + destruct (ignored _ _); [done|].
      unfold bind, gets. by rewrite Hb.
  - intros Hi Hb old_value new_value Hold Hnew. unfold property_changed_cb.
    rewrite Hi. unfold bind, gets. by rewrite Hb, Hold, Hnew.
Qed.

Lemma C6_property_changed_witness :
  let scratch := PSpec "GstAgingTv" "scratch-lines" true in
  property_changed_cb sample_PROPS_TO_IGNORE sample_effect_observer 2%positive
                      (PSpec "GstAgingTv" "name" true) sample_world
  = Ok (sample_effect_observer, sample_world) ∧
  property_changed_cb sample_PROPS_TO_IGNORE sample_effect_observer 2%positive
                      scratch sample_world
  = Ok ({| teo_id := 1%positive; teo_ges_timeline_element := Some 2%positive;
           teo_properties := <["GstAgingTv::scratch-lines" := GInt 7]>
                               (teo_properties sample_effect_observer) |},
        pushed (TrackElementPropertyChanged 2%positive "GstAgingTv::scratch-lines"
                                            (GInt 3) (GInt 7)) sample_world).
Proof.
  intros scratch. split.
  - apply (C6_property_changed sample_PROPS_TO_IGNORE sample_effect_observer 2%positive
             (PSpec "GstAgingTv" "name" true) sample_world).
    left. reflexivity.
  - apply (C6_property_changed sample_PROPS_TO_IGNORE sample_effect_observer 2%positive
             scratch sample_world); reflexivity.
Defined.

(** ** Detaching what is not attached *)

(** C8, as the code has it: detaching a track element that has no control
    binding and no registered observer returns and leaves the layer observer
    and the world as they were; detaching a control binding whose control
    source has no observer in [keyframe_observers] raises KeyError. *)
Theorem C8_detach_absent (self : LayerObserver) (w : world) :
  (∀ track_element,
     elem_bindings (info (w_doc w)) track_element = [] →
     lo_track_element_observers self !! track_element = None →
     disconnectFromTrackElement self track_element w = Ok (self, w)) ∧
  (∀ b,
     lo_keyframe_observers self !! control_source b = None →
     disconnectFromControlSource self b w = Raise KeyError).
Proof.
  split.
  - intros te Hb Ho. unfold disconnectFromTrackElement, bind, gets.
    rewrite Hb. simpl. unfold ret. by rewrite Ho.
  - intros b Ho. unfold disconnectFromControlSource. by rewrite Ho.
Qed.

(** C8, as the specification states it, fails: once a release has removed
    the observer of a control source, detaching the binding again raises. *)
Lemma C8_detach_twice_counterexample :
  let b := Binding "volume" 1%positive in
  ∃ lo1 w1 lo2 w2,
    connectToControlSource bare_layer_observer 5%positive b sample_world = Ok (lo1, w1) ∧
    disconnectFromControlSource lo1 b w1 = Ok (lo2, w2) ∧
    disconnectFromControlSource lo2 b w2 = Raise KeyError.
Proof.
  intros b.
  destruct (connectToControlSource bare_layer_observer 5%positive b sample_world)
    as [[lo1 w1]|] eqn:E1; [|by vm_compute in E1].
  destruct (disconnectFromControlSource lo1 b w1) as [[lo2 w2]|] eqn:E2.
  - exists lo1, w1, lo2, w2. split; [done|]. split; [done|].
    vm_compute in E1. injection E1 as <- <-.
    vm_compute in E2. injection E2 as <- <-.
    vm_compute. reflexivity.
  - vm_compute in E1. injection E1 as <- <-. by vm_compute in E2.
Qed.

Lemma C8_detach_absent_witness :
  disconnectFromTrackElement bare_layer_observer 3%positive sample_world
  = Ok (bare_layer_observer, sample_world) ∧
  disconnectFromControlSource bare_layer_observer (Binding "volume" 1%positive) sample_world
  = Raise KeyError.
Proof.
  destruct (C8_detach_absent bare_layer_observer sample_world) as [H1 H2].
  split; [apply H1|apply H2]; reflexivity.
Defined.

(** ** Removing a layer *)

(** [__layer_removed_cb] pushes the action and touches neither the layer
    observers nor the handlers. *)
Lemma layer_removed_cb_releases_nothing (self : TimelineObserver) (l : layer_id) (w : world) :
  layer_removed_cb self l w = Ok (self, pushed (LayerRemoved l) w).
Proof. reflexivity. Qed.

(** C3 fails on the code for layers.  The timeline of the sample is
    observed, its layer is removed and the notification is delivered: the
    layer observer is still registered and its three callbacks are still
    connected to the removed layer.  When the layer comes back (the undo of
    LayerRemoved) a second observer is connected next to the first. *)
Theorem C3_removed_layer_keeps_its_observer :
  ∃ self w lo self' w',
    TimelineObserver_init sample_PROPS_TO_IGNORE sample_world = Ok (self, w) ∧
    to_layer_observers self !! 1%positive = Some lo ∧
    layer_removed_cb self 1%positive
      (with_doc (set_timeline_layers []) w) = Ok (self', w') ∧
    to_layer_observers self' !! 1%positive = Some lo ∧
    map h_callback (handlers_of (OLayer 1%positive) (lo_id lo) w')
    = ["_clipAddedCb"; "_clipRemovedCb"; "__layer_moved_cb"] ∧
    ∃ self'' w'',
      layer_added_cb sample_PROPS_TO_IGNORE self' 1%positive
        (with_doc (set_timeline_layers [1%positive]) w') = Ok (self'', w'') ∧
      length (List.filter (λ h, bool_decide (h_object h = OLayer 1%positive)
                                && String.eqb (h_callback h) "_clipAddedCb")
                          (w_handlers w'')) = 2%nat.
Proof.
  destruct (TimelineObserver_init sample_PROPS_TO_IGNORE sample_world)
    as [[self w]|] eqn:E; [|by vm_compute in E].
  vm_compute in E. injection E as <- <-.
  eexists _, _, _, _, _. split; [reflexivity|].
  split; [vm_compute; reflexivity|].
  split; [apply layer_removed_cb_releases_nothing|].
  split; [vm_compute; reflexivity|].
  split; [vm_compute; reflexivity|].
  match goal with
  | |- ∃ _ _, ?m = _ ∧ _ => destruct m as [[self'' w'']|] eqn:E2; [|by vm_compute in E2]
  end.
  exists self'', w''. split; [reflexivity|].
  vm_compute in E2. injection E2 as <- <-. vm_compute. reflexivity.
Qed.

(** The sibling path: when a clip is removed from its layer the observer of
    the clip is released and none of the layer observer's callbacks stays
    connected to the clip. *)
Lemma removed_clip_is_released :
  ∃ lo w lo' w',
    LayerObserver_init sample_PROPS_TO_IGNORE 1%positive sample_world = Ok (lo, w) ∧
    is_Some (lo_clip_observers lo !! 2%positive) ∧
    clipRemovedCb lo 1%positive 2%positive w = Ok (lo', w') ∧
    lo_clip_observers lo' !! 2%positive = None ∧
    List.filter (λ h, bool_decide (h_object h = OClip 2%positive)) (w_handlers w') = [].
Proof.
  destruct (LayerObserver_init sample_PROPS_TO_IGNORE 1%positive sample_world)
    as [[lo w]|] eqn:E; [|by vm_compute in E].
  destruct (clipRemovedCb lo 1%positive 2%positive w) as [[lo' w']|] eqn:E2.
  - exists lo, w, lo', w'. split; [done|].
    vm_compute in E. injection E as <- <-.
    vm_compute in E2. injection E2 as <- <-.
    split; [by eexists|]. split; [done|]. split; vm_compute; reflexivity.
  - vm_compute in E. injection E as <- <-. by vm_compute in E2.
Qed.

(** ** What observing an existing timeline pushes *)

Lemma step_refl w : step w w.
Proof. by repeat split. Qed.

Lemma step_trans w1 w2 w3 : step w1 w2 → step w2 w3 → step w1 w3.
Proof.
  intros (D1 & L1 & C1 & H1) (D2 & L2 & C2 & H2).
  repeat split; [congruence..|]. intros h Hh. by apply H2, H1.
Qed.

Lemma steady_ret {A} d (a : A) (Q : A → Prop) : Q a → steady d (ret a) Q.
Proof. intros HQ w Hw. exists a, w. split; [done|]. split; [apply step_refl|done]. Qed.

Lemma steady_bind {A B} d (m : M world A) (k : A → M world B) (Q1 : A → Prop) (Q2 : B → Prop) :
  steady d m Q1 → (∀ a, Q1 a → steady d (k a) Q2) → steady d (bind m k) Q2.
Proof.
  intros Hm Hk w Hw. destruct (Hm w Hw) as (a & w1 & E1 & S1 & HQ1).
  assert (w_doc w1 = d) as Hw1 by (destruct S1 as [-> _]; done).
  destruct (Hk a HQ1 w1 Hw1) as (b & w2 & E2 & S2 & HQ2).
  exists b, w2. rewrite (bind_Ok _ _ _ _ _ E1). split; [done|].
  split; [by eapply step_trans|done].
Qed.

Lemma steady_weaken {A} d (m : M world A) (Q Q' : A → Prop) :
  steady d m Q → (∀ a, Q a → Q' a) → steady d m Q'.
Proof.
  intros Hm HQ w Hw. destruct (Hm w Hw) as (a & w' & E & S & H).
  exists a, w'. auto.
Qed.

Lemma steady_gets_doc {A} d (k : doc → M world A) (Q : A → Prop) :
  steady d (k d) Q → steady d (bind (gets w_doc) k) Q.
Proof. intros Hk w Hw. unfold bind, gets. rewrite Hw. by apply Hk. Qed.

Lemma steady_new_observer d : steady d new_observer (λ _, True).
Proof.
  intros w Hw. eexists _, _. split; [reflexivity|]. split; [|done]. by repeat split.
Qed.

Lemma steady_connect d o signal self callback :
  steady d (connect o signal self callback) (λ _, True).
Proof.
  intros w Hw. eexists _, _. split; [reflexivity|]. split; [|done].
  repeat split; try done. simpl. intros h Hh. apply elem_of_app. by left.
Qed.

Lemma steady_push d a :
  match a with LayerAdded _ | ClipAdded _ _ => False | _ => True end →
  steady d (push a) (λ _, True).
Proof.
  intros Ha w Hw. eexists _, _. split; [reflexivity|]. split; [|done].
  unfold step, layers_added, clips_added. simpl. rewrite !omap_app. simpl.
  destruct a; try done; by rewrite !app_nil_r.
Qed.

Lemma steady_for_each {A} d (l : list A) (body : A → M world unit) :
  (∀ x, steady d (body x) (λ _, True)) → steady d (for_each l body) (λ _, True).
Proof.
  intros H. induction l as [|x l IH]; simpl.
  - by apply steady_ret.
  - eapply steady_bind; [apply H|]. intros _ _. apply IH.
Qed.

Lemma steady_fold_each {A B} d (l : list A) (body : B → A → M world B) (I : B → Prop) b :
  (∀ b x, x ∈ l → I b → steady d (body b x) I) → I b → steady d (fold_each l body b) I.
Proof.
  revert b. induction l as [|x l IH]; intros b H Hb; simpl.
  - by apply steady_ret.
  - eapply steady_bind; [apply H; [apply list_elem_of_here|done]|].
    intros b' Hb'. apply IH; [|done].
    intros b'' y Hy. apply H. by apply list_elem_of_further.
Qed.

Lemma steady_GObjectObserver_init d o names :
  steady d (GObjectObserver_init o names) (λ _, True).
Proof.
  unfold GObjectObserver_init.
  eapply steady_bind; [apply steady_new_observer|]. intros self _.
  apply steady_gets_doc.
  eapply steady_bind; [apply steady_for_each; intros; apply steady_connect|].
  intros _ _. by apply steady_ret.
Qed.

Lemma steady_ControlSourceObserver_init d cs action_info :
  steady d (ControlSourceObserver_init cs action_info) (λ _, True).
Proof.
  unfold ControlSourceObserver_init.
  eapply steady_bind; [apply steady_new_observer|]. intros self _.
  apply steady_gets_doc.
  do 3 (eapply steady_bind; [apply steady_connect|]; intros _ _).
  by apply steady_ret.
Qed.

Section Observing.

Variable PROPS_TO_IGNORE : list string.
Variable d : doc.
Hypothesis Hreadable : readable PROPS_TO_IGNORE d.

Lemma steady_TimelineElementObserver_init e :
  steady d (TimelineElementObserver_init PROPS_TO_IGNORE e) (λ _, True).
Proof.
  unfold TimelineElementObserver_init.
  eapply steady_bind; [apply steady_new_observer|]. intros self _.
  apply steady_gets_doc.
  eapply steady_bind with (Q1 := λ _, True).
  - apply steady_fold_each; [|done]. intros props prop Hin _.
    destruct (ignored PROPS_TO_IGNORE (pspec_name prop)) eqn:Hi; [by apply steady_ret|].
    destruct (Hreadable e prop Hin Hi) as [v ->]. by apply steady_ret.
  - intros props _. eapply steady_bind; [apply steady_connect|]. intros _ _.
    by apply steady_ret.
Qed.

Lemma steady_connectToControlSource self te b :
  steady d (connectToControlSource self te b) (λ lo, lo_id lo = lo_id self).
Proof.
  unfold connectToControlSource. apply steady_gets_doc.
  eapply steady_bind; [apply steady_ControlSourceObserver_init|]. intros o _.
  by apply steady_ret.
Qed.

Lemma steady_connectToTrackElement self te :
  steady d (connectToTrackElement PROPS_TO_IGNORE self te) (λ lo, lo_id lo = lo_id self).
Proof.
  unfold connectToTrackElement. apply steady_gets_doc.
  destruct (is_VideoTransition (elem_class_of (info d) te)).
  - eapply steady_bind; [by apply steady_push|]. intros _ _.
    eapply steady_bind; [apply steady_GObjectObserver_init|]. intros o _.
    by apply steady_ret.
  - eapply steady_bind with (Q1 := λ lo, lo_id lo = lo_id self).
    + apply steady_fold_each; [|done]. intros lo pb _ Hlo.
      eapply steady_weaken; [apply steady_connectToControlSource|].
      intros lo' ->. exact Hlo.
    + intros lo Hlo. eapply steady_bind; [apply steady_connect|]. intros _ _.
      destruct (_ || _).
      * eapply steady_bind; [apply steady_TimelineElementObserver_init|]. intros o _.
        by apply steady_ret.
      * by apply steady_ret.
Qed.

(** After [_connectToClip] the layer observer is subscribed to the clip. *)
Lemma connectToClip_subscribes self c w :
  w_doc w = d →
  ∃ lo w', connectToClip PROPS_TO_IGNORE self c w = Ok (lo, w') ∧ step w w' ∧
           lo_id lo = lo_id self ∧ clip_subscription (lo_id self) c ∈ w_handlers w'.
Proof.
  intros Hw. unfold connectToClip.
  set (w1 := World (w_doc w) (w_log w)
                   (w_handlers w ++ [clip_subscription (lo_id self) c])
                   (w_next_observer w)).
  assert (step w w1) as S1.
  { repeat split; try done. simpl. intros h Hh. apply elem_of_app. by left. }
  rewrite (bind_Ok (connect (OClip c) "child-added" (lo_id self)
                            "_clipTrackElementAddedCb") _ w tt w1 eq_refl).
  match goal with
  | |- ∃ lo w', ?m w1 = _ ∧ _ =>
      assert (steady d m (λ lo, lo_id lo = lo_id self)) as Hrest
  end.
  { eapply steady_bind; [apply steady_connect|]. intros _ _.
    apply steady_gets_doc.
    eapply steady_bind with (Q1 := λ lo, lo_id lo = lo_id self).
    - apply steady_fold_each; [|done]. intros lo te _ Hlo.
      eapply steady_weaken; [apply steady_connectToTrackElement|].
      intros lo' ->. exact Hlo.
    - intros lo Hlo. destruct (is_TransitionClip _); [by apply steady_ret|].
      eapply steady_bind; [apply steady_GObjectObserver_init|]. intros o _.
      by apply steady_ret. }
  destruct (Hrest w1 Hw) as (lo & w' & E & S2 & Hlo).
  exists lo, w'. split; [exact E|]. split; [by eapply step_trans|]. split; [done|].
  destruct S2 as (_ & _ & _ & Hh). apply Hh. simpl.
  apply elem_of_app. right. apply list_elem_of_here.
Qed.

Lemma fold_connectToClip_subscribes clips self w :
  w_doc w = d →
  ∃ lo w', fold_each clips (connectToClip PROPS_TO_IGNORE) self w = Ok (lo, w') ∧
           step w w' ∧ lo_id lo = lo_id self ∧
           ∀ c, c ∈ clips → clip_subscription (lo_id self) c ∈ w_handlers w'.
Proof.
  revert self w. induction clips as [|c clips IH]; intros self w Hw; simpl.
  - exists self, w. split; [done|]. split; [apply step_refl|]. split; [done|].
    intros c Hc. by apply elem_of_nil in Hc.
  - destruct (connectToClip_subscribes self c w Hw) as (lo1 & w1 & E1 & S1 & Hid1 & Hsub1).
    assert (w_doc w1 = d) as Hw1 by (destruct S1 as [-> _]; done).
    destruct (IH lo1 w1 Hw1) as (lo2 & w2 & E2 & S2 & Hid2 & Hsub2).
    exists lo2, w2. rewrite (bind_Ok _ _ _ _ _ E1). split; [done|].
    split; [by eapply step_trans|]. split; [congruence|].
    intros c' Hc'. apply elem_of_cons in Hc' as [->|Hc'].
    + destruct S2 as (_ & _ & _ & Hh). by apply Hh.
    + rewrite <- Hid1. by apply Hsub2.
Qed.

(** Observing a layer: nothing about layers or clips is pushed, and the new
    observer is subscribed to every clip the layer has. *)
Lemma LayerObserver_init_quiet l w :
  w_doc w = d →
  ∃ lo w', LayerObserver_init PROPS_TO_IGNORE l w = Ok (lo, w') ∧ step w w' ∧
           ∀ c, c ∈ get_clips l d → clip_subscription (lo_id lo) c ∈ w_handlers w'.
Proof.
  intros Hw. unfold LayerObserver_init, MetaContainerObserver_init.
  destruct (steady_new_observer d w Hw) as (self & w1 & E1 & S1 & _).
  rewrite (bind_Ok _ _ _ _ _ E1).
  assert (w_doc w1 = d) as Hw1 by (destruct S1 as [-> _]; done).
  rewrite (bind_Ok _ _ w1 tt w1 eq_refl).
  rewrite (bind_Ok _ _ w1 d w1) by (unfold gets; by rewrite Hw1).
  destruct (steady_connect d (OLayer l) "clip-added" self "_clipAddedCb" w1 Hw1)
    as ([] & w2 & E2 & S2 & _).
  rewrite (bind_Ok _ _ _ _ _ E2).
  assert (w_doc w2 = d) as Hw2 by (destruct S2 as [-> _]; done).
  destruct (steady_connect d (OLayer l) "clip-removed" self "_clipRemovedCb" w2 Hw2)
    as ([] & w3 & E3 & S3 & _).
  rewrite (bind_Ok _ _ _ _ _ E3).
  assert (w_doc w3 = d) as Hw3 by (destruct S3 as [-> _]; done).
  destruct (steady_connect d (OLayer l) "notify::priority" self "__layer_moved_cb" w3 Hw3)
    as ([] & w4 & E4 & S4 & _).
  rewrite (bind_Ok _ _ _ _ _ E4).
  assert (w_doc w4 = d) as Hw4 by (destruct S4 as [-> _]; done).
  destruct (fold_connectToClip_subscribes (get_clips l d)
              {| lo_id := self; lo_priority := get_priority l d;
                 lo_keyframe_observers := ∅; lo_track_element_observers := ∅;
                 lo_clip_observers := ∅ |} w4 Hw4) as (lo & w5 & E5 & S5 & Hid & Hsub).
  exists lo, w5. split; [exact E5|].
  split; [eauto using step_trans|]. intros c Hc. rewrite Hid. by apply Hsub.
Qed.

(** Connecting to a layer pushes its LayerAdded and nothing about clips. *)
Lemma connect_to_layer_pushes self l w :
  w_doc w = d →
  ∃ self' w', connect_to_layer PROPS_TO_IGNORE self l w = Ok (self', w') ∧
              w_doc w' = d ∧ to_id self' = to_id self ∧
              layers_added (w_log w') = layers_added (w_log w) ++ [l] ∧
              clips_added (w_log w') = clips_added (w_log w).
Proof.
  intros Hw. unfold connect_to_layer.
  rewrite (bind_Ok _ _ w tt (pushed (LayerAdded l) w) eq_refl).
  destruct (LayerObserver_init_quiet l (pushed (LayerAdded l) w) Hw)
    as (lo & w' & E & (D & L & C & _) & _).
  exists {| to_id := to_id self;
            to_layer_observers := <[l := lo]> (to_layer_observers self) |}, w'.
  rewrite (bind_Ok _ _ _ _ _ E). split; [done|].
  split; [by rewrite D|]. split; [done|].
  rewrite L, C. unfold layers_added, clips_added. simpl.
  by rewrite !omap_app, app_nil_r.
Qed.

Lemma fold_connect_to_layer_pushes layers self w :
  w_doc w = d →
  ∃ self' w', fold_each layers (connect_to_layer PROPS_TO_IGNORE) self w = Ok (self', w') ∧
              w_doc w' = d ∧ to_id self' = to_id self ∧
              layers_added (w_log w') = layers_added (w_log w) ++ layers ∧
              clips_added (w_log w') = clips_added (w_log w).
Proof.
  revert self w. induction layers as [|l layers IH]; intros self w Hw; simpl.
  - exists self, w. by rewrite app_nil_r.
  - destruct (connect_to_layer_pushes self l w Hw) as (s1 & w1 & E1 & D1 & I1 & L1 & C1).
    destruct (IH s1 w1 D1) as (s2 & w2 & E2 & D2 & I2 & L2 & C2).
    exists s2, w2. rewrite (bind_Ok _ _ _ _ _ E1). split; [done|].
    split; [done|]. split; [congruence|].
    rewrite L2, L1, C2, C1. by rewrite <- app_assoc.
Qed.

End Observing.

(** C10: on a document whose child properties can be read, constructing a
    TimelineObserver returns and pushes one LayerAdded for every layer the
    timeline already has, in order, and no ClipAdded; constructing a
    LayerObserver returns, pushes neither a LayerAdded nor a ClipAdded, and
    leaves the observer subscribed to every clip the layer already has. *)
Theorem C10_observing_pushes_layers_not_clips (PROPS_TO_IGNORE : list string) (w : world) :
  readable PROPS_TO_IGNORE (w_doc w) →
  (∃ self w', TimelineObserver_init PROPS_TO_IGNORE w = Ok (self, w') ∧
              w_doc w' = w_doc w ∧
              layers_added (w_log w')
              = layers_added (w_log w) ++ timeline_layers (w_doc w) ∧
              clips_added (w_log w') = clips_added (w_log w)) ∧
  (∀ l, ∃ lo w', LayerObserver_init PROPS_TO_IGNORE l w = Ok (lo, w') ∧
                 w_doc w' = w_doc w ∧
                 layers_added (w_log w') = layers_added (w_log w) ∧
                 clips_added (w_log w') = clips_added (w_log w) ∧
                 ∀ c, c ∈ get_clips l (w_doc w) →
                      clip_subscription (lo_id lo) c ∈ w_handlers w').
Proof.
  intros Hr. split.
  - unfold TimelineObserver_init.
    destruct (steady_new_observer (w_doc w) w eq_refl)
      as (self & w1 & E1 & (D1 & L1 & C1 & _) & _).
    rewrite (bind_Ok _ _ _ _ _ E1).
    rewrite (bind_Ok _ _ w1 (w_doc w) w1) by (unfold gets; by rewrite D1).
    destruct (fold_connect_to_layer_pushes PROPS_TO_IGNORE (w_doc w) Hr
                (timeline_layers (w_doc w))
                {| to_id := self; to_layer_observers := ∅ |} w1 D1)
      as (s2 & w2 & E2 & D2 & I2 & L2 & C2).
    rewrite (bind_Ok _ _ _ _ _ E2).
    eexists _, _. split; [reflexivity|]. simpl.
    split; [done|]. split; congruence.
  - intros l.
    destruct (LayerObserver_init_quiet PROPS_TO_IGNORE (w_doc w) Hr l w eq_refl)
      as (lo & w' & E & (D & L & C & _) & Hsub).
    exists lo, w'. by repeat split.
Qed.

Lemma C10_observing_witness :
  ∃ self w', TimelineObserver_init sample_PROPS_TO_IGNORE sample_world = Ok (self, w') ∧
             layers_added (w_log w') = [1%positive] ∧ clips_added (w_log w') = [].
Proof.
  destruct (C10_observing_pushes_layers_not_clips sample_PROPS_TO_IGNORE sample_world)
    as [(self & w' & E & _ & L & C) _].
  { intros e prop Hin Hi.
    assert (e = 2%positive) as ->.
    { destruct e as [[e|e|]|[e|e|]|]; try done; simpl in Hin;
        by apply elem_of_nil in Hin. }
    simpl in Hin. apply elem_of_cons in Hin as [->|Hin]; [by eexists|].
    apply elem_of_cons in Hin as [->|Hin]; [discriminate Hi|by apply elem_of_nil in Hin]. }
  exists self, w'. split; [exact E|]. split; [exact L|exact C].
Defined.

(** * Further properties of the module *)

(** ** The keyframe snapshot *)

Lemma cs_set_inv cs t v d d' :
  cs_set cs t v d = Ok (tt, d') →
  d' = set_control_points (<[cs := <[t := v]> (get_all cs d)]> (control_points d)) d.
Proof. by intros [= <-]. Qed.

Lemma cs_unset_inv cs t d d' :
  cs_unset cs t d = Ok (tt, d') →
  d' = set_control_points (<[cs := delete t (get_all cs d)]> (control_points d)) d.
Proof. by intros [= <-]. Qed.

(** X1: the snapshot of a ControlSourceObserver follows its control source.
    The constructor takes the snapshot of the keyframes the control source
    has and pushes nothing; when the control source is changed with [set] or
    [unset] and the matching notification is delivered, the callback returns
    and the snapshot is the one of the changed control source. *)
Theorem X1_snapshot_follows_control_source
    (self : ControlSourceObserver) (cs : cs_id) (d : doc) (w : world) (kf : keyframe) :
  (∀ action_info, ∃ self0 w0,
      ControlSourceObserver_init cs action_info w = Ok (self0, w0) ∧
      in_sync self0 cs (w_doc w) ∧ w_log w0 = w_log w) ∧
  (in_sync self cs d →
   (∀ d', cs_set cs (timestamp kf) (value kf) d = Ok (tt, d') →
          ∃ self' w', keyframe_added_cb self cs kf w = Ok (self', w') ∧
                      in_sync self' cs d') ∧
   (∀ d', cs_set cs (timestamp kf) (value kf) d = Ok (tt, d') →
          is_Some (get_all cs d !! timestamp kf) →
          ∃ self' w', keyframe_moved_cb self cs kf w = Ok (self', w') ∧
                      in_sync self' cs d') ∧
   (∀ d', cs_unset cs (timestamp kf) d = Ok (tt, d') →
          is_Some (get_all cs d !! timestamp kf) →
          ∃ self' w', keyframe_removed_cb self cs kf w = Ok (self', w') ∧
                      in_sync self' cs d')).
Proof.
  split.
  - intros action_info. eexists _, _. split; [reflexivity|]. by split.
  - unfold in_sync. intros Hs. split; [|split].
    + intros d' ->%cs_set_inv. eexists _, _. split; [reflexivity|].
      simpl. rewrite get_all_cs_set, snapshot_of_insert. by rewrite Hs.
    + intros d' ->%cs_set_inv [old Hold].
      unfold keyframe_moved_cb. rewrite Hs, snapshot_of_lookup, Hold. simpl.
      eexists _, _. split; [reflexivity|].
      simpl. by rewrite get_all_cs_set, snapshot_of_insert.
    + intros d' ->%cs_unset_inv [old Hold].
      unfold keyframe_removed_cb. rewrite Hs, snapshot_of_lookup, Hold. simpl.
      eexists _, _. split; [reflexivity|].
      simpl. by rewrite get_all_cs_unset, snapshot_of_delete.
Qed.

Lemma X1_snapshot_witness :
  ∃ self0 w0 self' w',
    ControlSourceObserver_init 1%positive [] sample_world = Ok (self0, w0) ∧
    keyframe_moved_cb self0 1%positive (Keyframe 5 (GDouble 2%float)) w0 = Ok (self', w') ∧
    cso_keyframes self' !! 5 = Some (5, GDouble 2%float).
Proof.
  destruct (X1_snapshot_follows_control_source
              sample_cs_observer 1%positive sample_doc sample_world
              (Keyframe 5 (GDouble 2%float))) as [Hinit _].
  destruct (Hinit []) as (self0 & w0 & E0 & Hs0 & _).
  destruct (X1_snapshot_follows_control_source
              self0 1%positive sample_doc w0 (Keyframe 5 (GDouble 2%float)))
    as [_ Hcb].
  destruct (Hcb Hs0) as (_ & Hmoved & _).
  destruct (Hmoved _ eq_refl) as (self' & w' & E & Hs'); [by eexists|].
  exists self0, w0, self', w'. split; [exact E0|]. split; [exact E|].
  rewrite Hs'. vm_compute. reflexivity.
Defined.

(** ** The recorded actions undo what was observed *)

(** X2: the action a ControlSourceObserver records undoes the change it
    observed.  For an observer whose snapshot follows the control source: a
    keyframe added at a free timestamp, the value of a keyframe changed, or a
    keyframe removed (the notification delivering the removed keyframe) is
    recorded as one action, and [undo] of that action on the changed document
    gives back the keyframes, and every other tracked field, of the document
    before the change. *)
Theorem X2_recorded_keyframe_action_undoes_the_change
    (self : ControlSourceObserver) (cs : cs_id) (d : doc) (w : world)
    (t : Z) (v : gvalue) :
  in_sync self cs d →
  (get_all cs d !! t = None →
   ∀ d', cs_set cs t v d = Ok (tt, d') →
     ∃ self' w' a, keyframe_added_cb self cs (Keyframe t v) w = Ok (self', w') ∧
                   w_log w' = w_log w ++ [a] ∧
                   ∃ d2, undo a d' = Ok (a, d2) ∧ obs_eq d2 d) ∧
  (∀ old, get_all cs d !! t = Some old →
   ∀ d', cs_set cs t v d = Ok (tt, d') →
     ∃ self' w' a, keyframe_moved_cb self cs (Keyframe t v) w = Ok (self', w') ∧
                   w_log w' = w_log w ++ [a] ∧
                   ∃ d2, undo a d' = Ok (a, d2) ∧ obs_eq d2 d) ∧
  (get_all cs d !! t = Some v →
   ∀ d', cs_unset cs t d = Ok (tt, d') →
     ∃ self' w' a, keyframe_removed_cb self cs (Keyframe t v) w = Ok (self', w') ∧
                   w_log w' = w_log w ++ [a] ∧
                   ∃ d2, undo a d' = Ok (a, d2) ∧ obs_eq d2 d).
Proof.
  unfold in_sync. intros Hs. split; [|split].
  - intros Hfree d' ->%cs_set_inv.
    eexists _, _, _. split; [reflexivity|]. split; [reflexivity|].
    eexists. split; [reflexivity|].
    eapply obs_eq_restore_keyframes; [reflexivity|].
    rewrite get_all_cs_set. simpl. rewrite insert_insert_eq.
    by rewrite (delete_insert_id _ _ _ Hfree).
  - intros old Hold d' ->%cs_set_inv.
    unfold keyframe_moved_cb. rewrite Hs, snapshot_of_lookup. simpl. rewrite Hold. simpl.
    eexists _, _, _. split; [reflexivity|]. split; [reflexivity|].
    eexists. split; [reflexivity|].
    eapply obs_eq_restore_keyframes; [reflexivity|].
    rewrite get_all_cs_set. simpl. rewrite !insert_insert_eq.
    by rewrite (insert_id _ _ _ Hold).
  - intros Hold d' ->%cs_unset_inv.
    unfold keyframe_removed_cb. rewrite Hs, snapshot_of_lookup. simpl. rewrite Hold. simpl.
    eexists _, _, _. split; [reflexivity|]. split; [reflexivity|].
    eexists. split; [reflexivity|].
    eapply obs_eq_restore_keyframes; [reflexivity|].
    rewrite get_all_cs_unset. simpl. rewrite insert_insert_eq.
    by rewrite (insert_delete_id _ _ _ Hold).
Qed.

Lemma X2_recorded_keyframe_action_witness :
  ∃ self' w' a d2,
    keyframe_removed_cb sample_cs_observer 1%positive (Keyframe 5 (GDouble 1%float))
                        sample_world = Ok (self', w') ∧
    w_log w' = [a] ∧
    undo a (set_control_points {[ 1%positive := ∅ ]} sample_doc) = Ok (a, d2) ∧
    obs_eq d2 sample_doc.
Proof.
  destruct (X2_recorded_keyframe_action_undoes_the_change
              sample_cs_observer 1%positive sample_doc sample_world 5 (GDouble 1%float))
    as (_ & _ & H).
  { vm_compute. reflexivity. }
  destruct (H eq_refl (set_control_points {[ 1%positive := ∅ ]} sample_doc))
    as (self' & w' & a & E & L & d2 & U & O).
  { vm_compute. reflexivity. }
  by exists self', w', a, d2.
Defined.

Lemma set_child_props_twice x y d :
  set_child_props x (set_child_props y d) = set_child_props x d.
Proof. reflexivity. Qed.

Lemma set_child_property_inv e name v old d d' :
  get_child_property e name d = Some old →
  set_child_property e name v d = Ok (tt, d') →
  d' = set_child_props (<[(e, name) := v]> (child_props d)) d.
Proof.
  unfold get_child_property. intros Hold.
  rewrite (set_child_property_some _ _ _ _ _ Hold). by intros [= <-].
Qed.

(** X4: the action a TimelineElementObserver records undoes the change it
    observed.  When a child property that is not on the denylist and has no
    control binding holds the snapshotted value, is written by
    [set_child_property] and the notification is delivered, the callback
    pushes one action and takes the new value into the snapshot; [undo] of
    the action gives back the document before the change and [do] gives the
    changed document again. *)
Theorem X4_recorded_property_change_undoes_the_change
    (PROPS_TO_IGNORE : list string) (self : TimelineElementObserver)
    (e : elem_id) (prop : pspec) (d : doc) (w : world) (old_value new_value : gvalue) :
  ignored PROPS_TO_IGNORE (pspec_name prop) = false →
  get_control_binding e (child_property_name prop) d = None →
  teo_properties self !! child_property_name prop = Some old_value →
  get_child_property e (child_property_name prop) d = Some old_value →
  set_child_property e (child_property_name prop) new_value d = Ok (tt, w_doc w) →
  ∃ self' w' a,
    property_changed_cb PROPS_TO_IGNORE self e prop w = Ok (self', w') ∧
    w_log w' = w_log w ++ [a] ∧
    teo_properties self' !! child_property_name prop = Some new_value ∧
    undo a (w_doc w) = Ok (a, d) ∧
    do a d = Ok (a, w_doc w).
Proof.
  intros Hi Hb Hsnap Hold Hset.
  pose proof (set_child_property_inv _ _ _ _ _ _ Hold Hset) as Hw.
  assert (get_control_binding e (child_property_name prop) (w_doc w) = None) as Hb'.
  { by rewrite Hw. }
  assert (get_child_property e (child_property_name prop) (w_doc w) = Some new_value) as Hnew.
  { rewrite Hw. unfold get_child_property. simpl. apply lookup_insert_eq. }
  unfold property_changed_cb. rewrite Hi. unfold bind at 1, gets at 1.
  rewrite Hb', Hsnap, Hnew.
  eexists _, _, _. split; [reflexivity|]. split; [reflexivity|].
  split; [simpl; apply lookup_insert_eq|]. split.
  - simpl. unfold get_child_property in Hnew.
    rewrite (bind_Ok _ _ _ _ _ (set_child_property_some _ _ _ _ _ Hnew)).
    unfold ret. rewrite Hw. simpl. rewrite insert_insert_eq.
    unfold get_child_property in Hold. rewrite (insert_id _ _ _ Hold).
    by rewrite set_child_props_twice, set_child_props_same.
  - simpl. unfold get_child_property in Hold.
    rewrite (bind_Ok _ _ _ _ _ (set_child_property_some _ _ _ _ _ Hold)).
    unfold ret. by rewrite Hw.
Qed.

Lemma X4_recorded_property_change_witness :
  let prop := PSpec "GstAgingTv" "scratch-lines" true in
  let d := set_child_props (<[(2%positive, "GstAgingTv::scratch-lines") := GInt 3]>
                              (child_props sample_doc)) sample_doc in
  ∃ self' w' a,
    property_changed_cb sample_PROPS_TO_IGNORE sample_effect_observer 2%positive prop
                        sample_world = Ok (self', w') ∧
    w_log w' = [a] ∧
    undo a sample_doc = Ok (a, d).
Proof.
  intros prop d.
  destruct (X4_recorded_property_change_undoes_the_change
              sample_PROPS_TO_IGNORE sample_effect_observer 2%positive prop d
              sample_world (GInt 3) (GInt 7))
    as (self' & w' & a & E & L & _ & U & _);
    try (vm_compute; reflexivity).
  by exists self', w', a.
Defined.

(** X5: the action a LayerObserver records for a move undoes the move.  When
    the shadow priority is the priority of the layer, the priority is written
    and the notification is delivered, the callback pushes LayerMoved with
    the old and the new priority and takes the new priority as its shadow;
    [undo] of the action gives back the priority, and every other tracked
    field, of the document before the move. *)
Theorem X5_recorded_layer_move_undoes_the_move
    (self : LayerObserver) (l : layer_id) (d : doc) (w : world) (p : Z) :
  lo_priority self = get_priority l d →
  set_priority l p d = Ok (tt, w_doc w) →
  ∃ self' w',
    layer_moved_cb self l w = Ok (self', w') ∧
    w_log w' = w_log w ++ [LayerMoved l (get_priority l d) p] ∧
    lo_priority self' = get_priority l (w_doc w) ∧
    ∃ d2, undo (LayerMoved l (get_priority l d) p) (w_doc w)
          = Ok (LayerMoved l (get_priority l d) p, d2) ∧
          obs_eq d2 d.
Proof.
  intros Hshadow [= Hw].
  assert (get_priority l (w_doc w) = p) as Hp.
  { rewrite <- Hw. unfold get_priority. simpl. by rewrite lookup_insert_eq. }
  unfold layer_moved_cb. rewrite (bind_Ok _ _ w (w_doc w) w eq_refl).
  cbv zeta. rewrite Hp, Hshadow.
  eexists _, _. split; [reflexivity|]. simpl.
  split; [reflexivity|]. split; [reflexivity|].
  eexists. split; [reflexivity|].
  rewrite <- Hw. split; try done. intros l'. unfold get_priority. simpl.
  rewrite insert_insert_eq.
  destruct (decide (l = l')) as [<-|Hne].
  - by rewrite lookup_insert_eq.
  - by rewrite lookup_insert_ne.
Qed.

Lemma X5_recorded_layer_move_witness :
  ∃ self' w' d2,
    layer_moved_cb bare_layer_observer 1%positive
                   (with_doc (set_layer_priority {[ 1%positive := 3 ]}) sample_world)
    = Ok (self', w') ∧
    w_log w' = [LayerMoved 1%positive 0 3] ∧
    undo (LayerMoved 1%positive 0 3) (w_doc w') = Ok (LayerMoved 1%positive 0 3, d2) ∧
    obs_eq d2 sample_doc.
Proof.
  destruct (X5_recorded_layer_move_undoes_the_move
              bare_layer_observer 1%positive sample_doc
              (with_doc (set_layer_priority {[ 1%positive := 3 ]}) sample_world) 3)
    as (self' & w' & E & L & _ & d2 & U & O); try (vm_compute; reflexivity).
  exists self', w', d2. split; [exact E|]. split; [exact L|]. split; [|exact O].
  injection E as <- <-. exact U.
Defined.

(** ** Constructing and releasing the observers *)

Lemma fold_each_snoc {S A B} (l : list A) (x : A) (body : B → A → M S B) b s :
  fold_each (l ++ [x]) body b s = bind (fold_each l body b) (λ b', body b' x) s.
Proof.
  revert b s. induction l as [|y l IH]; intros b s; simpl.
  - unfold bind, ret. destruct (body b x s) as [[b' s']|err]; reflexivity.
  - rewrite bind_assoc. apply bind_ext. intros b' s'. apply IH.
Qed.

Section ElementSnapshot.

Variable PROPS_TO_IGNORE : list string.
Variable e : elem_id.
Variable d : doc.

(** The body of the loop of [TimelineElementObserver.__init__]. *)
Let snapshot_body : gmap string gvalue → pspec → M world (gmap string gvalue) :=
  λ properties prop,
    if ignored PROPS_TO_IGNORE (pspec_name prop) then ret properties
    else
      let prop_name := child_property_name prop in
      match get_child_property e prop_name d with
      | None => raise AssertionError
      | Some v => ret (<[prop_name := v]> properties)
      end.

Lemma snapshot_fold_returns l acc w :
  (∀ prop, prop ∈ l → ignored PROPS_TO_IGNORE (pspec_name prop) = false →
           is_Some (get_child_property e (child_property_name prop) d)) →
  ∃ properties,
    fold_each l snapshot_body acc w = Ok (properties, w) ∧
    (∀ prop, prop ∈ l → ignored PROPS_TO_IGNORE (pspec_name prop) = false →
             properties !! child_property_name prop
             = get_child_property e (child_property_name prop) d) ∧
    (∀ name v, properties !! name = Some v →
               acc !! name = Some v ∨
               ∃ prop, prop ∈ l ∧ ignored PROPS_TO_IGNORE (pspec_name prop) = false ∧
                       name = child_property_name prop).
Proof.
  induction l as [|x l IH] using rev_ind; intros Hr.
  - exists acc. split; [done|]. split; [|by left].
    intros prop Hin. by apply elem_of_nil in Hin.
  - destruct IH as (props & E & Hval & Hdom).
    { intros prop Hin. apply Hr, elem_of_app. by left. }
    rewrite fold_each_snoc, (bind_Ok _ _ _ _ _ E). unfold snapshot_body at 1.
    destruct (ignored PROPS_TO_IGNORE (pspec_name x)) eqn:Hi.
    + exists props. split; [done|]. split.
      * intros prop Hin Hp. apply elem_of_app in Hin as [Hin|Hin]; [by apply Hval|].
        apply list_elem_of_singleton in Hin as ->. congruence.
      * intros name v Hn. destruct (Hdom name v Hn) as [?|(prop & Hin & ? & ?)]; [by left|].
        right. exists prop. split; [apply elem_of_app; by left|done].
    + destruct (Hr x) as [v Hv]; [apply elem_of_app; right; apply list_elem_of_here|done|].
      cbv zeta. rewrite Hv. exists (<[child_property_name x := v]> props).
      split; [done|]. split.
      * intros prop Hin Hp.
        destruct (decide (child_property_name x = child_property_name prop)) as [Heq|Hne].
        -- rewrite <- Heq, Hv. apply lookup_insert_eq.
        -- rewrite lookup_insert_ne by done.
           apply elem_of_app in Hin as [Hin|Hin]; [by apply Hval|].
           apply list_elem_of_singleton in Hin as ->. done.
      * intros name v' Hn.
        destruct (decide (child_property_name x = name)) as [<-|Hne].
        -- right. exists x. split; [apply elem_of_app; right; apply list_elem_of_here|done].
        -- rewrite lookup_insert_ne in Hn by done.
           destruct (Hdom name v' Hn) as [?|(prop & Hin & ? & ?)]; [by left|].
           right. exists prop. split; [apply elem_of_app; by left|done].
Qed.

Lemma snapshot_fold_raises l acc w :
  (∃ prop, prop ∈ l ∧ ignored PROPS_TO_IGNORE (pspec_name prop) = false ∧
           get_child_property e (child_property_name prop) d = None) →
  fold_each l snapshot_body acc w = Raise AssertionError.
Proof.
  revert acc. induction l as [|x l IH]; intros acc (prop & Hin & Hi & Hn).
  - by apply elem_of_nil in Hin.
  - simpl. unfold bind, snapshot_body at 1.
    destruct (ignored PROPS_TO_IGNORE (pspec_name x)) eqn:Hix.
    + unfold ret. apply IH. exists prop. split; [|done].
      apply elem_of_cons in Hin as [->|Hin]; [congruence|done].
    + cbv zeta. destruct (get_child_property e (child_property_name x) d) as [v|] eqn:Hv;
        [|done].
      unfold ret. apply IH. exists prop. split; [|done].
      apply elem_of_cons in Hin as [->|Hin]; [congruence|done].
Qed.

Lemma TimelineElementObserver_init_returns w :
  w_doc w = d →
  (∀ prop, prop ∈ elem_pspecs (info d) e →
           ignored PROPS_TO_IGNORE (pspec_name prop) = false →
           is_Some (get_child_property e (child_property_name prop) d)) →
  ∃ properties,
    TimelineElementObserver_init PROPS_TO_IGNORE e w
    = Ok ({| teo_id := w_next_observer w; teo_ges_timeline_element := Some e;
             teo_properties := properties |},
          World (w_doc w) (w_log w)
                (w_handlers w ++ [Handler (OElem e) "deep-notify" (w_next_observer w)
                                          "_property_changed_cb"])
                (Pos.succ (w_next_observer w))) ∧
    (∀ prop, prop ∈ elem_pspecs (info d) e →
             ignored PROPS_TO_IGNORE (pspec_name prop) = false →
             properties !! child_property_name prop
             = get_child_property e (child_property_name prop) d) ∧
    (∀ name v, properties !! name = Some v →
               ∃ prop, prop ∈ elem_pspecs (info d) e ∧
                       ignored PROPS_TO_IGNORE (pspec_name prop) = false ∧
                       name = child_property_name prop).
Proof.
  intros Hw Hr. unfold TimelineElementObserver_init.
  rewrite (bind_Ok new_observer _ w _ _ eq_refl).
  rewrite (bind_Ok (gets w_doc) _ _ _ _ eq_refl). simpl w_doc. rewrite Hw.
  destruct (snapshot_fold_returns (elem_pspecs (info d) e) ∅
              (World d (w_log w) (w_handlers w) (Pos.succ (w_next_observer w))) Hr)
    as (props & E & Hval & Hdom).
  unfold snapshot_body in E. rewrite (bind_Ok _ _ _ _ _ E).
  exists props. split; [reflexivity|]. split; [exact Hval|].
  intros name v Hn. destruct (Hdom name v Hn) as [Hempty|?]; [|done].
  by rewrite lookup_empty in Hempty.
Qed.

Lemma TimelineElementObserver_init_raises w :
  w_doc w = d →
  (∃ prop, prop ∈ elem_pspecs (info d) e ∧
           ignored PROPS_TO_IGNORE (pspec_name prop) = false ∧
           get_child_property e (child_property_name prop) d = None) →
  TimelineElementObserver_init PROPS_TO_IGNORE e w = Raise AssertionError.
Proof.
  intros Hw Hbad. unfold TimelineElementObserver_init.
  rewrite (bind_Ok new_observer _ w _ _ eq_refl).
  rewrite (bind_Ok (gets w_doc) _ _ _ _ eq_refl). simpl w_doc. rewrite Hw.
  pose proof (snapshot_fold_raises (elem_pspecs (info d) e) ∅
                (World d (w_log w) (w_handlers w) (Pos.succ (w_next_observer w))) Hbad) as E.
  unfold snapshot_body in E. by rewrite (bind_Raise _ _ _ _ E).
Qed.

End ElementSnapshot.

(** X3: the snapshot a TimelineElementObserver takes at construction.  When
    every child property that is not on the denylist can be read, the
    constructor returns an observer of the element, pushes nothing, connects
    the one deep-notify handler, and its snapshot holds the current value of
    each of those properties and nothing else; when one of them cannot be
    read the constructor raises AssertionError. *)
Theorem X3_element_observer_snapshot
    (PROPS_TO_IGNORE : list string) (e : elem_id) (w : world) :
  ((∀ prop, prop ∈ elem_pspecs (info (w_doc w)) e →
            ignored PROPS_TO_IGNORE (pspec_name prop) = false →
            is_Some (get_child_property e (child_property_name prop) (w_doc w))) →
   ∃ self w',
     TimelineElementObserver_init PROPS_TO_IGNORE e w = Ok (self, w') ∧
     teo_ges_timeline_element self = Some e ∧
     w_log w' = w_log w ∧ w_doc w' = w_doc w ∧
     w_handlers w'
     = w_handlers w ++ [Handler (OElem e) "deep-notify" (teo_id self) "_property_changed_cb"] ∧
     (∀ prop, prop ∈ elem_pspecs (info (w_doc w)) e →
              ignored PROPS_TO_IGNORE (pspec_name prop) = false →
              teo_properties self !! child_property_name prop
              = get_child_property e (child_property_name prop) (w_doc w)) ∧
     (∀ name v, teo_properties self !! name = Some v →
                ∃ prop, prop ∈ elem_pspecs (info (w_doc w)) e ∧
                        ignored PROPS_TO_IGNORE (pspec_name prop) = false ∧
                        name = child_property_name prop)) ∧
  ((∃ prop, prop ∈ elem_pspecs (info (w_doc w)) e ∧
            ignored PROPS_TO_IGNORE (pspec_name prop) = false ∧
            get_child_property e (child_property_name prop) (w_doc w) = None) →
   TimelineElementObserver_init PROPS_TO_IGNORE e w = Raise AssertionError).
Proof.
  split.
  - intros Hr.
    destruct (TimelineElementObserver_init_returns PROPS_TO_IGNORE e (w_doc w) w eq_refl Hr)
      as (props & E & Hval & Hdom).
    eexists _, _. split; [exact E|]. by repeat split.
  - intros Hbad. by apply TimelineElementObserver_init_raises with (d := w_doc w).
Qed.

Lemma X3_element_observer_witness :
  (∃ self w',
     TimelineElementObserver_init sample_PROPS_TO_IGNORE 2%positive sample_world
     = Ok (self, w') ∧
     teo_properties self !! "GstAgingTv::scratch-lines" = Some (GInt 7) ∧
     teo_properties self !! "GstAgingTv::name" = None) ∧
  TimelineElementObserver_init [] 2%positive
    (with_doc (set_child_props ∅) sample_world) = Raise AssertionError.
Proof.
  split.
  - destruct (X3_element_observer_snapshot sample_PROPS_TO_IGNORE 2%positive sample_world)
      as [H _].
    destruct H as (self & w' & E & _ & _ & _ & _ & Hval & Hdom).
    { intros prop Hin Hi. simpl in Hin.
      apply elem_of_cons in Hin as [->|Hin]; [by eexists|].
      apply elem_of_cons in Hin as [->|Hin]; [discriminate Hi|by apply elem_of_nil in Hin]. }
    exists self, w'. split; [exact E|]. split.
    + apply (Hval (PSpec "GstAgingTv" "scratch-lines" true)); [apply list_elem_of_here|done].
    + destruct (teo_properties self !! "GstAgingTv::name") as [v|] eqn:Hn; [|done].
      destruct (Hdom _ _ Hn) as (prop & Hin & Hi & Hname). simpl in Hin.
      apply elem_of_cons in Hin as [->|Hin]; [discriminate Hname|].
      apply elem_of_cons in Hin as [->|Hin]; [discriminate Hi|by apply elem_of_nil in Hin].
  - apply (X3_element_observer_snapshot [] 2%positive
             (with_doc (set_child_props ∅) sample_world)).
    exists (PSpec "GstAgingTv" "scratch-lines" true).
    split; [apply list_elem_of_here|]. split; reflexivity.
Defined.

Lemma bound_to_same o self cb signal cb' :
  bound_to o self cb (Handler o signal self cb') = String.eqb cb' cb.
Proof.
  unfold bound_to. simpl. rewrite bool_decide_eq_true_2 by done.
  by rewrite Pos.eqb_refl.
Qed.

Lemma bound_to_other o self cb h :
  h_observer h ≠ self → bound_to o self cb h = false.
Proof.
  intros Hne. unfold bound_to.
  destruct (Pos.eqb_spec (h_observer h) self) as [?|_]; [done|].
  by rewrite andb_false_r.
Qed.

Lemma filter_not_bound_to o self cb hs :
  (∀ h, h ∈ hs → h_observer h ≠ self) →
  List.filter (λ h, negb (bound_to o self cb h)) hs = hs.
Proof.
  induction hs as [|h hs IH]; intros Hfresh; simpl; [done|].
  rewrite bound_to_other by (apply Hfresh, list_elem_of_here). simpl.
  f_equal. apply IH. intros h' Hh'. apply Hfresh. by apply list_elem_of_further.
Qed.

(** Disconnecting a callback of an observer none of the older handlers [hs]
    belongs to only looks at the newer handlers. *)
Lemma disconnect_by_func_newer o self cb d log hs newer next :
  (∀ h, h ∈ hs → h_observer h ≠ self) →
  existsb (bound_to o self cb) newer = true →
  disconnect_by_func o self cb (World d log (hs ++ newer) next)
  = Ok (tt, World d log (hs ++ List.filter (λ h, negb (bound_to o self cb h)) newer) next).
Proof.
  intros Hfresh Hex. unfold disconnect_by_func. simpl.
  rewrite existsb_app, Hex, orb_true_r.
  by rewrite List.filter_app, filter_not_bound_to.
Qed.

(** X6: constructing an observer and releasing it leaves the handlers as they
    were, and a second release raises.  In a world where no handler belongs
    to the observer created next, a ControlSourceObserver, and a
    TimelineElementObserver of an element whose child properties can be read,
    can be constructed and released; the handlers and the log are then the
    ones before the construction, and releasing the released observer again
    raises AttributeError. *)
Theorem X6_release_after_init_restores_handlers
    (PROPS_TO_IGNORE : list string) (w : world) :
  fresh_observer w →
  (∀ cs action_info, ∃ self w1 self' w2,
     ControlSourceObserver_init cs action_info w = Ok (self, w1) ∧
     ControlSourceObserver_release self w1 = Ok (self', w2) ∧
     w_handlers w2 = w_handlers w ∧ w_log w2 = w_log w ∧
     ControlSourceObserver_release self' w2 = Raise AttributeError) ∧
  (∀ e,
     (∀ prop, prop ∈ elem_pspecs (info (w_doc w)) e →
              ignored PROPS_TO_IGNORE (pspec_name prop) = false →
              is_Some (get_child_property e (child_property_name prop) (w_doc w))) →
     ∃ self w1 self' w2,
       TimelineElementObserver_init PROPS_TO_IGNORE e w = Ok (self, w1) ∧
       TimelineElementObserver_release self w1 = Ok (self', w2) ∧
       w_handlers w2 = w_handlers w ∧ w_log w2 = w_log w ∧
       TimelineElementObserver_release self' w2 = Raise AttributeError).
Proof.
  intros Hfresh. split.
  - intros cs action_info. eexists _, _. eexists _, _.
    split; [reflexivity|]. split; [|split; [|split]].
    + unfold ControlSourceObserver_release. simpl.
      rewrite <- !app_assoc. simpl.
      erewrite bind_Ok; [|apply disconnect_by_func_newer; [exact Hfresh|]];
        [|simpl; by rewrite bound_to_same].
      simpl. rewrite !bound_to_same. simpl.
      erewrite bind_Ok; [|apply disconnect_by_func_newer; [exact Hfresh|]];
        [|simpl; by rewrite bound_to_same].
      simpl. rewrite !bound_to_same. simpl.
      erewrite bind_Ok; [|apply disconnect_by_func_newer; [exact Hfresh|]];
        [|simpl; by rewrite bound_to_same].
      simpl. rewrite !bound_to_same. simpl. reflexivity.
    + simpl. by rewrite app_nil_r.
    + reflexivity.
    + reflexivity.
  - intros e Hr.
    destruct (TimelineElementObserver_init_returns PROPS_TO_IGNORE e (w_doc w) w eq_refl Hr)
      as (props & E & _ & _).
    eexists _, _. eexists _, _. split; [exact E|]. split; [|split; [|split]].
    + unfold TimelineElementObserver_release. simpl.
      erewrite bind_Ok; [|apply disconnect_by_func_newer; [exact Hfresh|]];
        [|simpl; by rewrite bound_to_same].
      simpl. rewrite !bound_to_same. simpl. reflexivity.
    + simpl. by rewrite app_nil_r.
    + reflexivity.
    + reflexivity.
Qed.

Lemma X6_release_after_init_witness :
  ∃ self w1 self' w2,
    ControlSourceObserver_init 1%positive [] sample_world = Ok (self, w1) ∧
    ControlSourceObserver_release self w1 = Ok (self', w2) ∧
    w_handlers w2 = [] ∧
    ControlSourceObserver_release self' w2 = Raise AttributeError.
Proof.
  destruct (X6_release_after_init_restores_handlers [] sample_world) as [H _].
  { intros h Hh. by apply elem_of_nil in Hh. }
  destruct (H 1%positive []) as (self & w1 & self' & w2 & E1 & E2 & Hh & _ & E3).
  by exists self, w1, self', w2.
Defined.

(** ** What detaching a clip leaves behind *)

Lemma release_step_refl w : release_step w w.
Proof. by repeat split. Qed.

Lemma release_step_trans w1 w2 w3 :
  release_step w1 w2 → release_step w2 w3 → release_step w1 w3.
Proof.
  intros (L1 & D1 & H1) (L2 & D2 & H2).
  repeat split; [congruence..|]. intros h Hh Hcb. apply H2; [|done]. by apply H1.
Qed.

Lemma releasing_ret {A} (a : A) : releasing (ret a).
Proof. intros w a' w' [= <- <-]. apply release_step_refl. Qed.

Lemma releasing_raise {A} e : releasing (A := A) (raise e).
Proof. intros w a w' [=]. Qed.

Lemma releasing_gets {A} (f : world → A) : releasing (gets f).
Proof. intros w a w' [= <- <-]. apply release_step_refl. Qed.

Lemma releasing_bind {A B} (m : M world A) (k : A → M world B) :
  releasing m → (∀ a, releasing (k a)) → releasing (bind m k).
Proof.
  intros Hm Hk w b w'' H. apply bind_inv in H as (a & w' & H1 & H2).
  eapply release_step_trans; [by eapply Hm|by eapply Hk].
Qed.

Lemma releasing_fold_each {A B} (l : list A) (body : B → A → M world B) b :
  (∀ b x, releasing (body b x)) → releasing (fold_each l body b).
Proof.
  intros H. revert b. induction l as [|x l IH]; intros b; simpl.
  - apply releasing_ret.
  - apply releasing_bind; [apply H|]. intros b'. apply IH.
Qed.

Lemma releasing_disconnect_by_func o self cb :
  cb ≠ "_controlBindingAddedCb" → releasing (disconnect_by_func o self cb).
Proof.
  intros Hcb w [] w'. unfold disconnect_by_func.
  destruct (existsb _ _); [|done]. intros [= <-].
  repeat split; try done. simpl. intros h Hh Hname.
  apply list_elem_of_In, filter_In. split; [by apply list_elem_of_In|].
  unfold bound_to. rewrite Hname.
  destruct (String.eqb_spec "_controlBindingAddedCb" cb) as [Heq|_]; [congruence|].
  by rewrite andb_false_r.
Qed.

Lemma releasing_ControlSourceObserver_release o : releasing (ControlSourceObserver_release o).
Proof.
  unfold ControlSourceObserver_release.
  destruct (cso_control_source o); [|apply releasing_raise].
  repeat (apply releasing_bind; [by apply releasing_disconnect_by_func|intros _]).
  apply releasing_ret.
Qed.

Lemma releasing_TimelineElementObserver_release o :
  releasing (TimelineElementObserver_release o).
Proof.
  unfold TimelineElementObserver_release.
  destruct (teo_ges_timeline_element o); [|apply releasing_raise].
  apply releasing_bind; [by apply releasing_disconnect_by_func|intros _].
  apply releasing_ret.
Qed.

Lemma releasing_GObjectObserver_release o : releasing (GObjectObserver_release o).
Proof.
  unfold GObjectObserver_release.
  destruct (goo_gobject o); [|apply releasing_raise].
  apply releasing_bind; [by apply releasing_disconnect_by_func|intros _].
  apply releasing_ret.
Qed.

Lemma releasing_disconnectFromControlSource self b :
  releasing (disconnectFromControlSource self b).
Proof.
  unfold disconnectFromControlSource.
  destruct (lo_keyframe_observers self !! control_source b); [|apply releasing_raise].
  apply releasing_bind; [apply releasing_ControlSourceObserver_release|intros _].
  apply releasing_ret.
Qed.

Lemma releasing_disconnectFromTrackElement self te :
  releasing (disconnectFromTrackElement self te).
Proof.
  unfold disconnectFromTrackElement.
  apply releasing_bind; [apply releasing_gets|intros d].
  apply releasing_bind.
  - apply releasing_fold_each. intros. apply releasing_disconnectFromControlSource.
  - intros lo. destruct (lo_track_element_observers lo !! te) as [[o|o]|];
      [| |apply releasing_ret].
    + apply releasing_bind; [|intros _; apply releasing_ret].
      apply releasing_bind; [apply releasing_TimelineElementObserver_release|].
      intros _. apply releasing_ret.
    + apply releasing_bind; [|intros _; apply releasing_ret].
      apply releasing_bind; [apply releasing_GObjectObserver_release|].
      intros _. apply releasing_ret.
Qed.

Lemma releasing_disconnectFromClip self c : releasing (disconnectFromClip self c).
Proof.
  unfold disconnectFromClip.
  do 2 (apply releasing_bind; [by apply releasing_disconnect_by_func|intros _]).
  apply releasing_bind; [apply releasing_gets|intros d].
  apply releasing_bind.
  - apply releasing_fold_each. intros. apply releasing_disconnectFromTrackElement.
  - intros lo. destruct (is_TransitionClip _); [apply releasing_ret|].
    destruct (lo_clip_observers lo !! c); [|apply releasing_raise].
    apply releasing_bind; [apply releasing_GObjectObserver_release|intros _].
    apply releasing_ret.
Qed.

Section Subscriptions.

Variable PROPS_TO_IGNORE : list string.
Variable d : doc.
Hypothesis Hreadable : readable PROPS_TO_IGNORE d.

Lemma step_doc w w' : step w w' → w_doc w = d → w_doc w' = d.
Proof. intros [-> _]. done. Qed.

Lemma step_handlers w w' h : step w w' → h ∈ w_handlers w → h ∈ w_handlers w'.
Proof. intros (_ & _ & _ & H). apply H. Qed.

Lemma connectToTrackElement_subscribes self te w :
  w_doc w = d →
  elem_class_of (info d) te ≠ VideoTransition →
  ∃ lo w', connectToTrackElement PROPS_TO_IGNORE self te w = Ok (lo, w') ∧ step w w' ∧
           lo_id lo = lo_id self ∧
           control_binding_subscription (lo_id self) te ∈ w_handlers w'.
Proof.
  intros Hw Hclass. unfold connectToTrackElement.
  rewrite (bind_Ok (gets w_doc) _ w (w_doc w) w eq_refl), Hw. cbv zeta.
  assert (is_VideoTransition (elem_class_of (info d) te) = false) as ->.
  { by destruct (elem_class_of (info d) te). }
  destruct (steady_fold_each d (elem_bindings (info d) te)
              (λ self0 pb, connectToControlSource self0 te (snd pb))
              (λ lo, lo_id lo = lo_id self) self) with (w := w)
    as (lo1 & w1 & E1 & S1 & Hid1); [|done|done|].
  { intros lo pb _ Hlo. eapply steady_weaken; [apply steady_connectToControlSource|].
    intros lo' ->. exact Hlo. }
  rewrite (bind_Ok _ _ _ _ _ E1).
  set (w2 := World (w_doc w1) (w_log w1)
                   (w_handlers w1 ++ [control_binding_subscription (lo_id lo1) te])
                   (w_next_observer w1)).
  rewrite (bind_Ok (connect (OElem te) "control-binding-added" (lo_id lo1)
                            "_controlBindingAddedCb") _ w1 tt w2 eq_refl).
  assert (step w1 w2) as S2.
  { repeat split; try done. simpl. intros h Hh. apply elem_of_app. by left. }
  assert (w_doc w2 = d) as Hw2 by (simpl; by eapply step_doc).
  assert (control_binding_subscription (lo_id self) te ∈ w_handlers w2) as Hsub.
  { simpl. rewrite Hid1. apply elem_of_app. right. apply list_elem_of_here. }
  destruct (is_BaseEffect _ || is_VideoSource _).
  - destruct (steady_TimelineElementObserver_init PROPS_TO_IGNORE d Hreadable te w2 Hw2)
      as (o & w3 & E3 & S3 & _).
    rewrite (bind_Ok _ _ _ _ _ E3).
    eexists _, _. split; [reflexivity|].
    split; [eauto using step_trans|]. split; [done|]. by eapply step_handlers.
  - eexists _, _. split; [reflexivity|].
    split; [eauto using step_trans|]. done.
Qed.

Lemma fold_connectToTrackElement_subscribes children self w :
  w_doc w = d →
  ∃ lo w', fold_each children (connectToTrackElement PROPS_TO_IGNORE) self w = Ok (lo, w') ∧
           step w w' ∧ lo_id lo = lo_id self ∧
           ∀ te, te ∈ children → elem_class_of (info d) te ≠ VideoTransition →
                 control_binding_subscription (lo_id self) te ∈ w_handlers w'.
Proof.
  revert self w. induction children as [|te children IH]; intros self w Hw; simpl.
  - exists self, w. split; [done|]. split; [apply step_refl|]. split; [done|].
    intros te Hin. by apply elem_of_nil in Hin.
  - assert (∃ lo1 w1, connectToTrackElement PROPS_TO_IGNORE self te w = Ok (lo1, w1) ∧
                      step w w1 ∧ lo_id lo1 = lo_id self ∧
                      (elem_class_of (info d) te ≠ VideoTransition →
                       control_binding_subscription (lo_id self) te ∈ w_handlers w1))
      as (lo1 & w1 & E1 & S1 & Hid1 & Hsub1).
    { assert (elem_class_of (info d) te = VideoTransition ∨
              elem_class_of (info d) te ≠ VideoTransition) as [Hvt|Hvt].
      { destruct (elem_class_of (info d) te); (by left) || (by right). }
      - destruct (steady_connectToTrackElement PROPS_TO_IGNORE d Hreadable self te w Hw)
          as (lo1 & w1 & E1 & S1 & Hid1).
        exists lo1, w1. split; [exact E1|]. split; [exact S1|]. split; [exact Hid1|].
        intros Hne. by destruct Hne.
      - destruct (connectToTrackElement_subscribes self te w Hw Hvt)
          as (lo1 & w1 & E1 & S1 & Hid1 & Hsub1).
        exists lo1, w1. split; [exact E1|]. split; [exact S1|]. split; [exact Hid1|].
        intros _. exact Hsub1. }
    destruct (IH lo1 w1 (step_doc _ _ S1 Hw)) as (lo2 & w2 & E2 & S2 & Hid2 & Hsub2).
    exists lo2, w2. rewrite (bind_Ok _ _ _ _ _ E1). split; [done|].
    split; [by eapply step_trans|]. split; [congruence|].
    intros te' Hin Hclass. apply elem_of_cons in Hin as [->|Hin].
    + eapply step_handlers; [exact S2|]. by apply Hsub1.
    + rewrite <- Hid1. by apply Hsub2.
Qed.

Lemma connectToClip_subscribes_bindings self c w :
  w_doc w = d →
  ∃ lo w', connectToClip PROPS_TO_IGNORE self c w = Ok (lo, w') ∧ step w w' ∧
           lo_id lo = lo_id self ∧
           ∀ te, te ∈ get_children c d → elem_class_of (info d) te ≠ VideoTransition →
                 control_binding_subscription (lo_id self) te ∈ w_handlers w'.
Proof.
  intros Hw. unfold connectToClip.
  destruct (steady_connect d (OClip c) "child-added" (lo_id self)
              "_clipTrackElementAddedCb" w Hw) as ([] & w1 & E1 & S1 & _).
  rewrite (bind_Ok _ _ _ _ _ E1).
  destruct (steady_connect d (OClip c) "child-removed" (lo_id self)
              "_clipTrackElementRemovedCb" w1 (step_doc _ _ S1 Hw)) as ([] & w2 & E2 & S2 & _).
  rewrite (bind_Ok _ _ _ _ _ E2).
  assert (w_doc w2 = d) as Hw2 by eauto using step_doc.
  rewrite (bind_Ok (gets w_doc) _ w2 (w_doc w2) w2 eq_refl), Hw2.
  destruct (fold_connectToTrackElement_subscribes (get_children c d) self w2 Hw2)
    as (lo3 & w3 & E3 & S3 & Hid3 & Hsub3).
  rewrite (bind_Ok _ _ _ _ _ E3).
  destruct (is_TransitionClip _).
  - eexists _, _. split; [reflexivity|]. split; [eauto using step_trans|]. done.
  - destruct (steady_GObjectObserver_init d (OClip c)
                ["start"; "duration"; "in-point"; "priority"] w3 (step_doc _ _ S3 Hw2))
      as (o & w4 & E4 & S4 & _).
    rewrite (bind_Ok _ _ _ _ _ E4).
    eexists _, _. split; [reflexivity|]. split; [eauto using step_trans|].
    split; [done|]. intros te Hin Hclass. eapply step_handlers; [exact S4|]. by apply Hsub3.
Qed.

(** What [_clipAddedCb] pushes and connects. *)
Lemma clipAddedCb_returns self layer clip w :
  w_doc w = d →
  ∃ lo w', clipAddedCb PROPS_TO_IGNORE self layer clip w = Ok (lo, w') ∧
           w_doc w' = d ∧ lo_id lo = lo_id self ∧
           layers_added (w_log w') = layers_added (w_log w) ∧
           clips_added (w_log w')
           = clips_added (w_log w)
             ++ (if is_TransitionClip (clip_class_of (info d) clip) then []
                 else [(layer, clip)]) ∧
           ∀ te, te ∈ get_children clip d → elem_class_of (info d) te ≠ VideoTransition →
                 control_binding_subscription (lo_id self) te ∈ w_handlers w'.
Proof.
  intros Hw. unfold clipAddedCb.
  destruct (connectToClip_subscribes_bindings self clip w Hw)
    as (lo & w1 & E1 & (D1 & L1 & C1 & H1) & Hid & Hsub).
  rewrite (bind_Ok _ _ _ _ _ E1).
  rewrite (bind_Ok (gets w_doc) _ w1 (w_doc w1) w1 eq_refl), D1, Hw.
  destruct (is_TransitionClip _).
  - exists lo, w1. rewrite app_nil_r. split; [done|]. split; [congruence|]. done.
  - eexists _, _. split; [reflexivity|]. simpl. split; [congruence|]. split; [done|].
    unfold layers_added, clips_added in *. rewrite !omap_app. simpl.
    rewrite app_nil_r. split; [done|]. split; [by rewrite C1|done].
Qed.

End Subscriptions.

(** What [_clipRemovedCb] pushes and keeps connected. *)
Lemma clipRemovedCb_returns self layer clip w lo' w' :
  clipRemovedCb self layer clip w = Ok (lo', w') →
  w_log w'
  = w_log w
    ++ (if is_TransitionClip (clip_class_of (info (w_doc w)) clip)
        then match TransitionClipRemovedAction_new layer clip (w_doc w) with
             | Some t => [TransitionClipRemovedAction t]
             | None => []
             end
        else [ClipRemoved {| cr_layer := layer; cr_clip := clip;
                             cr_transition_removed_actions := [] |}]) ∧
  (∀ h, h ∈ w_handlers w → h_callback h = "_controlBindingAddedCb" → h ∈ w_handlers w').
Proof.
  unfold clipRemovedCb. intros H.
  apply bind_inv in H as (lo1 & w1 & E1 & H).
  apply releasing_disconnectFromClip in E1 as (L1 & D1 & H1).
  rewrite (bind_Ok (gets w_doc) _ w1 (w_doc w1) w1 eq_refl), D1 in H.
  destruct (is_TransitionClip _).
  - destruct (TransitionClipRemovedAction_new layer clip (w_doc w)).
    + injection H as <- <-. simpl. by rewrite L1.
    + injection H as <- <-. rewrite app_nil_r. done.
  - injection H as <- <-. simpl. by rewrite L1.
Qed.

(** X7: the subscription to new control bindings is never disconnected.
    When a clip is added to an observed layer (on a document whose child
    properties can be read) the layer observer connects
    [_controlBindingAddedCb] to every child of the clip that is not a video
    transition; when the clip is removed again and [_clipRemovedCb] returns,
    every one of these handlers, like any handler with that callback, is
    still connected. *)
Theorem X7_control_binding_subscription_survives_clip_removal
    (PROPS_TO_IGNORE : list string) (self : LayerObserver)
    (layer : layer_id) (clip : clip_id) (w : world) :
  readable PROPS_TO_IGNORE (w_doc w) →
  ∃ lo1 w1,
    clipAddedCb PROPS_TO_IGNORE self layer clip w = Ok (lo1, w1) ∧
    (∀ te, te ∈ get_children clip (w_doc w) →
           elem_class_of (info (w_doc w)) te ≠ VideoTransition →
           control_binding_subscription (lo_id self) te ∈ w_handlers w1) ∧
    ∀ lo2 w2,
      clipRemovedCb lo1 layer clip w1 = Ok (lo2, w2) →
      (∀ h, h ∈ w_handlers w1 → h_callback h = "_controlBindingAddedCb" →
            h ∈ w_handlers w2) ∧
      (∀ te, te ∈ get_children clip (w_doc w) →
             elem_class_of (info (w_doc w)) te ≠ VideoTransition →
             control_binding_subscription (lo_id self) te ∈ w_handlers w2).
Proof.
  intros Hr.
  destruct (clipAddedCb_returns PROPS_TO_IGNORE (w_doc w) Hr self layer clip w eq_refl)
    as (lo1 & w1 & E1 & _ & _ & _ & _ & Hsub).
  exists lo1, w1. split; [exact E1|]. split; [exact Hsub|].
  intros lo2 w2 E2. apply clipRemovedCb_returns in E2 as [_ Hkeep].
  split; [exact Hkeep|]. intros te Hin Hclass. apply Hkeep; [by apply Hsub|done].
Qed.

Lemma X7_control_binding_subscription_witness :
  ∃ lo1 w1 lo2 w2,
    clipAddedCb sample_PROPS_TO_IGNORE bare_layer_observer 1%positive 1%positive
                sample_world = Ok (lo1, w1) ∧
    clipRemovedCb lo1 1%positive 1%positive w1 = Ok (lo2, w2) ∧
    control_binding_subscription 1%positive 2%positive ∈ w_handlers w2.
Proof.
  destruct (X7_control_binding_subscription_survives_clip_removal
              sample_PROPS_TO_IGNORE bare_layer_observer 1%positive 1%positive sample_world)
    as (lo1 & w1 & E1 & _ & Hkeep).
  { intros e prop Hin Hi.
    assert (e = 2%positive) as ->.
    { destruct e as [[e|e|]|[e|e|]|]; try done; simpl in Hin;
        by apply elem_of_nil in Hin. }
    simpl in Hin. apply elem_of_cons in Hin as [->|Hin]; [by eexists|].
    apply elem_of_cons in Hin as [->|Hin]; [discriminate Hi|by apply elem_of_nil in Hin]. }
  destruct (clipRemovedCb lo1 1%positive 1%positive w1) as [[lo2 w2]|] eqn:E2.
  - exists lo1, w1, lo2, w2. split; [exact E1|]. split; [exact E2|].
    destruct (Hkeep lo2 w2 eq_refl) as [_ H]. apply H.
    + vm_compute. right. left.
    + discriminate.
  - exfalso. vm_compute in E1. injection E1 as <- <-. by vm_compute in E2.
Defined.

(** X8: what the clip callbacks of a LayerObserver push.  On a document
    whose child properties can be read, [_clipAddedCb] returns and pushes
    one ClipAdded for an ordinary clip and none for a transition clip, and
    never a LayerAdded.  When [_clipRemovedCb] returns it has pushed, for an
    ordinary clip, exactly one ClipRemoved with nothing absorbed yet; for a
    transition clip, the TransitionClipRemovedAction built from the clip when
    it has a video element and nothing when it has none. *)
Theorem X8_clip_callbacks_special_case_transitions
    (PROPS_TO_IGNORE : list string) (self : LayerObserver)
    (layer : layer_id) (clip : clip_id) (w : world) :
  (readable PROPS_TO_IGNORE (w_doc w) →
   ∃ lo w',
     clipAddedCb PROPS_TO_IGNORE self layer clip w = Ok (lo, w') ∧
     layers_added (w_log w') = layers_added (w_log w) ∧
     clips_added (w_log w')
     = clips_added (w_log w)
       ++ (if is_TransitionClip (clip_class_of (info (w_doc w)) clip) then []
           else [(layer, clip)])) ∧
  (∀ lo' w',
     clipRemovedCb self layer clip w = Ok (lo', w') →
     w_log w'
     = w_log w
       ++ (if is_TransitionClip (clip_class_of (info (w_doc w)) clip)
           then match TransitionClipRemovedAction_new layer clip (w_doc w) with
                | Some t => [TransitionClipRemovedAction t]
                | None => []
                end
           else [ClipRemoved {| cr_layer := layer; cr_clip := clip;
                                cr_transition_removed_actions := [] |}])).
Proof.
  split.
  - intros Hr.
    destruct (clipAddedCb_returns PROPS_TO_IGNORE (w_doc w) Hr self layer clip w eq_refl)
      as (lo & w' & E & _ & _ & L & C & _).
    by exists lo, w'.
  - intros lo' w' E. by apply clipRemovedCb_returns in E as [? _].
Qed.

Lemma X8_clip_callbacks_witness :
  ∃ lo w' lo2 w2,
    LayerObserver_init sample_PROPS_TO_IGNORE 1%positive sample_world = Ok (lo, w') ∧
    clipRemovedCb lo 1%positive 4%positive w' = Ok (lo2, w2) ∧
    w_log w2
    = w_log w'
      ++ [TransitionClipRemovedAction
            {| tcr_base := {| tca_ges_layer := Some 1%positive; tca_start := 5;
                              tca_duration := 5; tca_track_element := 4%positive |};
               tcr_properties := [("border", GInt 0); ("invert", GBool false);
                                  ("transition-type", GInt 1)] |}].
Proof.
  destruct (LayerObserver_init sample_PROPS_TO_IGNORE 1%positive sample_world)
    as [[lo w']|] eqn:E; [|by vm_compute in E].
  destruct (clipRemovedCb lo 1%positive 4%positive w') as [[lo2 w2]|] eqn:E2.
  - exists lo, w', lo2, w2. split; [reflexivity|]. split; [exact E2|].
    destruct (X8_clip_callbacks_special_case_transitions
                sample_PROPS_TO_IGNORE lo 1%positive 4%positive w') as [_ H].
    rewrite (H lo2 w2 E2).
    vm_compute in E. injection E as <- <-. reflexivity.
  - exfalso. vm_compute in E. injection E as <- <-. by vm_compute in E2.
Defined.

(** ** Transitions and effects that come back *)

(** Writing a list of properties with [set_property]. *)
Lemma for_each_set_property e props s :
  ∃ s', for_each props (λ pv, set_property e (fst pv) (snd pv)) s = Ok (tt, s') ∧
        s' = set_gobject_props (gobject_props s') s ∧
        (∀ k, (∀ name, k = (e, name) → name ∉ map fst props) →
              gobject_props s' !! k = gobject_props s !! k) ∧
        (NoDup (map fst props) →
         ∀ name v, (name, v) ∈ props → gobject_props s' !! (e, name) = Some v).
Proof.
  revert s. induction props as [|[n0 v0] props IH]; intros s.
  - exists s. split; [done|]. split; [by rewrite set_gobject_props_same|].
    split; [done|]. intros _ name v Hin. by apply elem_of_nil in Hin.
  - set (s1 := set_gobject_props (<[(e, n0) := v0]> (gobject_props s)) s).
    destruct (IH s1) as (s' & E & Hrest & Hother & Hset).
    exists s'. split; [|split; [|split]].
    + simpl. rewrite (bind_Ok (set_property e n0 v0) _ s tt s1 eq_refl). exact E.
    + rewrite Hrest at 1. reflexivity.
    + intros k Hk. rewrite Hother.
      * simpl. apply lookup_insert_ne. intros <-. apply (Hk n0 eq_refl). simpl. left.
      * intros name -> Hin. apply (Hk name eq_refl). simpl. by right.
    + intros Hnd name v Hin. simpl in Hnd. apply NoDup_cons in Hnd as [Hn0 Hnd].
      apply elem_of_cons in Hin as [[= -> ->]|Hin].
      * rewrite Hother; [simpl; apply lookup_insert_eq|].
        intros name [= <-]. exact Hn0.
      * by apply Hset.
Qed.

Lemma captured_transition_props (f : string → option gvalue) (names : list string) :
  NoDup names →
  NoDup (map fst (omap (λ name, pair name <$> f name) names)) ∧
  ∀ name v, (name, v) ∈ omap (λ name, pair name <$> f name) names
            ↔ name ∈ names ∧ f name = Some v.
Proof.
  intros Hnd. split.
  - induction Hnd as [|n names Hn Hnd IH]; simpl; [constructor|].
    destruct (f n) as [v|]; simpl; [|done].
    constructor; [|done]. intros Hin. apply Hn.
    apply list_elem_of_fmap in Hin as ([n' v'] & -> & Hin).
    apply list_elem_of_omap in Hin as (x & Hx & Hfx).
    destruct (f x); [|done]. injection Hfx as <- <-. done.
  - intros name v. rewrite list_elem_of_omap. split.
    + intros (x & Hx & Hfx). destruct (f x) as [v'|] eqn:E; [|done].
      injection Hfx as <- <-. done.
    + intros [Hin Hf]. exists name. by rewrite Hf.
Qed.

(** X9: a transition removal is recorded with the transition's properties and
    its undo gives them to the transition that replaces it.  The action
    built from a removed transition clip holds the clip's video element and,
    of border, invert and transition-type, the values that element had.
    Undone on a layer without a transition clip of the same start and
    duration with a video element, it returns and changes nothing; undone on
    a layer with one, it writes every captured value to that clip's video
    element and changes no tracked field and commits nothing. *)
Theorem X9_transition_removal_restores_captured_properties
    (layer : layer_id) (clip : clip_id) (d : doc) (t : TransitionClipRemoved) (s : doc) :
  TransitionClipRemovedAction_new layer clip d = Some t →
  (get_video_element clip d = Some (tca_track_element (tcr_base t)) ∧
   ∀ name v, (name, v) ∈ tcr_properties t
             ↔ name ∈ TRANSITION_PROPS ∧
               gobject_props d !! (tca_track_element (tcr_base t), name) = Some v) ∧
  (no_video_transition s (clip_start (info d) clip) (clip_duration (info d) clip)
                       (get_clips layer s) →
   TransitionClipRemovedAction_undo t s = Ok (tt, s)) ∧
  (∀ e, first_video_transition s (clip_start (info d) clip) (clip_duration (info d) clip)
                               (get_clips layer s) e →
        ∃ s', TransitionClipRemovedAction_undo t s = Ok (tt, s') ∧
              (∀ name v, (name, v) ∈ tcr_properties t →
                         gobject_props s' !! (e, name) = Some v) ∧
              obs_eq s' s ∧ commits s' = commits s).
Proof.
  unfold TransitionClipRemovedAction_new.
  destruct (get_video_element clip d) as [e0|] eqn:Hv; [|done]. intros [= <-]. simpl.
  assert (NoDup TRANSITION_PROPS) as Hnd.
  { unfold TRANSITION_PROPS. apply NoDup_ListNoDup. by vm_compute; repeat constructor;
      simpl; intuition discriminate. }
  destruct (captured_transition_props (λ name, gobject_props d !! (e0, name))
              TRANSITION_PROPS Hnd) as [Hnames Hmem].
  split; [by split|]. split.
  - intros Hnone. apply scan_video_transition_None in Hnone.
    unfold TransitionClipRemovedAction_undo, find_video_transition, bind, gets. simpl.
    by rewrite Hnone.
  - intros e He. apply scan_video_transition_Some in He.
    unfold TransitionClipRemovedAction_undo, find_video_transition. simpl.
    unfold bind at 1, gets. rewrite He.
    set (s1 := set_auto_updates (auto_updates s ++ [(e0, e)]) s).
    rewrite (bind_Ok (update_object e0 e) _ s tt s1 eq_refl).
    destruct (for_each_set_property e
                (omap (λ name, pair name <$> gobject_props d !! (e0, name)) TRANSITION_PROPS)
                s1) as (s' & E & Hrest & _ & Hset).
    exists s'. split; [exact E|]. split; [by apply Hset|].
    rewrite Hrest. by split.
Qed.

Lemma X9_transition_removal_witness :
  ∃ t s',
    TransitionClipRemovedAction_new 1%positive 4%positive sample_doc = Some t ∧
    TransitionClipRemovedAction_undo t (set_gobject_props ∅ sample_doc) = Ok (tt, s') ∧
    gobject_props s' !! (4%positive, "border") = Some (GInt 0).
Proof.
  destruct (TransitionClipRemovedAction_new 1%positive 4%positive sample_doc)
    as [t|] eqn:E; [|by vm_compute in E].
  destruct (X9_transition_removal_restores_captured_properties
              1%positive 4%positive sample_doc t (set_gobject_props ∅ sample_doc) E)
    as ([_ Hprops] & _ & Hundo).
  destruct (Hundo 4%positive) as (s' & E' & Hset & _).
  { apply scan_video_transition_Some. reflexivity. }
  exists t, s'. split; [reflexivity|]. split; [exact E'|].
  apply Hset, Hprops. split; [apply list_elem_of_here|].
  vm_compute in E. injection E as <-. reflexivity.
Defined.

(** X10: undoing the removal of an effect re-creates the effect as a new
    track element.  [do] of an EffectRemovedAction that has its element
    removes the element from the clip and forgets it, so that a second [do]
    raises TypeError; [undo] then adds a new element to the end of the clip's
    children, remembers it, gives it every captured child property value it
    has a property for, and commits nothing. *)
Theorem X10_effect_removal_undo_recreates_the_effect
    (t : TrackElementAction) (e : elem_id) (s : doc) :
  tea_track_element t = Some e →
  ∃ t1 s1 t2 s2,
    do (EffectRemovedAction t) s = Ok (EffectRemovedAction t1, s1) ∧
    tea_track_element t1 = None ∧
    do (EffectRemovedAction t1) s1 = Raise TypeError ∧
    undo (EffectRemovedAction t1) s1 = Ok (EffectRemovedAction t2, s2) ∧
    tea_track_element t2 = Some (next_elem s) ∧
    get_children (tea_clip t) s2
    = filter (λ x, x ≠ e) (get_children (tea_clip t) s) ++ [next_elem s] ∧
    (NoDup (map fst (tea_track_element_props t)) →
     ∀ name v, (name, v) ∈ tea_track_element_props t →
               is_Some (child_props s !! (next_elem s, name)) →
               child_props s2 !! (next_elem s, name) = Some v) ∧
    commits s2 = commits s.
Proof.
  intros He.
  set (s1 := set_clip_children
               (<[tea_clip t := filter (λ x, x ≠ e) (get_children (tea_clip t) s)]>
                  (clip_children s)) s).
  set (s1' := set_next_elem (Pos.succ (next_elem s))
                (set_clip_children
                   (<[tea_clip t := get_children (tea_clip t) s1 ++ [next_elem s]]>
                      (clip_children s1)) s1)).
  destruct (for_each_set_child_property (next_elem s) (tea_track_element_props t) s1')
    as (s2 & E & Hrest & _ & _ & Hset).
  set (t1 := {| tea_clip := tea_clip t; tea_track_element := None;
                tea_asset := tea_asset t;
                tea_track_element_props := tea_track_element_props t |}).
  set (t2 := {| tea_clip := tea_clip t; tea_track_element := Some (next_elem s);
                tea_asset := tea_asset t;
                tea_track_element_props := tea_track_element_props t |}).
  exists t1, s1, t2, s2. split; [|split; [|split; [|split; [|split; [|split; [|split]]]]]].
  - simpl. unfold TrackElementAction_remove. rewrite He. reflexivity.
  - reflexivity.
  - reflexivity.
  - unfold undo, TrackElementAction_add. rewrite bind_assoc.
    rewrite (bind_Ok (add_asset (tea_clip t1)) _ s1 (next_elem s) s1' eq_refl).
    rewrite bind_assoc.
    change (tea_track_element_props t1) with (tea_track_element_props t).
    rewrite (bind_Ok _ _ _ _ _ E). reflexivity.
  - reflexivity.
  - rewrite Hrest. unfold get_children at 1. simpl. rewrite lookup_insert_eq. simpl.
    unfold get_children at 1. simpl. by rewrite lookup_insert_eq.
  - intros Hnd name v Hin Hex. by apply Hset.
  - rewrite Hrest. reflexivity.
Qed.

Lemma X10_effect_removal_witness :
  let t := {| tea_clip := 1%positive; tea_track_element := Some 2%positive;
              tea_asset := 1%positive;
              tea_track_element_props := [("GstAgingTv::scratch-lines", GInt 7)] |} in
  ∃ t1 s1 t2 s2,
    do (EffectRemovedAction t) sample_doc = Ok (EffectRemovedAction t1, s1) ∧
    undo (EffectRemovedAction t1) s1 = Ok (EffectRemovedAction t2, s2) ∧
    tea_track_element t2 = Some 6%positive ∧
    get_children 1%positive s2 = [1; 5; 6]%positive.
Proof.
  intros t.
  destruct (X10_effect_removal_undo_recreates_the_effect t 2%positive sample_doc eq_refl)
    as (t1 & s1 & t2 & s2 & E1 & _ & _ & E2 & Ht2 & Hch & _).
  by exists t1, s1, t2, s2.
Defined.

(** ** Adding a clip and adding a layer *)

(** X11: adding a clip and adding a layer are undone exactly.  For a layer
    of the timeline and a clip that is in no layer, [do] of ClipAdded puts
    the clip on the layer and [undo] takes it off again: every tracked field
    is as before and the pipeline was committed twice.  For a layer that is
    not in the timeline, [do] of LayerAdded adds it and [undo] removes it:
    every tracked field is as before and the pipeline was committed once. *)
Theorem X11_adding_is_undone_exactly (s : doc) :
  (∀ layer clip,
     layer ∈ timeline_layers s → clip_layer s !! clip = None → clip ∉ get_clips layer s →
     ∃ s1 s2,
       do (ClipAdded layer clip) s = Ok (ClipAdded layer clip, s1) ∧
       clip ∈ get_clips layer s1 ∧
       undo (ClipAdded layer clip) s1 = Ok (ClipAdded layer clip, s2) ∧
       obs_eq s2 s ∧ commits s2 = (commits s + 2)%nat) ∧
  (∀ layer,
     layer ∉ timeline_layers s →
     ∃ s1 s2,
       do (LayerAdded layer) s = Ok (LayerAdded layer, s1) ∧
       layer ∈ timeline_layers s1 ∧
       undo (LayerAdded layer) s1 = Ok (LayerAdded layer, s2) ∧
       obs_eq s2 s ∧ commits s2 = (commits s + 1)%nat).
Proof.
  split.
  - intros layer clip Hl Hfree Hnotin.
    set (s0 := set_clip_name (delete clip (clip_name s)) s).
    set (sa := set_clip_layer (<[clip := layer]> (clip_layer s0))
                 (set_layer_clips (<[layer := get_clips layer s0 ++ [clip]]> (layer_clips s0))
                                  s0)).
    assert (add_clip layer clip s0 = Ok (tt, sa)) as Eadd.
    { unfold add_clip, modify. simpl. by rewrite Hfree. }
    set (s1 := set_commits (S (commits sa)) sa).
    set (sr := set_clip_layer (delete clip (clip_layer s1))
                 (set_layer_clips
                    (<[layer := filter (λ x, x ≠ clip) (get_clips layer s1)]> (layer_clips s1))
                    s1)).
    assert (remove_clip layer clip s1 = Ok (tt, sr)) as Erem.
    { unfold remove_clip, modify. rewrite decide_True; [done|].
      simpl. apply lookup_insert_eq. }
    exists s1, (set_commits (S (commits sr)) sr).
    split; [|split; [|split; [|split]]].
    + simpl. rewrite (bind_Ok (set_name_None clip) _ s tt s0 eq_refl).
      rewrite (bind_Ok _ _ _ _ _ Eadd).
      by rewrite (bind_Ok _ _ _ _ _ (commit_timeline_of_layer_ok layer sa Hl)).
    + unfold get_clips at 1. simpl. rewrite lookup_insert_eq. simpl.
      apply elem_of_app. right. apply list_elem_of_here.
    + simpl. rewrite (bind_Ok _ _ _ _ _ Erem).
      by rewrite (bind_Ok _ _ _ _ _ (commit_timeline_of_layer_ok layer sr Hl)).
    + split; try done. intros l. unfold get_clips at 1. simpl.
      rewrite insert_insert_eq.
      destruct (decide (layer = l)) as [<-|Hne].
      * rewrite lookup_insert_eq. simpl. unfold get_clips at 1. simpl.
        rewrite lookup_insert_eq. simpl. by apply filter_ne_fresh.
      * by rewrite lookup_insert_ne.
    + simpl. lia.
  - intros layer Hnotin.
    set (s1 := set_timeline_layers (timeline_layers s ++ [layer]) s).
    assert (add_layer layer s = Ok (tt, s1)) as Eadd.
    { unfold add_layer, modify. by rewrite decide_False. }
    eexists s1, _. split; [|split; [|split; [|split]]].
    + simpl. by rewrite (bind_Ok _ _ _ _ _ Eadd).
    + simpl. apply elem_of_app. right. apply list_elem_of_here.
    + reflexivity.
    + split; try done. simpl. by apply filter_ne_fresh.
    + simpl. lia.
Qed.

Lemma X11_adding_witness :
  ∃ s1 s2,
    do (LayerAdded 2%positive) sample_doc = Ok (LayerAdded 2%positive, s1) ∧
    timeline_layers s1 = [1; 2]%positive ∧
    undo (LayerAdded 2%positive) s1 = Ok (LayerAdded 2%positive, s2) ∧
    timeline_layers s2 = [1%positive] ∧ commits s2 = 1%nat.
Proof.
  destruct (X11_adding_is_undone_exactly sample_doc) as [_ H].
  destruct (H 2%positive) as (s1 & s2 & E1 & _ & E2 & O & C).
  { vm_compute. intros Hin. apply elem_of_cons in Hin as [[=]|Hin].
    by apply elem_of_nil in Hin. }
  exists s1, s2. split; [exact E1|]. split; [by injection E1 as <-|].
  split; [exact E2|]. split; [|exact C].
  by rewrite (obs_layers _ _ O).
Defined.

(** ** The scripted record of ClipRemoved *)

(** X12: [ClipRemoved.asScenarioAction] is suppressed by an editing context
    only.  It returns no record exactly when the layer is in the timeline and
    the timeline's UI has an editing context; otherwise it returns the
    remove-clip record with the clip name, also while the layer is being
    split, when ClipAdded renders no record. *)
Theorem X12_ClipRemoved_asScenarioAction (self : ClipRemovedAction) (d : doc) :
  (ClipRemoved_asScenarioAction self d = None ↔
   cr_layer self ∈ timeline_layers d ∧
   ∃ ui ctx, timeline_ui_attr (info d) = Some (Some ui) ∧ editing_context ui = Some ctx) ∧
  (ClipRemoved_asScenarioAction self d ≠ None →
   ClipRemoved_asScenarioAction self d
   = Some (GstStructure "remove-clip" [("name", GString (get_name (cr_clip self) d))])) ∧
  (layer_splitting_object (info d) (cr_layer self) = Some (PyBool true) →
   ClipAdded_asScenarioAction (cr_layer self) (cr_clip self) d = None ∧
   (is_editing (cr_layer self) d = false → ClipRemoved_asScenarioAction self d ≠ None)).
Proof.
  unfold ClipRemoved_asScenarioAction. rewrite <- is_editing_true.
  split; [|split].
  - destruct (is_editing (cr_layer self) d); split; done.
  - by destruct (is_editing (cr_layer self) d).
  - intros Hs. apply is_splitting_true in Hs. split.
    + unfold ClipAdded_asScenarioAction. by rewrite Hs.
    + by intros ->.
Qed.

Lemma X12_ClipRemoved_asScenarioAction_witness :
  let self := {| cr_layer := 1%positive; cr_clip := 2%positive;
                 cr_transition_removed_actions := [] |} in
  ClipRemoved_asScenarioAction self sample_doc
  = Some (GstStructure "remove-clip" [("name", GString "uriclip0")]) ∧
  ClipRemoved_asScenarioAction self dragging_doc = None.
Proof.
  intros self. split.
  - destruct (X12_ClipRemoved_asScenarioAction self sample_doc) as (_ & H & _).
    apply H. discriminate.
  - destruct (X12_ClipRemoved_asScenarioAction self dragging_doc) as (H & _).
    apply H. split; [vm_compute; left|].
    by exists (TimelineUi (Some 1%positive)), 1%positive.
Defined.

(** * Properties of [pitivi/utils/system.py] *)

(** ** Inhibitor keys *)

Lemma py_in_true key l : py_in key l = true ↔ key ∈ l.
Proof.
  unfold py_in. rewrite existsb_exists. split.
  - intros (x & Hin & Heq). apply String.eqb_eq in Heq as ->. by apply list_elem_of_In.
  - intros Hin. exists key. split; [by apply list_elem_of_In|apply String.eqb_refl].
Qed.

Lemma py_in_false key l : py_in key l = false ↔ key ∉ l.
Proof.
  rewrite <- py_in_true. destruct (py_in key l); split; done.
Qed.

Lemma list_remove_snoc key l : key ∉ l → list_remove key (l ++ [key]) = l.
Proof.
  induction l as [|k l IH]; intros Hnotin; simpl.
  - by rewrite String.eqb_refl.
  - apply not_elem_of_cons in Hnotin as [Hne Hnotin].
    destruct (String.eqb_spec k key) as [->|_]; [done|]. by rewrite IH.
Qed.

Lemma list_remove_elem_of key k l :
  k ∈ list_remove key l → k ∈ l.
Proof.
  induction l as [|x l IH]; simpl; [done|].
  destruct (String.eqb_spec x key) as [->|_].
  - apply list_elem_of_further.
  - intros Hin. apply elem_of_cons in Hin as [->|Hin]; [apply list_elem_of_here|].
    by apply list_elem_of_further, IH.
Qed.

Lemma list_remove_other key k l :
  k ≠ key → k ∈ l → k ∈ list_remove key l.
Proof.
  intros Hne. induction l as [|x l IH]; simpl; [done|].
  intros Hin. destruct (String.eqb_spec x key) as [->|_].
  - apply elem_of_cons in Hin as [->|Hin]; done.
  - apply elem_of_cons in Hin as [->|Hin]; [apply list_elem_of_here|].
    by apply list_elem_of_further, IH.
Qed.

Lemma list_remove_NoDup key l :
  NoDup l → NoDup (list_remove key l) ∧ key ∉ list_remove key l.
Proof.
  induction 1 as [|x l Hx Hnd IH]; simpl.
  - split; [constructor|]. by intros H%elem_of_nil.
  - destruct (String.eqb_spec x key) as [->|Hne]; [done|].
    destruct IH as [IH1 IH2]. split.
    + constructor; [|done]. intros Hin. by apply Hx, (list_remove_elem_of key).
    + intros Hin. apply elem_of_cons in Hin as [->|Hin]; done.
Qed.

(** X13: inhibitor keys are kept as a list without repetitions.  On such a
    list, inhibiting a key returns a list without repetitions in which the
    key is inhibited, emits the signal exactly when the key was not inhibited
    before, and can be repeated without effect; uninhibiting a key that was
    newly inhibited gives back the list before.  Uninhibiting a key leaves a
    list without repetitions in which the key is no longer inhibited and
    every other key is as before, emits exactly when the key was inhibited,
    and can be repeated without effect.  Inhibiting [None] raises
    AssertionError. *)
Theorem X13_inhibitor_keys (list_ : list string) (key : string) :
  NoDup list_ →
  (∃ keys emitted,
     inhibit list_ (Some key) = Ok (keys, emitted) ∧
     NoDup keys ∧ isInhibited keys (Some key) = true ∧
     emitted = negb (isInhibited list_ (Some key)) ∧
     inhibit keys (Some key) = Ok (keys, false) ∧
     (isInhibited list_ (Some key) = false → uninhibit keys (Some key) = (list_, true))) ∧
  (∃ keys emitted,
     uninhibit list_ (Some key) = (keys, emitted) ∧
     NoDup keys ∧ isInhibited keys (Some key) = false ∧
     emitted = isInhibited list_ (Some key) ∧
     uninhibit keys (Some key) = (keys, false) ∧
     ∀ k, k ≠ key → isInhibited keys (Some k) = isInhibited list_ (Some k)) ∧
  inhibit list_ None = Raise AssertionError.
Proof.
  intros Hnd. split; [|split; [|done]].
  - unfold inhibit, uninhibit, isInhibited.
    destruct (py_in key list_) eqn:Hin; simpl.
    + exists list_, false. rewrite Hin. by repeat split.
    + apply py_in_false in Hin.
      assert (py_in key (list_ ++ [key]) = true) as Hin'.
      { apply py_in_true, elem_of_app. right. apply list_elem_of_here. }
      exists (list_ ++ [key]), true. rewrite Hin'. simpl.
      split; [done|]. split.
      { apply NoDup_app. split; [done|]. split; [|apply NoDup_singleton].
        intros x Hx Hx'. apply list_elem_of_singleton in Hx' as ->. done. }
      split; [done|]. split; [done|]. split; [done|].
      intros _. by rewrite list_remove_snoc.
  - unfold uninhibit, isInhibited.
    destruct (py_in key list_) eqn:Hin.
    + destruct (list_remove_NoDup key list_ Hnd) as [Hnd' Hgone].
      apply py_in_false in Hgone.
      exists (list_remove key list_), true. rewrite Hgone.
      split; [done|]. split; [done|]. split; [done|]. split; [done|]. split; [done|].
      intros k Hne. destruct (py_in k list_) eqn:Hk.
      * apply py_in_true. apply py_in_true in Hk. by apply list_remove_other.
      * apply py_in_false. apply py_in_false in Hk. intros H. by apply Hk, (list_remove_elem_of key).
    + exists list_, false. rewrite Hin. by repeat split.
Qed.

Lemma X13_inhibitor_keys_witness :
  inhibit ["render"] (Some "preview") = Ok (["render"; "preview"], true) ∧
  uninhibit ["render"; "preview"] (Some "render") = (["preview"], true).
Proof.
  destruct (X13_inhibitor_keys ["render"] "preview") as ((keys & em & E & _) & _ & _).
  { apply NoDup_singleton. }
  split; reflexivity.
Defined.

(** ** File names *)

Lemma getUniqueFilename_cons a s :
  getUniqueFilename (String a s)
  = if Ascii.eqb a "%" then String "%" (String "3" (String "7" (getUniqueFilename s)))
    else if Ascii.eqb a "/" then String "%" (String "4" (String "7" (getUniqueFilename s)))
    else String a (getUniqueFilename s).
Proof.
  unfold getUniqueFilename. simpl.
  destruct (Ascii.eqb_spec a "%") as [->|Hp]; [reflexivity|]. simpl.
  destruct (Ascii.eqb_spec a "/") as [->|Hs]; reflexivity.
Qed.

Lemma filename_source_getUniqueFilename s :
  filename_source (getUniqueFilename s) = s.
Proof.
  induction s as [|a s IH]; [reflexivity|].
  rewrite getUniqueFilename_cons.
  destruct (Ascii.eqb_spec a "%") as [->|Hp]; [simpl; by rewrite IH|].
  destruct (Ascii.eqb_spec a "/") as [->|Hs]; [simpl; by rewrite IH|].
  simpl. destruct (Ascii.eqb_spec a "%") as [->|_]; [done|]. by rewrite IH.
Qed.

(** X14: [getUniqueFilename] gives a file name that can only be obtained from
    the string it was given and that has no slash: the string can be read
    back from the name, so two strings with the same name are equal. *)
Theorem X14_getUniqueFilename_is_unique (s s' : string) :
  filename_source (getUniqueFilename s) = s ∧
  (getUniqueFilename s = getUniqueFilename s' → s = s') ∧
  ¬ In "/"%char (list_ascii_of_string (getUniqueFilename s)).
Proof.
  split; [apply filename_source_getUniqueFilename|]. split.
  - intros H. rewrite <- (filename_source_getUniqueFilename s), H.
    apply filename_source_getUniqueFilename.
  - induction s as [|a s IH]; [by intros []|].
    rewrite getUniqueFilename_cons.
    destruct (Ascii.eqb_spec a "%") as [->|Hp].
    { simpl. intros [H|[H|[H|H]]]; try discriminate H. by apply IH. }
    destruct (Ascii.eqb_spec a "/") as [->|Hs].
    { simpl. intros [H|[H|[H|H]]]; try discriminate H. by apply IH. }
    simpl. intros [H|H]; [by apply Hs|by apply IH].
Qed.

(** The name of the specification's kind of preset: a slash and a percent
    sign are written out. *)
Example getUniqueFilename_example :
  getUniqueFilename "50%/HD.json" = "50%37%47HD.json".
Proof. reflexivity. Qed.

Lemma X14_getUniqueFilename_witness :
  filename_source "50%37%47HD.json" = "50%/HD.json" ∧
  ¬ In "/"%char (list_ascii_of_string "50%37%47HD.json").
Proof.
  destruct (X14_getUniqueFilename_is_unique "50%/HD.json" "50%/HD.json") as (H1 & _ & H3).
  split; [exact H1|exact H3].
Defined.

(** ** Power inhibition on GNOME *)

Lemma GnomeSystem_eta (self : GnomeSystem) :
  {| gs_system := gs_system self; gs_cookie := gs_cookie self;
     gs_cookie_type := gs_cookie_type self |} = self.
Proof. by destruct self. Qed.

(** X15: the cookie of a GnomeSystem.  [_updatePowerInhibitionCb] keeps the
    key lists and the consistency of cookie and cookie type.  When it calls
    [Inhibit] the cookie the session manager returns is the one held
    afterwards and the cookie held before, if any, is released.  When
    nothing is inhibited, a held cookie other than 0 is released and
    forgotten; a held cookie 0 compares equal to [COOKIE_NONE] and is kept,
    with its cookie type, and no call is made; and when no cookie is held,
    [None] differs from [COOKIE_NONE] and [Uninhibit(None)] is called. *)
Theorem X15_power_inhibition_cookie (self : GnomeSystem) (new_cookie : Z) :
  cookie_consistent self →
  ∃ self' calls,
    updatePowerInhibitionCb self new_cookie = (self', calls) ∧
    gs_system self' = gs_system self ∧
    cookie_consistent self' ∧
    (∀ reason flags, SessionInhibit reason flags ∈ calls →
       gs_cookie self' = Some new_cookie ∧
       ∀ c, gs_cookie self = Some c → SessionUninhibit (Some c) ∈ calls) ∧
    (isInhibited (sleep_keys (gs_system self)) None = false →
     isInhibited (screensaver_keys (gs_system self)) None = false →
     (∀ c, gs_cookie self = Some c → c ≠ 0 →
           calls = [SessionUninhibit (Some c)] ∧
           gs_cookie self' = None ∧ gs_cookie_type self' = COOKIE_NONE) ∧
     (gs_cookie self = Some 0 → calls = [] ∧ self' = self) ∧
     (gs_cookie self = None → calls = [SessionUninhibit None] ∧ self' = self)).
Proof.
  intros Hc. unfold updatePowerInhibitionCb, cookie_consistent in *.
  destruct (isInhibited (sleep_keys (gs_system self)) None) eqn:Hsleep.
  - destruct (gs_cookie_type self =? COOKIE_SLEEP) eqn:Htype; simpl.
    + eexists _, _. split; [reflexivity|]. split; [done|]. split; [done|].
      split; [|done]. intros reason flags Hin. by apply elem_of_nil in Hin.
    + eexists _, _. split; [reflexivity|]. split; [done|]. split; [done|].
      split; [|done]. intros reason flags _. split; [done|].
      intros c ->. simpl. apply list_elem_of_further, list_elem_of_here.
  - destruct (isInhibited (screensaver_keys (gs_system self)) None) eqn:Hscreen.
    + destruct (gs_cookie_type self =? COOKIE_SCREENSAVER) eqn:Htype; simpl.
      * eexists _, _. split; [reflexivity|]. split; [done|]. split; [done|].
        split; [|done]. intros reason flags Hin. by apply elem_of_nil in Hin.
      * eexists _, _. split; [reflexivity|]. split; [done|]. split; [done|].
        split; [|done]. intros reason flags _. split; [done|].
        intros c ->. simpl. apply list_elem_of_further, list_elem_of_here.
    + destruct (gs_cookie self) as [c|] eqn:Hcookie; simpl.
      * destruct (Z.eqb_spec c COOKIE_NONE) as [->|Hne]; simpl.
        -- eexists _, _. split; [reflexivity|]. split; [done|]. split; [by rewrite Hcookie|].
           split.
           { intros reason flags Hin. by apply elem_of_nil in Hin. }
           intros _ _. split; [|split]; [|done|done].
           intros c [= <-] Hne. by destruct Hne.
        -- eexists _, _. split; [reflexivity|]. split; [done|]. split; [done|].
           split.
           { intros reason flags Hin. apply list_elem_of_singleton in Hin. discriminate. }
           intros _ _. split; [|split]; [| |done].
           ++ by intros c' [= <-] _.
           ++ intros [= ->]. by destruct Hne.
      * eexists _, _. split; [reflexivity|]. split; [done|]. split; [done|].
        split.
        { intros reason flags Hin. apply list_elem_of_singleton in Hin. discriminate. }
        intros _ _. split; [|split]; [done|done|].
        intros _. split; [done|].
        rewrite <- (GnomeSystem_eta self) at 2. rewrite Hcookie.
        by rewrite (proj1 Hc eq_refl).
Qed.

(** Inhibiting sleep on a new GnomeSystem takes a cookie and uninhibiting it
    releases the cookie, unless the cookie is 0; an update on a new
    GnomeSystem, as [uninhibitAll] causes, calls [Uninhibit(None)]. *)
Lemma X15_power_inhibition_witness :
  (∃ self' , updatePowerInhibitionCb new_GnomeSystem 7 = (self', [SessionUninhibit None])) ∧
  (∃ self1 self2,
     Gnome_inhibitSleep new_GnomeSystem (Some "render") 7
     = Ok (self1, [SessionInhibit "render" 5]) ∧
     gs_cookie self1 = Some 7 ∧
     Gnome_uninhibitSleep self1 (Some "render") 8 = (self2, [SessionUninhibit (Some 7)]) ∧
     self2 = new_GnomeSystem) ∧
  (∃ self1,
     Gnome_inhibitSleep new_GnomeSystem (Some "render") 0
     = Ok (self1, [SessionInhibit "render" 5]) ∧
     Gnome_uninhibitSleep self1 (Some "render") 8
     = (with_sleep_keys [] self1, []) ∧
     gs_cookie_type (with_sleep_keys [] self1) = COOKIE_SLEEP).
Proof.
  split; [|split].
  - destruct (X15_power_inhibition_cookie new_GnomeSystem 7) as (self' & calls & E & _ & _ & _ & H).
    { done. }
    destruct (H eq_refl eq_refl) as (_ & _ & Hnone).
    destruct (Hnone eq_refl) as [-> _]. by exists self'.
  - eexists _, _. split; [reflexivity|]. split; [reflexivity|]. split; reflexivity.
  - eexists. split; [reflexivity|]. split; reflexivity.
Defined.
